(** * Study Tracker: the derived-data computations of the two dashboards

    A shallow embedding of [src/pages/StudentDashboard.tsx] (the student
    dashboard and, after the separator, the admin dashboard) and of the
    record types of the types module.

    Conventions of the embedding.
    - A JavaScript string is the list of its UTF-16 code units.
    - A time value is an integral number of milliseconds since the epoch, or
      [NaN] (what [getTime] answers for an Invalid Date).  [dueDate] is the
      one numeric field the application computes from text typed by the user,
      so it is the one field taken to hold any number: [NaN], or an integer
      that may lie outside the range of [Date] (a number with a fraction
      behaves as the integer [new Date] cuts it down to, an infinite one as
      an integer out of range).  [createdAt] and [completedAt] are readings
      of the clock.
    - Local time is UTC shifted by a fixed adjustment [tza] (milliseconds),
      an arbitrary integer: a result without a condition on [tza] holds in
      every fixed-offset zone.
    - The range of [Date] (8.64e15 ms either side of the epoch) is modelled
      where a stored [dueDate] or a parsed date goes through the date
      library ([TimeClip] in [toDate] and after the method that sets the
      hours).  Readings of the clock, the midnights before them and the days
      of the week or month around them are far inside that range, and
      their clipping is left out.
    - An optional timestamp of a document is a number, [null], or missing.
    - One pass of a handler or of a render reads the clock once ([now]).
    - The document store is a finite map from document ids to tasks; the
      SDK call of a handler either goes through or throws ([fault]).
    - The date library is modelled function by function as far as the
      dashboards call it; [parseISO] is a parameter of the handlers.
    - What rests on the tables of Unicode or on the locale ([toLowerCase],
      [localeCompare]) is a parameter of the definitions that call it.
    - A regular expression between [^] and [$] is matched by derivatives.
    - The services called by [handleCreateUser] answer as an argument of the
      handler says: the first call that throws, if one does.

    Part I is the embedding, Part II the vocabulary of the statements (the
    specification's wording, where it differs from the code, and the worked
    inputs), Part III the properties. *)

From Stdlib Require Import ZArith NArith List Lia Ascii String DecimalString.
From Stdlib Require Import Sorting.Sorted Sorting.Permutation SpecFloat.
From stdpp Require Import base option list gmap.
From Equations Require Import Equations.
Import ListNotations.

Local Open Scope Z_scope.

(** * Part I: the embedding *)

(** ** JavaScript strings *)

Module JsString.

(** A string value: its sequence of UTF-16 code units. *)
Abbreviation jsstring := (list N).

(** A literal, written with its ASCII characters. *)
Definition str (s : string) : jsstring :=
  List.map N_of_ascii (list_ascii_of_string s).

(** [a < b] on strings: lexicographic on code units, a proper prefix
    first. *)
Fixpoint js_lt (a b : jsstring) : bool :=
  match a, b with
  | _, [] => false
  | [], _ :: _ => true
  | x :: a', y :: b' =>
      if (x <? y)%N then true
      else if (y <? x)%N then false
      else js_lt a' b'
  end.

(** WhiteSpace and LineTerminator code units, the ones [trim] strips. *)
Definition is_space (c : N) : bool :=
  ((9 <=? c) && (c <=? 13) || (c =? 32) || (c =? 160) || (c =? 5760)
   || (8192 <=? c) && (c <=? 8202) || (c =? 8232) || (c =? 8233)
   || (c =? 8239) || (c =? 8287) || (c =? 12288) || (c =? 65279))%N.

Fixpoint trimStart (s : jsstring) : jsstring :=
  match s with
  | c :: s' => if is_space c then trimStart s' else s
  | [] => []
  end.

Definition trimEnd (s : jsstring) : jsstring := rev (trimStart (rev s)).

(** [String.prototype.trim]. *)
Definition trim (s : jsstring) : jsstring := trimEnd (trimStart s).

(** The truth value of a string: the empty string is falsy. *)
Definition truthy (s : jsstring) : bool :=
  match s with [] => false | _ => true end.

(** [Number.prototype.toString] on an integer. *)
Definition toString (n : Z) : jsstring :=
  str (NilZero.string_of_int (Z.to_int n)).

(** [String.prototype.padStart(len, "0")]. *)
Definition padStart0 (len : nat) (s : jsstring) : jsstring :=
  List.repeat 48%N (len - length s) ++ s.

(** A value put in an array that is then joined: a string or a number. *)
Inductive jsval :=
| VStr (s : jsstring)
| VNum (n : Z).

Definition ToString (v : jsval) : jsstring :=
  match v with
  | VStr s => s
  | VNum n => toString n
  end.

(** [Array.prototype.join(sep)]. *)
Fixpoint join (sep : jsstring) (l : list jsval) : jsstring :=
  match l with
  | [] => []
  | [v] => ToString v
  | v :: l' => ToString v ++ sep ++ join sep l'
  end.

(** [q] is written at the start of [s]. *)
Fixpoint startsWith (s q : jsstring) : bool :=
  match q, s with
  | [], _ => true
  | _ :: _, [] => false
  | c :: q', d :: s' => (c =? d)%N && startsWith s' q'
  end.

(** [String.prototype.includes]: [q] is written somewhere in [s]. *)
Fixpoint includes (s q : jsstring) : bool :=
  startsWith s q
  || match s with
     | [] => false
     | _ :: s' => includes s' q
     end.

End JsString.
Import JsString.

(** ** Regular expressions

    A pattern between the two anchors [^] and [$], with no capture and no
    flag: [test] asks whether the whole string is one of the strings the
    pattern describes, which a matcher by derivatives decides. *)

Module JsRegExp.

Inductive regex :=
| Empty
| Eps
| Class (p : N -> bool)
| Seq (r s : regex)
| Alt (r s : regex)
| Star (r : regex).

(** [r+] and a literal code unit. *)
Definition Plus (r : regex) : regex := Seq r (Star r).
Definition Chr (c : N) : regex := Class (N.eqb c).

Fixpoint nullable (r : regex) : bool :=
  match r with
  | Empty => false
  | Eps => true
  | Class _ => false
  | Seq r s => nullable r && nullable s
  | Alt r s => nullable r || nullable s
  | Star _ => true
  end.

(** What is left of [r] to match after the code unit [c]. *)
Fixpoint deriv (c : N) (r : regex) : regex :=
  match r with
  | Empty => Empty
  | Eps => Empty
  | Class p => if p c then Eps else Empty
  | Seq r s =>
      if nullable r then Alt (Seq (deriv c r) s) (deriv c s)
      else Seq (deriv c r) s
  | Alt r s => Alt (deriv c r) (deriv c s)
  | Star r => Seq (deriv c r) (Star r)
  end.

(** [/^r$/.test(s)]. *)
Fixpoint test (r : regex) (s : jsstring) : bool :=
  match s with
  | [] => nullable r
  | c :: s' => test (deriv c r) s'
  end.

End JsRegExp.

(** ** Time values and the date arithmetic of ECMAScript

    The abstract operations of the language specification (section "Date
    Objects"), which the [Date] methods used by the date library are made
    of. *)

Module Calendar.

Definition msPerDay : Z := 86400000.

Definition Day (t : Z) : Z := t / msPerDay.
Definition TimeWithinDay (t : Z) : Z := t mod msPerDay.

Definition DaysInYear (y : Z) : Z :=
  if negb (y mod 4 =? 0) then 365
  else if negb (y mod 100 =? 0) then 366
  else if negb (y mod 400 =? 0) then 365
  else 366.

Definition DayFromYear (y : Z) : Z :=
  365 * (y - 1970) + (y - 1969) / 4 - (y - 1901) / 100 + (y - 1601) / 400.

(** The largest [y] with [DayFromYear y <= Day t]: the mean year length
    gives an estimate that is off by one at most, and is then adjusted. *)
Definition YearFromTime (t : Z) : Z :=
  let d := Day t in
  let y := 1970 + (400 * d) / 146097 in
  if d <? DayFromYear y then y - 1
  else if DayFromYear (y + 1) <=? d then y + 1
  else y.

Definition InLeapYear (t : Z) : Z :=
  if DaysInYear (YearFromTime t) =? 366 then 1 else 0.

Definition DayWithinYear (t : Z) : Z := Day t - DayFromYear (YearFromTime t).

(** Number of days of the year that precede month [m] (0 = January). *)
Definition monthStart (m leap : Z) : Z :=
  match m with
  | 0 => 0
  | 1 => 31
  | 2 => 59 + leap
  | 3 => 90 + leap
  | 4 => 120 + leap
  | 5 => 151 + leap
  | 6 => 181 + leap
  | 7 => 212 + leap
  | 8 => 243 + leap
  | 9 => 273 + leap
  | 10 => 304 + leap
  | _ => 334 + leap
  end.

Definition MonthFromTime (t : Z) : Z :=
  let d := DayWithinYear t in
  let l := InLeapYear t in
  if d <? 31 then 0
  else if d <? 59 + l then 1
  else if d <? 90 + l then 2
  else if d <? 120 + l then 3
  else if d <? 151 + l then 4
  else if d <? 181 + l then 5
  else if d <? 212 + l then 6
  else if d <? 243 + l then 7
  else if d <? 273 + l then 8
  else if d <? 304 + l then 9
  else if d <? 334 + l then 10
  else 11.

Definition DateFromTime (t : Z) : Z :=
  DayWithinYear t - monthStart (MonthFromTime t) (InLeapYear t) + 1.

Definition WeekDay (t : Z) : Z := (Day t + 4) mod 7.

Definition MakeTime (hour min sec ms : Z) : Z :=
  hour * 3600000 + min * 60000 + sec * 1000 + ms.

Definition MakeDay (year month date : Z) : Z :=
  let ym := year + month / 12 in
  let mn := month mod 12 in
  let leap := if DaysInYear ym =? 366 then 1 else 0 in
  DayFromYear ym + monthStart mn leap + date - 1.

Definition MakeDate (day time : Z) : Z := day * msPerDay + time.

(** The number of days of month [m] (0 = January) of year [y], as the date
    library's [getDaysInMonth] and its date validation have it. *)
Definition DaysInMonth (y m : Z) : Z :=
  match m with
  | 1 => if DaysInYear y =? 366 then 29 else 28
  | 3 | 5 | 8 | 10 => 30
  | _ => 31
  end.

End Calendar.
Import Calendar.

(** A time value: what [getTime] answers, and what a numeric timestamp
    field holds. *)
Inductive timeval :=
| NaN
| Ms (t : Z).

(** [TimeClip]: a [Date] holds no instant further than 8.64e15 ms from the
    epoch. *)
Definition TimeClip (t : Z) : timeval :=
  if Z.abs t <=? 8640000000000000 then Ms t else NaN.

(** ** The [Date] methods and the date library functions in use

    [Date_*] are the methods of a valid [Date] (given by its time value);
    the library functions take a number or a [Date], valid or not. *)

Module DateFns.
Section LocalZone.

(** The local time zone adjustment, in milliseconds. *)
Variable tza : Z.

Definition LocalTime (t : Z) : Z := t + tza.
Definition UTC (t : Z) : Z := t - tza.

Definition Date_getFullYear (t : Z) : Z := YearFromTime (LocalTime t).
Definition Date_getMonth (t : Z) : Z := MonthFromTime (LocalTime t).
Definition Date_getDate (t : Z) : Z := DateFromTime (LocalTime t).
Definition Date_getDay (t : Z) : Z := WeekDay (LocalTime t).

Definition Date_setHours (t : Z) (hour min sec ms : Z) : Z :=
  UTC (MakeDate (Day (LocalTime t)) (MakeTime hour min sec ms)).

Definition Date_setDate (t : Z) (dt : Z) : Z :=
  let l := LocalTime t in
  UTC (MakeDate (MakeDay (YearFromTime l) (MonthFromTime l) dt)
                (TimeWithinDay l)).

Definition Date_setFullYear (t : Z) (year month dt : Z) : Z :=
  UTC (MakeDate (MakeDay year month dt) (TimeWithinDay (LocalTime t))).

(** [toDate] of the library, the first step of its functions, on a stored
    number or on a [Date]: [new Date(argument)], which clips. *)
Definition toDate (d : timeval) : timeval :=
  match d with
  | NaN => NaN
  | Ms t => TimeClip t
  end.

(** A method that sets fields, applied to the [Date] that [toDate] made: the
    Invalid Date stays what it is, and the time value the method computes is
    clipped. *)
Definition on_valid (f : Z -> Z) (d : timeval) : timeval :=
  match toDate d with
  | NaN => NaN
  | Ms t => TimeClip (f t)
  end.

Definition startOfDay_ms (t : Z) : Z := Date_setHours t 0 0 0 0.

Definition startOfDay (d : timeval) : timeval := on_valid startOfDay_ms d.

(** [===] on two time values: [NaN] equals nothing. *)
Definition strict_eq (a b : timeval) : bool :=
  match a, b with
  | Ms x, Ms y => x =? y
  | _, _ => false
  end.

Section Clock.

(** [Date.now()]. *)
Variable now : Z.

(** [isSameDay(date, Date.now())]: the starts of the two days, compared.
    The start of the day of the clock is a date. *)
Definition isToday (d : timeval) : bool :=
  strict_eq (startOfDay d) (Ms (startOfDay_ms now)).

Definition isPast (d : timeval) : bool :=
  match toDate d with
  | Ms t => t <? now
  | NaN => false
  end.

Definition isFuture (d : timeval) : bool :=
  match toDate d with
  | Ms t => now <? t
  | NaN => false
  end.

End Clock.

Definition addDays_ms (t : Z) (amount : Z) : Z :=
  if amount =? 0 then t else Date_setDate t (Date_getDate t + amount).

Definition subDays_ms (t : Z) (amount : Z) : Z := addDays_ms t (- amount).

Definition startOfMonth_ms (t : Z) : Z :=
  Date_setHours (Date_setDate t 1) 0 0 0 0.

Definition endOfMonth_ms (t : Z) : Z :=
  let month := Date_getMonth t in
  Date_setHours (Date_setFullYear t (Date_getFullYear t) (month + 1) 0)
                23 59 59 999.

(** One turn of the loop of [eachDayOfInterval]:
    [setDate(getDate() + 1); setHours(0, 0, 0, 0)]. *)
Definition nextDay (cur : Z) : Z :=
  Date_setHours (Date_setDate cur (Date_getDate cur + 1)) 0 0 0 0.

(** [while (currentDate.getTime() <= endTime) { push; step }]; every turn
    moves to the next local day, and the days up to that of [endTime] are
    finitely many. *)
#[derive(eliminator=no)]
Equations? eachDay_loop (endTime cur : Z) : list Z
  by wf (Z.to_nat (Day (LocalTime endTime) - Day (LocalTime cur) + 1)) lt :=
  eachDay_loop endTime cur with Z_le_gt_dec cur endTime => {
    | left _ := cur :: eachDay_loop endTime (nextDay cur);
    | right _ := [] }.
Proof.
  assert (Hmonth : 0 <= MonthFromTime (LocalTime cur) <= 11).
  { unfold MonthFromTime.
    repeat match goal with |- context [if ?b then _ else _] => destruct b end;
      lia. }
  assert (Hnext : Day (LocalTime (nextDay cur)) = Day (LocalTime cur) + 1).
  { unfold nextDay, Date_setHours, Date_setDate, Date_getDate, DateFromTime,
      DayWithinYear, InLeapYear, MakeDay.
    rewrite (Z.div_small (MonthFromTime (LocalTime cur)) 12),
      (Z.mod_small (MonthFromTime (LocalTime cur)) 12), Z.add_0_r by lia.
    unfold MakeDate, MakeTime, UTC, LocalTime, TimeWithinDay, Day, msPerDay.
    Z.to_euclidean_division_equations. lia. }
  assert (Hle : Day (LocalTime cur) <= Day (LocalTime endTime))
    by (apply Z.div_le_mono; unfold msPerDay, LocalTime; lia).
  lia.
Qed.

(** [eachDayOfInterval({start, end})]; [None] is the [RangeError] the
    library throws on an interval whose start is after its end. *)
Definition eachDayOfInterval (start end_ : Z) : option (list Z) :=
  if start <=? end_ then Some (eachDay_loop end_ (startOfDay_ms start))
  else None.

(** [isSameDay] on two dates made of readings of the clock: the starts of
    the two days, compared. *)
Definition isSameDay_ms (a b : Z) : bool :=
  startOfDay_ms a =? startOfDay_ms b.

(** The year written by the [y] tokens: years before 1 count backwards. *)
Definition eraYear (y : Z) : Z := if 0 <? y then y else 1 - y.

(** [format(date, "yyyy-MM-dd")] on a valid date. *)
Definition format_yyyy_MM_dd (t : Z) : jsstring :=
  padStart0 4 (toString (eraYear (Date_getFullYear t))) ++ str "-"
  ++ padStart0 2 (toString (Date_getMonth t + 1)) ++ str "-"
  ++ padStart0 2 (toString (Date_getDate t)).

(** [format(date, "EEE")]: the abbreviated day of the week. *)
Definition format_EEE (t : Z) : jsstring :=
  match Date_getDay t with
  | 0 => str "Sun"
  | 1 => str "Mon"
  | 2 => str "Tue"
  | 3 => str "Wed"
  | 4 => str "Thu"
  | 5 => str "Fri"
  | _ => str "Sat"
  end.

(** The abbreviated name of a month, 0 being January. *)
Definition monthAbbreviation (m : Z) : jsstring :=
  match m with
  | 0 => str "Jan"
  | 1 => str "Feb"
  | 2 => str "Mar"
  | 3 => str "Apr"
  | 4 => str "May"
  | 5 => str "Jun"
  | 6 => str "Jul"
  | 7 => str "Aug"
  | 8 => str "Sep"
  | 9 => str "Oct"
  | 10 => str "Nov"
  | _ => str "Dec"
  end.

(** [format(date, "MMM d, yyyy")] on a valid date. *)
Definition format_MMM_d_yyyy (t : Z) : jsstring :=
  monthAbbreviation (Date_getMonth t) ++ str " "
  ++ toString (Date_getDate t) ++ str ", "
  ++ padStart0 4 (toString (eraYear (Date_getFullYear t))).

(** [format(date, pattern)] on a stored number: [None] is the [RangeError]
    that the library throws when [toDate] makes the Invalid Date. *)
Definition format (pattern : Z -> jsstring) (d : timeval) : option jsstring :=
  match toDate d with
  | Ms t => Some (pattern t)
  | NaN => None
  end.

(** A decimal digit. *)
Definition digit (c : N) : option Z :=
  if ((48 <=? c) && (c <=? 57))%N then Some (Z.of_N c - 48) else None.

(** The part of [parseISO] that the value of a date input exercises: the
    calendar date [YYYY-MM-DD], read as local midnight of that day, and the
    Invalid Date for the empty string and for a day that does not exist.
    The other shapes the library reads (week and ordinal dates, times,
    offsets) are answered with the Invalid Date here; the handlers below are
    stated for an arbitrary parser and use this one in examples only. *)
Definition parseISO_date (s : jsstring) : timeval :=
  match s with
  | [y1; y2; y3; y4; h1; m1; m2; h2; d1; d2] =>
      match digit y1, digit y2, digit y3, digit y4,
            digit m1, digit m2, digit d1, digit d2 with
      | Some a, Some b, Some c, Some d, Some e, Some f, Some g, Some h =>
          let year := 1000 * a + 100 * b + 10 * c + d in
          let month := 10 * e + f - 1 in
          let date := 10 * g + h in
          if (h1 =? 45)%N && (h2 =? 45)%N
             && (0 <=? month) && (month <=? 11)
             && (1 <=? date) && (date <=? DaysInMonth year month)
          then Ms (UTC (MakeDate (MakeDay year month date) 0))
          else NaN
      | _, _, _, _, _, _, _, _ => NaN
      end
  | _ => NaN
  end.

End LocalZone.
End DateFns.
Import DateFns.

(** ** Arrays *)

Module JsArray.
Section Sort.

Context {A : Type}.

(** The comparator of [Array.prototype.sort]: negative when the first
    argument goes first. *)
Variable cmp : A -> A -> Z.

(** Insertion in front of the first element that must come after [x]. *)
Fixpoint insert (x : A) (l : list A) : list A :=
  match l with
  | [] => [x]
  | y :: l' => if cmp x y <=? 0 then x :: y :: l' else y :: insert x l'
  end.

(** [Array.prototype.sort(cmp)]: the sort is stable, so with a consistent
    comparator its result is the one of stable insertion sort. *)
Fixpoint sort (l : list A) : list A :=
  match l with
  | [] => []
  | x :: l' => insert x (sort l')
  end.

End Sort.

(** [Array.prototype.slice(0, n)]. *)
Definition slice0 {A : Type} (n : nat) (l : list A) : list A := firstn n l.

(** [Array.prototype.slice(start, end)] on two integers: a negative index
    counts from the end, and both are brought into the array. *)
Definition slice {A : Type} (start end_ : Z) (l : list A) : list A :=
  let len := Z.of_nat (length l) in
  let k := if start <? 0 then Z.max (len + start) 0 else Z.min start len in
  let final := if end_ <? 0 then Z.max (len + end_) 0 else Z.min end_ len in
  firstn (Z.to_nat (final - k)) (skipn (Z.to_nat k) l).

(** [Array.prototype.find]: the first element that passes the test. *)
Definition find {A : Type} (p : A -> bool) (l : list A) : option A :=
  List.find p l.

End JsArray.

(** ** Numbers: the double-precision arithmetic of a percentage

    A non-negative finite double is written [mant * 2 ^ expo].  The
    operations below round to nearest, ties to even, with 53 significant
    bits; overflow and subnormal results are out of their reach, as they
    are out of reach of the quotient of two array lengths and of its
    product with 100. *)

Module JsNumber.

Record double := Dbl { mant : Z; expo : Z }.

(** The integer nearest to [num / den] (ties to even), for [0 <= num] and
    [0 < den]. *)
Definition rne (num den : Z) : Z :=
  let q := num / den in
  let r := num mod den in
  if 2 * r <? den then q
  else if den <? 2 * r then q + 1
  else if Z.even q then q else q + 1.

(** [floor (log2 (p / q))] for positive [p] and [q]. *)
Definition ilog2 (p q : Z) : Z :=
  let k := Z.log2 p - Z.log2 q in
  if 0 <=? k then (if q * 2 ^ k <=? p then k else k - 1)
  else (if q <=? p * 2 ^ (- k) then k else k - 1).

(** The double nearest to the rational [p / q], [0 <= p] and [0 < q]. *)
Definition round53 (p q : Z) : double :=
  if p =? 0 then Dbl 0 0
  else
    let e := ilog2 p q - 52 in
    if 0 <=? e then Dbl (rne p (q * 2 ^ e)) e
    else Dbl (rne (p * 2 ^ (- e)) q) e.

(** An array length or a small integer literal: exactly representable
    (lengths are below [2 ^ 32]). *)
Definition of_int (n : Z) : double := Dbl n 0.

(** [x / y] and [x * y]: the exact result, rounded. *)
Definition div (x y : double) : double :=
  let s := expo x - expo y in
  if 0 <=? s then round53 (mant x * 2 ^ s) (mant y)
  else round53 (mant x) (mant y * 2 ^ (- s)).

Definition mul (x y : double) : double :=
  let s := expo x + expo y in
  if 0 <=? s then round53 (mant x * mant y * 2 ^ s) 1
  else round53 (mant x * mant y) (2 ^ (- s)).

(** [Math.round]: the nearest integer, a tie going up. *)
Definition Math_round (x : double) : Z :=
  if 0 <=? expo x then mant x * 2 ^ expo x
  else (2 * mant x + 2 ^ (- expo x)) / 2 ^ (1 - expo x).

(** The sign of [x - y].  The difference of two doubles is zero only when
    they are equal, so its sign is the sign of the exact difference. *)
Definition sub_sign (x y : double) : Z :=
  let k := Z.min (expo x) (expo y) in
  Z.sgn (mant x * 2 ^ (expo x - k) - mant y * 2 ^ (expo y - k)).

(** [Math.ceil]: the least integer that is not below [x]. *)
Definition Math_ceil (x : double) : Z :=
  if 0 <=? expo x then mant x * 2 ^ expo x
  else - ((- mant x) / 2 ^ (- expo x)).

End JsNumber.

(** ** The record types of the types module *)

Inductive UserRole := STUDENT | ADMIN.

Definition UserRole_string (r : UserRole) : jsstring :=
  match r with
  | STUDENT => str "STUDENT"
  | ADMIN => str "ADMIN"
  end.

Module UserProfile.
Record t := mk {
  uid : jsstring;
  email : jsstring;
  displayName : jsstring;
  photoURL : jsstring;
  role : UserRole;
  bio : option jsstring;
  createdAt : Z
}.
End UserProfile.

(** An optional timestamp field of a document: a number, [null], or no
    field at all. *)
Inductive timestamp_field :=
| Num (n : Z)
| Null
| Missing.

Module Task.
Record t := mk {
  id : jsstring;
  userId : jsstring;
  title : jsstring;
  description : option jsstring;
  dueDate : timeval;
  completed : bool;
  completedAt : timestamp_field;
  createdAt : Z
}.
End Task.

(** ** The [tasks] collection of the document store *)

Module Firestore.

(** Documents by id. *)
Abbreviation store := (gmap jsstring Task.t).

(** [addDoc]: the new document gets the id the SDK generated. *)
Definition addDoc (s : store) (newId : jsstring) (t : Task.t) : store :=
  <[newId := t]> s.

(** [updateDoc]: the listed fields of an existing document are replaced; on
    a missing document the call fails and nothing is written. *)
Definition updateDoc (s : store) (id : jsstring) (f : Task.t -> Task.t)
  : option store :=
  match s !! id with
  | Some t => Some (<[id := f t]> s)
  | None => None
  end.

(** [deleteDoc]: the document is removed; removing a document that is not
    there is no error. *)
Definition deleteDoc (s : store) (id : jsstring) : store := delete id s.

End Firestore.
Import Firestore.

(** What a handler did: returned at once, told the user something with
    [alert], logged an error to the console, or completed its write. *)
Inductive outcome :=
| Ignored
| Alert (msg : jsstring)
| Logged
| Done.

(** ** The student dashboard *)

Module Student.
Section Dashboard.

Variable tza : Z.

(** [parseISO] of the date library: any function from strings to dates,
    [NaN] being the Invalid Date. *)
Variable parseISO : jsstring -> timeval.

(** The snapshot listener: [fetchedTasks.sort((a, b) => a.createdAt -
    b.createdAt)], the value given to [setTasks]. *)
Definition onSnapshot (fetchedTasks : list Task.t) : list Task.t :=
  JsArray.sort (fun a b => Task.createdAt a - Task.createdAt b) fetchedTasks.

(** The submit handler of the new-task form; [newId] is the id the SDK
    generates for the document. *)
Definition handleAddTask (user : option jsstring)
    (newTaskTitle newTaskDate : jsstring) (now : Z)
    (newId : jsstring) (fault : bool) (s : store) : outcome * store :=
  match user with
  | None => (Ignored, s)
  | Some uid =>
      if negb (truthy (trim newTaskTitle)) then
        (Alert (str "Please enter a task title"), s)
      else
        let todayStr := format_yyyy_MM_dd tza now in
        if js_lt newTaskDate todayStr then
          (Alert (str "You cannot schedule tasks for the past!"), s)
        else
          let dateObj := parseISO newTaskDate in
          let timestamp := startOfDay tza dateObj in
          if fault then
            (Alert (str "Failed to add task. Please check your internet connection."), s)
          else
            (Done,
             addDoc s newId
               (Task.mk newId uid (trim newTaskTitle) None timestamp false
                        Missing now))
  end.

(** The fields written by [toggleTask]. *)
Definition set_completion (completed : bool) (completedAt : timestamp_field)
    (d : Task.t) : Task.t :=
  Task.mk (Task.id d) (Task.userId d) (Task.title d) (Task.description d)
          (Task.dueDate d) completed completedAt (Task.createdAt d).

(** [task] is the task as rendered; the write goes to the stored document
    of the same id. *)
Definition toggleTask (task : Task.t) (now : Z) (fault : bool) (s : store)
  : outcome * store :=
  let fields :=
    set_completion (negb (Task.completed task))
                   (if negb (Task.completed task) then Num now else Null) in
  if fault then (Logged, s)
  else
    match updateDoc s (Task.id task) fields with
    | Some s' => (Done, s')
    | None => (Logged, s)
    end.

(** The fields written by [handleUpdateTask]. *)
Definition set_title_dueDate (title : jsstring) (dueDate : timeval)
    (d : Task.t) : Task.t :=
  Task.mk (Task.id d) (Task.userId d) title (Task.description d)
          dueDate (Task.completed d) (Task.completedAt d) (Task.createdAt d).

(** The submit handler of the edit form. *)
Definition handleUpdateTask (taskToEdit : option Task.t)
    (editTitle editDate : jsstring) (fault : bool) (s : store)
  : outcome * store :=
  match taskToEdit with
  | None => (Ignored, s)
  | Some task =>
      if negb (truthy (trim editTitle)) then
        (Alert (str "Task title cannot be empty"), s)
      else
        let dateObj := parseISO editDate in
        let timestamp := startOfDay tza dateObj in
        if fault then (Alert (str "Failed to update task."), s)
        else
          match updateDoc s (Task.id task)
                  (set_title_dueDate (trim editTitle) timestamp) with
          | Some s' => (Done, s')
          | None => (Alert (str "Failed to update task."), s)
          end
  end.

(** [openEditModal]: the task put in [taskToEdit] and the two fields of the
    edit form, [editTitle] and [editDate].  [format] throws a [RangeError]
    on a due date that is not a date: [None]. *)
Definition openEditModal (task : Task.t)
  : option (Task.t * jsstring * jsstring) :=
  match format (format_yyyy_MM_dd tza) (Task.dueDate task) with
  | Some editDate => Some (task, Task.title task, editDate)
  | None => None
  end.

(** [confirmDeleteTask]: the new value of [taskToDelete]. *)
Definition confirmDeleteTask (taskId : jsstring) : option jsstring :=
  Some taskId.

(** The confirm handler of the delete dialog.  [fault] is the message of the
    error the SDK call throws, if it throws (an error without a message
    being one with the empty message); the third component is
    [taskToDelete] after the handler. *)
Definition handleDeleteTask (taskToDelete : option jsstring)
    (fault : option jsstring) (s : store)
  : outcome * store * option jsstring :=
  match taskToDelete with
  | None => (Ignored, s, taskToDelete)
  | Some taskId =>
      if negb (truthy taskId) then (Ignored, s, taskToDelete)
      else
        match fault with
        | Some message =>
            (Alert (str "Failed to delete task. "
                    ++ (if truthy message then message
                        else str "Please check your connection.")),
             s, None)
        | None => (Done, deleteDoc s taskId, None)
        end
  end.

Section Render.

(** The reading of the clock during this render. *)
Variable now : Z.

Definition completedCount (tasks : list Task.t) : nat :=
  length (List.filter Task.completed tasks).

Definition completionRate (tasks : list Task.t) : Z :=
  if (length tasks =? 0)%nat then 0
  else
    JsNumber.Math_round
      (JsNumber.mul
         (JsNumber.div (JsNumber.of_int (Z.of_nat (completedCount tasks)))
                       (JsNumber.of_int (Z.of_nat (length tasks))))
         (JsNumber.of_int 100)).

Definition todayTasks (tasks : list Task.t) : list Task.t :=
  List.filter
    (fun t => isToday tza now (Task.dueDate t) && negb (Task.completed t))
    tasks.

Definition upcomingTasks (tasks : list Task.t) : list Task.t :=
  List.filter
    (fun t => isFuture now (startOfDay tza (Task.dueDate t))
              && negb (isToday tza now (Task.dueDate t))
              && negb (Task.completed t))
    tasks.

Definition overdueTasks (tasks : list Task.t) : list Task.t :=
  List.filter
    (fun t => isPast now (startOfDay tza (Task.dueDate t))
              && negb (isToday tza now (Task.dueDate t))
              && negb (Task.completed t))
    tasks.

Definition completedTasks (tasks : list Task.t) : list Task.t :=
  List.filter Task.completed tasks.

(** The tasks handed to the Completed column:
    [completedTasks.slice(0, 10)]. *)
Definition completedPreview (tasks : list Task.t) : list Task.t :=
  JsArray.slice0 10 (completedTasks tasks).

End Render.
End Dashboard.
End Student.

(** ** The admin dashboard *)

Module Admin.

Inductive ChartRange := week | month.

Inductive NotificationType := info | success | warning | error.

Record AdminNotification := {
  id : jsstring;
  type : NotificationType;
  message : jsstring;
  timestamp : Z
}.

(** A point of the chart series. *)
Record DataPoint := {
  day : jsstring;
  count : nat;
  fullDate : Z
}.

Record GlobalStats := {
  totalStudents : nat;
  totalTasks : nat;
  completedTasks : nat;
  overdueTasks : nat;
  completionRate : Z
}.

(** The order of the student directory. *)
Module SortOption.
Inductive t := name | consistency | overdue | completion.
End SortOption.

(** The status filter of the task explorer. *)
Module TaskFilterStatus.
Inductive t := all | completed | pending | overdue.
End TaskFilterStatus.





(** A row of the table of the task explorer: what its cells show. *)
Record TaskRow := {
  rowTitle : jsstring;
  rowPhoto : option jsstring;
  rowStudent : jsstring;
  rowDueDate : jsstring;
  rowStatus : jsstring
}.

Section Dashboard.

Variable tza : Z.

(** The clock, read as [new Date()] or [Date.now()]. *)
Variable now : Z.

(** *** PerformanceLineChart *)

Definition chartInterval (range : ChartRange) : Z * Z :=
  let today := now in
  match range with
  | week => (subDays_ms tza today 6, today)
  | month => (startOfMonth_ms tza today, endOfMonth_ms tza today)
  end.

(** [t.completed && t.completedAt && isSameDay(new Date(t.completedAt),
    day)]; a missing, null or zero [completedAt] is falsy. *)
Definition completedOn (day : Z) (t : Task.t) : bool :=
  Task.completed t
  && match Task.completedAt t with
     | Num c => negb (c =? 0) && isSameDay_ms tza c day
     | Null | Missing => false
     end.

Definition dataPoint (tasks : list Task.t) (range : ChartRange) (day : Z)
  : DataPoint :=
  let completedCount := length (List.filter (completedOn day) tasks) in
  let displayLabel :=
    match range with
    | week => format_EEE tza day
    | month => toString (Date_getDate tza day)
    end in
  {| day := displayLabel; count := completedCount; fullDate := day |}.

(** The series; [None] when the library refuses the interval. *)
Definition dataPoints (tasks : list Task.t) (range : ChartRange)
  : option (list DataPoint) :=
  let '(start, end_) := chartInterval range in
  match eachDayOfInterval tza start end_ with
  | Some daysInInterval => Some (List.map (dataPoint tasks range) daysInInterval)
  | None => None
  end.

(** *** Creating a user *)

(** The class [[^\s@]]. *)
Definition notSpaceNorAt (c : N) : bool := negb (is_space c || (c =? 64)%N).

(** [/^[^\s@]+@[^\s@]+\.[^\s@]+$/]. *)
Definition emailPattern : JsRegExp.regex :=
  JsRegExp.Seq (JsRegExp.Plus (JsRegExp.Class notSpaceNorAt))
    (JsRegExp.Seq (JsRegExp.Chr 64)
       (JsRegExp.Seq (JsRegExp.Plus (JsRegExp.Class notSpaceNorAt))
          (JsRegExp.Seq (JsRegExp.Chr 46)
             (JsRegExp.Plus (JsRegExp.Class notSpaceNorAt))))).

Definition isValidEmail (email : jsstring) : bool :=
  JsRegExp.test emailPattern email.

(** The text shown for an error caught by [handleCreateUser]. *)
Definition createUserErrorText (message : jsstring) : jsstring :=
  let errMsg := message in
  let errMsg :=
    if includes errMsg (str "email-already-in-use")
    then str "That email is already registered." else errMsg in
  let errMsg :=
    if includes errMsg (str "weak-password")
    then str "Password is too weak." else errMsg in
  let errMsg :=
    if includes errMsg (str "Missing or insufficient permissions")
    then str "Access Denied: Please update Firestore Rules to allow Admins to create users."
    else errMsg in
  errMsg.



(** *** Derived data *)

(** [!t.completed && isPast(startOfDay(t.dueDate))]. *)
Definition isOverdue (t : Task.t) : bool :=
  negb (Task.completed t) && isPast now (startOfDay tza (Task.dueDate t)).

Definition joinNotification (s : UserProfile.t) : AdminNotification :=
  {| id := str "join-" ++ UserProfile.uid s;
     type := info;
     message := UserProfile.displayName s ++ str " joined the platform.";
     timestamp := UserProfile.createdAt s |}.

Definition spikeNotification (overdueCount : nat) : AdminNotification :=
  {| id := str "od-spike";
     type := warning;
     message := str "High overdue load: " ++ toString (Z.of_nat overdueCount)
                ++ str " overdue tasks system-wide.";
     timestamp := now |}.

Definition notifications (students : list UserProfile.t)
    (allTasks : list Task.t) : list AdminNotification :=
  let recentJoinThreshold := now - 86400000 in
  let list :=
    fold_left
      (fun list s =>
         if recentJoinThreshold <? UserProfile.createdAt s
         then list ++ [joinNotification s]
         else list)
      students [] in
  let overdueCount := length (List.filter isOverdue allTasks) in
  let list :=
    if (20 <? overdueCount)%nat then list ++ [spikeNotification overdueCount]
    else list in
  JsArray.sort (fun a b => timestamp b - timestamp a) list.

Definition globalStats (students : list UserProfile.t)
    (allTasks : list Task.t) : GlobalStats :=
  let totalStudents := length students in
  let totalTasks := length allTasks in
  let completedTasks := length (List.filter Task.completed allTasks) in
  let overdueTasks := length (List.filter isOverdue allTasks) in
  let completionRate :=
    if (totalTasks =? 0)%nat then 0
    else
      JsNumber.Math_round
        (JsNumber.mul
           (JsNumber.div (JsNumber.of_int (Z.of_nat completedTasks))
                         (JsNumber.of_int (Z.of_nat totalTasks)))
           (JsNumber.of_int 100)) in
  {| totalStudents := totalStudents;
     totalTasks := totalTasks;
     completedTasks := completedTasks;
     overdueTasks := overdueTasks;
     completionRate := completionRate |}.

(** *** handleExportUsers *)

Definition exportHeaders : list jsval :=
  [VStr (str "Display Name"); VStr (str "Email"); VStr (str "Role");
   VStr (str "Joined Date"); VStr (str "Total Tasks");
   VStr (str "Completed Tasks")].

Definition exportRow (allTasks : list Task.t) (s : UserProfile.t)
  : jsstring :=
  let sTasks :=
    List.filter (fun t => bool_decide (Task.userId t = UserProfile.uid s))
                allTasks in
  join (str ",")
    [VStr (UserProfile.displayName s);
     VStr (UserProfile.email s);
     VStr (UserRole_string (UserProfile.role s));
     VStr (format_yyyy_MM_dd tza (UserProfile.createdAt s));
     VNum (Z.of_nat (length sTasks));
     VNum (Z.of_nat (length (List.filter Task.completed sTasks)))].

Definition exportRows (students : list UserProfile.t)
    (allTasks : list Task.t) : list jsstring :=
  List.map (exportRow allTasks) students.

(** The text before [encodeURI]. *)
Definition csvContent (students : list UserProfile.t)
    (allTasks : list Task.t) : jsstring :=
  str "data:text/csv;charset=utf-8,"
  ++ join [10%N]
       (List.map VStr
          (join (str ",") exportHeaders :: exportRows students allTasks)).

(** *** PerformanceLineChart, the scale *)

(** [Math.max(...dataPoints.map(d => d.count), 5)]. *)
Definition maxVal (dataPoints : list DataPoint) : nat :=
  fold_right Nat.max 5%nat (List.map count dataPoints).

(** *** The activity feed *)



(** *** The student directory *)

(** [String.prototype.toLowerCase] and [String.prototype.localeCompare]
    (which answers a negative number, zero or a positive number, in the
    order of the locale): any two functions. *)
Variable toLowerCase : jsstring -> jsstring.
Variable localeCompare : jsstring -> jsstring -> Z.

(** The tasks of a student. *)
Definition tasksOf (allTasks : list Task.t) (s : UserProfile.t)
  : list Task.t :=
  List.filter (fun t => bool_decide (Task.userId t = UserProfile.uid s))
              allTasks.

(** The share of completed tasks, a double: [tasks.length ?
    completed / tasks.length : 0]. *)
Definition completionShare (tasks : list Task.t) : JsNumber.double :=
  if (length tasks =? 0)%nat then JsNumber.of_int 0
  else
    JsNumber.div
      (JsNumber.of_int (Z.of_nat (length (List.filter Task.completed tasks))))
      (JsNumber.of_int (Z.of_nat (length tasks))).

(** The comparator of the directory. *)
Definition compareStudents (allTasks : list Task.t)
    (sortOption : SortOption.t) (a b : UserProfile.t) : Z :=
  let tasksA := tasksOf allTasks a in
  let tasksB := tasksOf allTasks b in
  match sortOption with
  | SortOption.consistency =>
      Z.of_nat (length (List.filter Task.completed tasksB))
      - Z.of_nat (length (List.filter Task.completed tasksA))
  | SortOption.overdue =>
      Z.of_nat (length (List.filter isOverdue tasksB))
      - Z.of_nat (length (List.filter isOverdue tasksA))
  | SortOption.completion =>
      let rateA := completionShare tasksA in
      let rateB := completionShare tasksB in
      JsNumber.sub_sign rateB rateA
  | SortOption.name =>
      localeCompare (UserProfile.displayName a) (UserProfile.displayName b)
  end.

Definition sortedStudents (students : list UserProfile.t)
    (allTasks : list Task.t) (searchQuery : jsstring)
    (sortOption : SortOption.t) : list UserProfile.t :=
  let sorted := students in
  let sorted :=
    if truthy searchQuery then
      let q := toLowerCase searchQuery in
      List.filter
        (fun s => includes (toLowerCase (UserProfile.displayName s)) q
                  || includes (toLowerCase (UserProfile.email s)) q)
        sorted
    else sorted in
  JsArray.sort (compareStudents allTasks sortOption) sorted.

(** [sortedStudents.slice(0, visibleStudentCount)]. *)
Definition visibleStudents (sortedStudents : list UserProfile.t)
    (visibleStudentCount : Z) : list UserProfile.t :=
  JsArray.slice 0 visibleStudentCount sortedStudents.

(** The click on Load More. *)
Definition loadMore (visibleStudentCount : Z) : Z := visibleStudentCount + 10.

(** The count written on the Load More button, and whether the button is
    there. *)
Definition remainingStudents (sortedStudents : list UserProfile.t)
    (visibleStudentCount : Z) : Z :=
  Z.of_nat (length sortedStudents)
  - Z.of_nat (length (visibleStudents sortedStudents visibleStudentCount)).

Definition loadMoreShown (sortedStudents : list UserProfile.t)
    (visibleStudentCount : Z) : bool :=
  (length (visibleStudents sortedStudents visibleStudentCount)
   <? length sortedStudents)%nat.

(** [handleStudentSelect]: the value given to [setStudentTasks]. *)
Definition handleStudentSelect (allTasks : list Task.t)
    (student : UserProfile.t) : list Task.t :=
  JsArray.sort (fun a b => Task.createdAt b - Task.createdAt a)
    (List.filter
       (fun t => bool_decide (Task.userId t = UserProfile.uid student))
       allTasks).

(** The tasks listed under Recent Tasks: [studentTasks.slice(0, 5)]. *)
Definition recentTasks (studentTasks : list Task.t) : list Task.t :=
  JsArray.slice0 5 studentTasks.

(** *** The task explorer *)

Definition filteredGlobalTasks (allTasks : list Task.t)
    (taskSearchQuery : jsstring) (taskFilterStatus : TaskFilterStatus.t)
  : list Task.t :=
  let res := allTasks in
  let res :=
    if truthy taskSearchQuery then
      List.filter
        (fun t => includes (toLowerCase (Task.title t))
                           (toLowerCase taskSearchQuery))
        res
    else res in
  let res :=
    match taskFilterStatus with
    | TaskFilterStatus.all => res
    | TaskFilterStatus.completed => List.filter Task.completed res
    | TaskFilterStatus.pending =>
        List.filter
          (fun t => negb (Task.completed t)
                    && negb (isPast now (startOfDay tza (Task.dueDate t))))
          res
    | TaskFilterStatus.overdue =>
        List.filter
          (fun t => negb (Task.completed t)
                    && isPast now (startOfDay tza (Task.dueDate t)))
          res
    end in
  JsArray.sort (fun a b => Task.createdAt b - Task.createdAt a) res.

Definition tasksPerPage : Z := 10.

Definition paginatedTasks (filteredGlobalTasks : list Task.t) (taskPage : Z)
  : list Task.t :=
  let indexOfLast := taskPage * tasksPerPage in
  let indexOfFirst := indexOfLast - tasksPerPage in
  JsArray.slice indexOfFirst indexOfLast filteredGlobalTasks.

(** [Math.ceil(filteredGlobalTasks.length / tasksPerPage)]. *)
Definition totalTaskPages (filteredGlobalTasks : list Task.t) : Z :=
  JsNumber.Math_ceil
    (JsNumber.div (JsNumber.of_int (Z.of_nat (length filteredGlobalTasks)))
                  (JsNumber.of_int tasksPerPage)).

(** The two page buttons: the next value of [taskPage], and whether the
    button is disabled. *)
Definition previousPage (taskPage : Z) : Z := Z.max 1 (taskPage - 1).

Definition previousDisabled (taskPage : Z) : bool := taskPage =? 1.

Definition nextPage (totalTaskPages taskPage : Z) : Z :=
  Z.min totalTaskPages (taskPage + 1).

Definition nextDisabled (totalTaskPages taskPage : Z) : bool :=
  (taskPage =? totalTaskPages) || (totalTaskPages =? 0).

(** The two numbers of "Showing a - b of n tasks". *)
Definition showingFrom (filteredGlobalTasks : list Task.t) (taskPage : Z)
  : Z :=
  Z.min (Z.of_nat (length filteredGlobalTasks))
        ((taskPage - 1) * tasksPerPage + 1).

Definition showingTo (filteredGlobalTasks : list Task.t) (taskPage : Z) : Z :=
  Z.min (Z.of_nat (length filteredGlobalTasks)) (taskPage * tasksPerPage).

(** A row of the table, its cells from left to right: the title, the
    student ([student?.photoURL] and [student?.displayName || 'Unknown']),
    the due date and the status.  [format] throws a [RangeError] on a due
    date that is not a date, and the row is not rendered: [None]. *)
Definition taskRow (students : list UserProfile.t) (task : Task.t)
  : option TaskRow :=
  let student :=
    JsArray.find
      (fun s => bool_decide (UserProfile.uid s = Task.userId task)) students in
  let photo :=
    match student with
    | Some s => Some (UserProfile.photoURL s)
    | None => None
    end in
  let name :=
    match student with
    | Some s =>
        if truthy (UserProfile.displayName s) then UserProfile.displayName s
        else str "Unknown"
    | None => str "Unknown"
    end in
  match format (format_MMM_d_yyyy tza) (Task.dueDate task) with
  | None => None
  | Some due =>
      Some {| rowTitle := Task.title task;
              rowPhoto := photo;
              rowStudent := name;
              rowDueDate := due;
              rowStatus :=
                if Task.completed task then str "Completed"
                else if isPast now (startOfDay tza (Task.dueDate task))
                     then str "Overdue"
                     else str "Pending" |}
  end.

(** The rows of a page of the table, [paginatedTasks.map(...)]: a row that
    throws leaves no table. *)
Fixpoint taskRows (students : list UserProfile.t)
    (paginatedTasks : list Task.t) : option (list TaskRow) :=
  match paginatedTasks with
  | [] => Some []
  | task :: rest =>
      match taskRow students task with
      | None => None
      | Some row =>
          match taskRows students rest with
          | None => None
          | Some rows => Some (row :: rows)
          end
      end
  end.

End Dashboard.
End Admin.

(** * Part II: the vocabulary of the statements *)

(** ** Days *)

(** The local calendar day an instant falls on, counted from the epoch. *)
Definition localDay (tza t : Z) : Z := Day (LocalTime tza t).

(** The local midnight that opens day [k]. *)
Definition midnightOf (tza k : Z) : Z := UTC tza (MakeDate k 0).

(** An instant that a [Date] can hold. *)
Definition in_range (t : Z) : bool :=
  (-8640000000000000 <=? t) && (t <=? 8640000000000000).


(** The local day a due date falls on: the day of a number (not [NaN]) that
    a [Date] can hold, when a [Date] can hold the first instant of that
    local day too.  Any other due date falls on no day. *)
Definition dueDay (tza : Z) (dueDate : timeval) : option Z :=
  match dueDate with
  | Ms d =>
      if in_range d && in_range (midnightOf tza (localDay tza d))
      then Some (localDay tza d)
      else None
  | NaN => None
  end.

(** Where a due date lies with respect to the day of [now]; a due date that
    falls on no day lies nowhere. *)
Definition due_before (tza now : Z) (t : Task.t) : bool :=
  match dueDay tza (Task.dueDate t) with
  | Some k => k <? localDay tza now
  | None => false
  end.

Definition due_on (tza now : Z) (t : Task.t) : bool :=
  match dueDay tza (Task.dueDate t) with
  | Some k => k =? localDay tza now
  | None => false
  end.

Definition due_after (tza now : Z) (t : Task.t) : bool :=
  match dueDay tza (Task.dueDate t) with
  | Some k => localDay tza now <? k
  | None => false
  end.

(** The overdue count as the specification words it: the open tasks due
    before the current day. *)
Definition overdueBeforeToday (tza now : Z) (tasks : list Task.t) : nat :=
  length
    (List.filter (fun t => negb (Task.completed t) && due_before tza now t)
       tasks).

(** ** Order *)

(** The order a comparator that subtracts keys sorts by. *)
Definition key_le {A : Type} (key : A -> Z) (a b : A) : Prop :=
  key a <= key b.

(** The preview as the specification words it: the completed tasks, newest
    first by creation time, cut at ten. *)
Definition newestFirstPreview (fetchedTasks : list Task.t) : list Task.t :=
  firstn 10
    (JsArray.sort (fun a b => Task.createdAt b - Task.createdAt a)
       (List.filter Task.completed fetchedTasks)).

(** ** Notifications *)

Definition is_info (n : Admin.AdminNotification) : bool :=
  match Admin.type n with Admin.info => true | _ => false end.

Definition is_warning (n : Admin.AdminNotification) : bool :=
  match Admin.type n with Admin.warning => true | _ => false end.

(** A student whose account is less than 24 hours old at [now]. *)
Definition joinedInLast24h (now : Z) (s : UserProfile.t) : bool :=
  now - UserProfile.createdAt s <? 86400000.

(** The notification list before it is sorted. *)
Definition unsortedNotifications (tza now : Z)
    (students : list UserProfile.t) (allTasks : list Task.t)
  : list Admin.AdminNotification :=
  List.map Admin.joinNotification
    (List.filter (joinedInLast24h now) students)
  ++ (if (20 <? length (List.filter (Admin.isOverdue tza now) allTasks))%nat
      then [Admin.spikeNotification now
              (length (List.filter (Admin.isOverdue tza now) allTasks))]
      else []).

(** ** The export *)

(** The tasks of a student and the completed ones among them. *)
Definition taskCount (allTasks : list Task.t) (s : UserProfile.t) : nat :=
  length
    (List.filter (fun t => bool_decide (Task.userId t = UserProfile.uid s))
       allTasks).

Definition completedTaskCount (allTasks : list Task.t) (s : UserProfile.t)
  : nat :=
  length
    (List.filter
       (fun t => bool_decide (Task.userId t = UserProfile.uid s)
                 && Task.completed t)
       allTasks).

(** ** Completion *)

(** [completedAt] is set, to a number, exactly when [completed] is true. *)
Definition completion_consistent (d : Task.t) : Prop :=
  (exists n, Task.completedAt d = Num n) <-> Task.completed d = true.

Definition store_consistent (s : store) : Prop :=
  forall i d, s !! i = Some d -> completion_consistent d.

(** ** Rates *)

(** The rate as the specification words it: the exact quotient, rounded to
    the nearest integer (a tie going up). *)
Definition exactRate (tasks : list Task.t) : Z :=
  let c := Z.of_nat (Student.completedCount tasks) in
  let n := Z.of_nat (length tasks) in
  if n =? 0 then 0 else (200 * c + n) / (2 * n).

(** The exact percentage is a whole number and a half, the one case where
    rounding it has to break a tie. *)
Definition exactHalf (tasks : list Task.t) : Prop :=
  let c := Z.of_nat (Student.completedCount tasks) in
  let n := Z.of_nat (length tasks) in
  n <> 0 /\ (200 * c + n) mod (2 * n) = 0.

(** A double that is at most the integer [B], with no positive exponent. *)
Definition at_most (B : Z) (x : JsNumber.double) : Prop :=
  JsNumber.expo x <= 0
  /\ 0 <= JsNumber.mant x <= B * 2 ^ (- JsNumber.expo x).

(** The same percentage with the binary64 operations of the Standard
    Library's specification of IEEE 754 arithmetic. *)
Definition ieee_of_int (n : Z) : spec_float :=
  binary_normalize 53 1024 n 0 false.

Definition ieee_percentage (c n : Z) : spec_float :=
  SFmul 53 1024 (SFdiv 53 1024 (ieee_of_int c) (ieee_of_int n))
        (ieee_of_int 100).

(** A double of the model and a binary64 number with the same value. *)
Definition same_double (x : JsNumber.double) (f : spec_float) : bool :=
  match f with
  | S754_zero _ => JsNumber.mant x =? 0
  | S754_finite false m e =>
      let k := Z.min (JsNumber.expo x) e in
      JsNumber.mant x * 2 ^ (JsNumber.expo x - k) =? Z.pos m * 2 ^ (e - k)
  | _ => false
  end.

(** The percentages of every [c] out of every [n] up to [bound], compared. *)
Definition percentages_agree (bound : nat) : bool :=
  List.forallb
    (fun n =>
       List.forallb
         (fun c =>
            same_double
              (JsNumber.mul
                 (JsNumber.div (JsNumber.of_int (Z.of_nat c))
                               (JsNumber.of_int (Z.of_nat n)))
                 (JsNumber.of_int 100))
              (ieee_percentage (Z.of_nat c) (Z.of_nat n)))
         (seq 0 (S n)))
    (seq 1 bound).

(** ** Histories of the task collection *)

(** A call of one of the four handlers of the student dashboard, with all
    that it reads. *)
Inductive action :=
| AddTask (user : option jsstring) (newTaskTitle newTaskDate : jsstring)
    (now : Z) (newId : jsstring) (fault : bool)
| ToggleTask (task : Task.t) (now : Z) (fault : bool)
| UpdateTask (taskToEdit : option Task.t) (editTitle editDate : jsstring)
    (fault : bool)
| DeleteTask (taskToDelete : option jsstring) (fault : option jsstring).

(** The collection after the call. *)
Definition perform (tza : Z) (parseISO : jsstring -> timeval) (s : store)
    (a : action) : store :=
  match a with
  | AddTask user newTaskTitle newTaskDate now newId fault =>
      snd (Student.handleAddTask tza parseISO user newTaskTitle newTaskDate
             now newId fault s)
  | ToggleTask task now fault => snd (Student.toggleTask task now fault s)
  | UpdateTask taskToEdit editTitle editDate fault =>
      snd (Student.handleUpdateTask tza parseISO taskToEdit editTitle
             editDate fault s)
  | DeleteTask taskToDelete fault =>
      snd (fst (Student.handleDeleteTask taskToDelete fault s))
  end.

(** The collection after a sequence of calls, from the empty collection. *)
Definition history (tza : Z) (parseISO : jsstring -> timeval)
    (actions : list action) : store :=
  fold_left (perform tza parseISO) actions ∅.

(** A title with a character in it and no white space at either end. *)
Definition title_trimmed (d : Task.t) : Prop :=
  Task.title d <> []
  /\ trim (Task.title d) = Task.title d
  /\ (forall c, head (Task.title d) = Some c -> is_space c = false)
  /\ (forall c, last (Task.title d) = Some c -> is_space c = false).

(** ** Date strings *)

(** The integers from [start], [n] of them. *)
Fixpoint zseq (start : Z) (n : nat) : list Z :=
  match n with
  | O => []
  | S n' => start :: zseq (start + 1) n'
  end.

(** [width] decimal digits of [n], the most significant first. *)
Fixpoint decimal (width : nat) (n : Z) : jsstring :=
  match width with
  | O => []
  | S w => decimal w (n / 10) ++ [Z.to_N (48 + n mod 10)]
  end.

(** [padStart0] of [toString] and [decimal], compared on every number from
    0 up to [bound], [bound] left out. *)
Definition decimal_agrees (width : nat) (bound : Z) : bool :=
  forallb
    (fun k => bool_decide (padStart0 width (toString k) = decimal width k))
    (zseq 0 (Z.to_nat bound)).

(** Whether the calendar date [(y1, m1, d1)] is before [(y2, m2, d2)]. *)
Definition date_before (y1 m1 d1 y2 m2 d2 : Z) : bool :=
  (y1 <? y2) || (y1 =? y2) && ((m1 <? m2) || (m1 =? m2) && (d1 <? d2)).

(** ** The chart *)

(** The task was completed, at an instant of a local day from [first] to
    [last]. *)
Definition completedWithin (tza first last : Z) (t : Task.t) : bool :=
  Task.completed t
  && match Task.completedAt t with
     | Num c =>
         negb (c =? 0) && (first <=? localDay tza c) && (localDay tza c <=? last)
     | Null | Missing => false
     end.

(** The task was completed, at an instant of the local calendar month of
    [now]. *)
Definition completedThisMonth (tza now : Z) (t : Task.t) : bool :=
  Task.completed t
  && match Task.completedAt t with
     | Num c =>
         negb (c =? 0)
         && (Date_getFullYear tza c =? Date_getFullYear tza now)
         && (Date_getMonth tza c =? Date_getMonth tza now)
     | Null | Missing => false
     end.

(** The name of a day of the week, 0 being Sunday. *)
Definition weekdayName (w : Z) : jsstring :=
  match w with
  | 0 => str "Sun"
  | 1 => str "Mon"
  | 2 => str "Tue"
  | 3 => str "Wed"
  | 4 => str "Thu"
  | 5 => str "Fri"
  | _ => str "Sat"
  end.

(** ** The directory *)




(** ** Text *)

(** The number of commas in a string. *)
Definition commas (s : jsstring) : nat :=
  length (List.filter (N.eqb 44) s).

(** The number of at signs in a string. *)
Definition atSigns (s : jsstring) : nat := length (List.filter (N.eqb 64) s).

(** The strings a pattern describes. *)
Inductive described : JsRegExp.regex -> jsstring -> Prop :=
| d_eps : described JsRegExp.Eps []
| d_class p c : p c = true -> described (JsRegExp.Class p) [c]
| d_seq r s u v :
    described r u -> described s v -> described (JsRegExp.Seq r s) (u ++ v)
| d_alt_l r s u : described r u -> described (JsRegExp.Alt r s) u
| d_alt_r r s u : described s u -> described (JsRegExp.Alt r s) u
| d_star_nil r : described (JsRegExp.Star r) []
| d_star_app r u v :
    described r u -> described (JsRegExp.Star r) v ->
    described (JsRegExp.Star r) (u ++ v).

(** A part of an address: code units that are neither white space nor the
    at sign, one at least. *)
Definition addressPart (s : jsstring) : Prop :=
  s <> [] /\ forall c, In c s -> is_space c = false /\ c <> 64%N.


(** ** Worked inputs

    The zone is UTC and the clock reads 2026-11-02, 12:00. *)

Definition noon : Z := 1793620800000.
Definition midnight : Z := 1793577600000.
Definition dayLength : Z := 86400000.

Definition sampleTask (id : string) (dueDate : timeval) (completed : bool)
    (createdAt : Z) : Task.t :=
  Task.mk (str id) (str "u1") (str "Read chapter 4") None dueDate completed
          (if completed then Num createdAt else Missing) createdAt.

(** The four tasks of the example of the specification: due yesterday,
    today and tomorrow and open, and due yesterday and completed. *)
Definition fourTasks : list Task.t :=
  [sampleTask "t1" (Ms (midnight - dayLength)) false 1;
   sampleTask "t2" (Ms midnight) false 2;
   sampleTask "t3" (Ms (midnight + dayLength)) false 3;
   sampleTask "t4" (Ms (midnight - dayLength)) true 4].

(** An open task whose due date is not a date. *)
Definition undatedTask : Task.t := sampleTask "t5" NaN false 5.

(** Two completed tasks, the older one first. *)
Definition twoCompleted : list Task.t :=
  [sampleTask "t6" (Ms midnight) true 6; sampleTask "t7" (Ms midnight) true 7].

(** Forty tasks, twenty-three of them completed. *)
Definition fortyTasks : list Task.t :=
  repeat (sampleTask "t8" (Ms midnight) true 8) 23
  ++ repeat (sampleTask "t9" (Ms midnight) false 9) 17.

(** Twenty-one open tasks due on the current day. *)
Definition dueTodayTasks : list Task.t :=
  repeat (sampleTask "t2" (Ms midnight) false 2) 21.

Definition ann : UserProfile.t :=
  UserProfile.mk (str "u1") (str "a@x.com") (str "Ann") (str "") STUDENT None
                 (noon - 1000).

(** The task that adding " Read " for 2026-11-02 stores, and the call that
    adds it. *)
Definition readTask : Task.t :=
  Task.mk (str "t1") (str "u1") (str "Read") None (Ms midnight) false Missing
          noon.

Definition addRead : action :=
  AddTask (Some (str "u1")) (str " Read ") (str "2026-11-02") noon (str "t1")
          false.

(** * Part III: properties *)

(** ** The calendar *)

Lemma MonthFromTime_range (t : Z) : 0 <= MonthFromTime t <= 11.
Proof.
  unfold MonthFromTime.
  repeat match goal with |- context [if ?b then _ else _] => destruct b end;
    lia.
Qed.

(** [MakeDay] undoes the decomposition of a day into year, month and date. *)
Lemma MakeDay_of_time (t k : Z) :
  MakeDay (YearFromTime t) (MonthFromTime t) (DateFromTime t + k) = Day t + k.
Proof.
  pose proof (MonthFromTime_range t) as Hm.
  unfold MakeDay, DateFromTime, DayWithinYear, InLeapYear.
  rewrite (Z.div_small (MonthFromTime t) 12), (Z.mod_small (MonthFromTime t) 12)
    by lia.
  rewrite Z.add_0_r. lia.
Qed.

Lemma Day_MakeDate (d r : Z) : 0 <= r < msPerDay -> Day (MakeDate d r) = d.
Proof.
  intros Hr. unfold Day, MakeDate.
  rewrite Z.add_comm, Z.div_add by (unfold msPerDay; lia).
  rewrite Z.div_small by exact Hr. reflexivity.
Qed.

Lemma TimeWithinDay_range (t : Z) : 0 <= TimeWithinDay t < msPerDay.
Proof. apply Z.mod_pos_bound. reflexivity. Qed.

Lemma DayFromYear_succ (y : Z) :
  DayFromYear (y + 1) = DayFromYear y + DaysInYear y.
Proof.
  unfold DayFromYear, DaysInYear.
  destruct (Z.eqb_spec (y mod 4) 0), (Z.eqb_spec (y mod 100) 0),
    (Z.eqb_spec (y mod 400) 0); cbn [negb];
    Z.to_euclidean_division_equations; lia.
Qed.

(** The estimate of the year from the mean year length is off by one at
    most. *)
Lemma DayFromYear_estimate (d : Z) :
  DayFromYear (1970 + 400 * d / 146097 - 1) <= d
  < DayFromYear (1970 + 400 * d / 146097 + 2).
Proof.
  unfold DayFromYear. Z.to_euclidean_division_equations. lia.
Qed.

(** [YearFromTime] is the year the language specification asks for: the
    one whose first day is the last not after the day of [t]. *)
Lemma YearFromTime_spec (t : Z) :
  DayFromYear (YearFromTime t) <= Day t < DayFromYear (YearFromTime t + 1).
Proof.
  unfold YearFromTime.
  pose proof (DayFromYear_estimate (Day t)) as H.
  set (y := 1970 + 400 * Day t / 146097) in *.
  destruct (Z.ltb_spec (Day t) (DayFromYear y)).
  - replace (y - 1 + 1) with y by lia. lia.
  - destruct (Z.leb_spec (DayFromYear (y + 1)) (Day t)).
    + replace (y + 1 + 1) with (y + 2) by lia. lia.
    + lia.
Qed.

Lemma DayWithinYear_range (t : Z) :
  0 <= DayWithinYear t < DaysInYear (YearFromTime t).
Proof.
  pose proof (YearFromTime_spec t) as H.
  rewrite DayFromYear_succ in H. unfold DayWithinYear. lia.
Qed.

(** The date of the month is a day of that month. *)
Lemma DateFromTime_range (t : Z) :
  1 <= DateFromTime t <= DaysInMonth (YearFromTime t) (MonthFromTime t).
Proof.
  pose proof (DayWithinYear_range t) as H.
  assert (Hy : DaysInYear (YearFromTime t) = 365
               \/ DaysInYear (YearFromTime t) = 366).
  { unfold DaysInYear.
    repeat match goal with |- context [if ?b then _ else _] => destruct b end;
      auto. }
  unfold DateFromTime, MonthFromTime, InLeapYear, DaysInMonth.
  destruct Hy as [Hy|Hy]; rewrite Hy in *.
  - change (365 =? 366) with false. cbv iota.
    repeat match goal with
      | |- context [if ?a <? ?b then _ else _] => destruct (Z.ltb_spec a b)
      end; cbn [monthStart]; lia.
  - change (366 =? 366) with true. cbv iota.
    repeat match goal with
      | |- context [if ?a <? ?b then _ else _] => destruct (Z.ltb_spec a b)
      end; cbn [monthStart]; lia.
Qed.

Section LocalTimeFacts.

Variable tza : Z.

Lemma LocalTime_UTC (t : Z) : LocalTime tza (UTC tza t) = t.
Proof. unfold LocalTime, UTC. lia. Qed.

(** One turn of the loop lands on the midnight that opens the next day. *)
Lemma nextDay_spec (cur : Z) :
  nextDay tza cur = UTC tza (MakeDate (Day (LocalTime tza cur) + 1) 0).
Proof.
  unfold nextDay, Date_setHours, Date_setDate, Date_getDate.
  rewrite LocalTime_UTC, MakeDay_of_time.
  rewrite Day_MakeDate by apply TimeWithinDay_range.
  reflexivity.
Qed.

End LocalTimeFacts.

(** ** Local days *)

Section Days.

Variable tza : Z.

Lemma startOfDay_ms_spec (t : Z) :
  startOfDay_ms tza t = UTC tza (MakeDate (localDay tza t) 0).
Proof. reflexivity. Qed.

Lemma localDay_midnight (d : Z) : localDay tza (UTC tza (MakeDate d 0)) = d.
Proof.
  unfold localDay. rewrite LocalTime_UTC.
  apply Day_MakeDate. unfold msPerDay. lia.
Qed.

Lemma midnight_le (d t : Z) :
  UTC tza (MakeDate d 0) <= t <-> d <= localDay tza t.
Proof.
  unfold UTC, MakeDate, localDay, Day, LocalTime, msPerDay.
  pose proof (Z.div_mod (t + tza) 86400000).
  pose proof (Z.mod_pos_bound (t + tza) 86400000). lia.
Qed.

Lemma TimeClip_in_range (t : Z) :
  TimeClip t = if in_range t then Ms t else NaN.
Proof.
  unfold TimeClip, in_range.
  destruct (Z.leb_spec (Z.abs t) 8640000000000000),
    (Z.leb_spec (-8640000000000000) t), (Z.leb_spec t 8640000000000000);
    cbn; try reflexivity; lia.
Qed.

(** The start of the day of a due date that falls on a day is the midnight
    that opens the day; of any other due date it is the Invalid Date. *)
Lemma startOfDay_dueDay (d : timeval) :
  startOfDay tza d
  = match dueDay tza d with
    | Some k => Ms (midnightOf tza k)
    | None => NaN
    end.
Proof.
  unfold startOfDay, on_valid, toDate, dueDay.
  destruct d as [|t]; [reflexivity|].
  rewrite TimeClip_in_range. destruct (in_range t); [|reflexivity].
  rewrite TimeClip_in_range, startOfDay_ms_spec. fold (midnightOf tza (localDay tza t)).
  cbn [andb]. destruct (in_range _); reflexivity.
Qed.

(** [toDate] leaves the start of a day as it is. *)
Lemma toDate_startOfDay (d : timeval) :
  toDate (startOfDay tza d) = startOfDay tza d.
Proof.
  unfold startOfDay, on_valid.
  destruct (toDate d) as [|t]; [reflexivity|].
  unfold TimeClip.
  destruct (Z.leb_spec (Z.abs (startOfDay_ms tza t)) 8640000000000000) as [H|H];
    [|reflexivity].
  cbn [toDate]. unfold TimeClip.
  destruct (Z.leb_spec (Z.abs (startOfDay_ms tza t)) 8640000000000000);
    [reflexivity | lia].
Qed.

Lemma dueDay_Some (d : timeval) (k : Z) :
  dueDay tza d = Some k ->
  exists t,
    d = Ms t /\ in_range t = true /\ in_range (midnightOf tza k) = true
    /\ k = localDay tza t.
Proof.
  unfold dueDay. destruct d as [|t]; [discriminate|].
  destruct (in_range t) eqn:E1; [|discriminate].
  destruct (in_range (midnightOf tza (localDay tza t))) eqn:E2;
    [|discriminate].
  intros [= <-]. exists t. auto.
Qed.

Lemma dueDay_midnight (k : Z) :
  in_range (midnightOf tza k) = true -> dueDay tza (Ms (midnightOf tza k)) = Some k.
Proof.
  intros H. unfold dueDay.
  assert (E : localDay tza (midnightOf tza k) = k) by apply localDay_midnight.
  rewrite E, H. reflexivity.
Qed.

Lemma startOfDay_Ms (d : timeval) (m : Z) :
  startOfDay tza d = Ms m ->
  exists k, dueDay tza d = Some k /\ m = midnightOf tza k.
Proof.
  rewrite startOfDay_dueDay.
  destruct (dueDay tza d) as [k|]; [|discriminate].
  intros [= <-]. exists k. auto.
Qed.

(** The start of a day is the start of its own day. *)
Lemma startOfDay_idem (d : timeval) :
  startOfDay tza (startOfDay tza d) = startOfDay tza d.
Proof.
  rewrite (startOfDay_dueDay d).
  destruct (dueDay tza d) as [k|] eqn:E; [|reflexivity].
  apply dueDay_Some in E. destruct E as (t & _ & _ & Hk & _).
  rewrite startOfDay_dueDay, (dueDay_midnight k Hk). reflexivity.
Qed.

Lemma startOfDay_midnight (d : timeval) (m : Z) :
  startOfDay tza d = Ms m ->
  TimeWithinDay (LocalTime tza m) = 0 /\ startOfDay_ms tza m = m.
Proof.
  intros H. apply startOfDay_Ms in H. destruct H as (k & _ & ->).
  unfold midnightOf. rewrite startOfDay_ms_spec, localDay_midnight.
  split; [|reflexivity].
  rewrite LocalTime_UTC. unfold TimeWithinDay, MakeDate.
  rewrite Z.add_0_r. apply Z.mod_mul. unfold msPerDay. lia.
Qed.

Lemma isToday_dueDay (now : Z) (d : timeval) :
  isToday tza now d
  = match dueDay tza d with
    | Some k => k =? localDay tza now
    | None => false
    end.
Proof.
  unfold isToday. rewrite startOfDay_dueDay.
  destruct (dueDay tza d) as [k|]; [|reflexivity].
  cbn [strict_eq]. rewrite startOfDay_ms_spec.
  unfold midnightOf, UTC, MakeDate, msPerDay.
  destruct (Z.eqb_spec k (localDay tza now)) as [->|Hne].
  - apply Z.eqb_refl.
  - apply Z.eqb_neq. lia.
Qed.

Lemma isPast_startOfDay (now : Z) (d : timeval) :
  isPast now (startOfDay tza d) && negb (isToday tza now d)
  = match dueDay tza d with
    | Some k => k <? localDay tza now
    | None => false
    end.
Proof.
  rewrite isToday_dueDay. unfold isPast. rewrite toDate_startOfDay.
  rewrite startOfDay_dueDay.
  destruct (dueDay tza d) as [k|]; [|reflexivity].
  pose proof (midnight_le k now) as Hle.
  pose proof (midnight_le (localDay tza now) now) as Hnow.
  pose proof (midnight_le (localDay tza now + 1) now) as Hnext.
  unfold midnightOf, UTC, MakeDate, msPerDay in *.
  destruct (Z.ltb_spec (k * 86400000 + 0 - tza) now),
    (Z.eqb_spec k (localDay tza now)),
    (Z.ltb_spec k (localDay tza now)); cbn; try reflexivity; lia.
Qed.

Lemma isFuture_startOfDay (now : Z) (d : timeval) :
  isFuture now (startOfDay tza d) && negb (isToday tza now d)
  = match dueDay tza d with
    | Some k => localDay tza now <? k
    | None => false
    end.
Proof.
  rewrite isToday_dueDay. unfold isFuture. rewrite toDate_startOfDay.
  rewrite startOfDay_dueDay.
  destruct (dueDay tza d) as [k|]; [|reflexivity].
  pose proof (midnight_le k now) as Hle.
  pose proof (midnight_le (localDay tza now + 1) now) as Hnext.
  unfold midnightOf, UTC, MakeDate, msPerDay in *.
  destruct (Z.ltb_spec now (k * 86400000 + 0 - tza)),
    (Z.eqb_spec k (localDay tza now)),
    (Z.ltb_spec (localDay tza now) k); cbn; try reflexivity; lia.
Qed.

(** The admin dashboard's test, without [isToday]: the day of the due date
    is before the current day, or it is the current day and has begun. *)
Lemma isPast_startOfDay_admin (now : Z) (d : timeval) :
  isPast now (startOfDay tza d)
  = match dueDay tza d with
    | Some k =>
        (k <? localDay tza now)
        || (k =? localDay tza now) && (startOfDay_ms tza now <? now)
    | None => false
    end.
Proof.
  unfold isPast. rewrite toDate_startOfDay, startOfDay_dueDay.
  destruct (dueDay tza d) as [k|]; [|reflexivity].
  rewrite startOfDay_ms_spec.
  pose proof (midnight_le k now) as Hle.
  pose proof (midnight_le (localDay tza now) now) as Hnow.
  pose proof (midnight_le (localDay tza now + 1) now) as Hnext.
  unfold midnightOf, UTC, MakeDate, msPerDay in *.
  destruct (Z.ltb_spec (k * 86400000 + 0 - tza) now),
    (Z.eqb_spec k (localDay tza now)),
    (Z.ltb_spec k (localDay tza now)),
    (Z.ltb_spec (localDay tza now * 86400000 + 0 - tza) now);
    cbn; try reflexivity; lia.
Qed.

End Days.

(** ** The four columns of the student dashboard *)

Section Buckets.

Variables tza now : Z.


Lemma todayTasks_due_on (tasks : list Task.t) :
  Student.todayTasks tza now tasks
  = List.filter (fun t => negb (Task.completed t) && due_on tza now t) tasks.
Proof.
  apply filter_ext. intros t. unfold due_on.
  rewrite isToday_dueDay. apply andb_comm.
Qed.

Lemma overdueTasks_due_before (tasks : list Task.t) :
  Student.overdueTasks tza now tasks
  = List.filter (fun t => negb (Task.completed t) && due_before tza now t)
                tasks.
Proof.
  apply filter_ext. intros t. unfold due_before.
  rewrite isPast_startOfDay. apply andb_comm.
Qed.

Lemma upcomingTasks_due_after (tasks : list Task.t) :
  Student.upcomingTasks tza now tasks
  = List.filter (fun t => negb (Task.completed t) && due_after tza now t)
                tasks.
Proof.
  apply filter_ext. intros t. unfold due_after.
  rewrite isFuture_startOfDay. apply andb_comm.
Qed.


Lemma due_exclusive (t : Task.t) :
  (due_before tza now t && due_on tza now t = false)
  /\ (due_before tza now t && due_after tza now t = false)
  /\ (due_on tza now t && due_after tza now t = false).
Proof.
  unfold due_before, due_on, due_after.
  destruct (dueDay tza (Task.dueDate t)) as [k|]; [|auto].
  destruct (Z.ltb_spec k (localDay tza now)),
    (Z.eqb_spec k (localDay tza now)),
    (Z.ltb_spec (localDay tza now) k); cbn; auto; lia.
Qed.

End Buckets.



(** ** Sorting with a comparator that compares keys *)

Section SortFacts.

Context {A : Type}.
Variable cmp : A -> A -> Z.
Variable key : A -> Z.
Hypothesis cmp_key : forall a b, (cmp a b <=? 0) = (key a <=? key b).

Lemma insert_perm (x : A) (l : list A) :
  Permutation (x :: l) (JsArray.insert cmp x l).
Proof.
  induction l as [|y l IH]; cbn; [reflexivity|].
  destruct (cmp x y <=? 0); [reflexivity|].
  rewrite perm_swap. constructor. exact IH.
Qed.

Lemma sort_perm (l : list A) : Permutation l (JsArray.sort cmp l).
Proof.
  induction l as [|x l IH]; cbn; [constructor|].
  rewrite <- insert_perm. constructor. exact IH.
Qed.

Lemma insert_sorted (x : A) (l : list A) :
  StronglySorted (key_le key) l ->
  StronglySorted (key_le key) (JsArray.insert cmp x l).
Proof.
  induction 1 as [|y l Hs IH Hy]; cbn.
  - repeat constructor.
  - rewrite cmp_key. destruct (Z.leb_spec (key x) (key y)) as [Hle|Hgt].
    + constructor; [constructor; assumption|].
      constructor; [exact Hle|].
      eapply List.Forall_impl; [|exact Hy].
      intros z Hz. unfold key_le in *. lia.
    + constructor; [exact IH|].
      eapply Permutation_Forall; [apply insert_perm|].
      constructor; [unfold key_le; lia | exact Hy].
Qed.

Lemma sort_sorted (l : list A) :
  StronglySorted (key_le key) (JsArray.sort cmp l).
Proof.
  induction l as [|x l IH]; cbn; [constructor|].
  apply insert_sorted, IH.
Qed.

Lemma insert_least (x : A) (l : list A) :
  Forall (key_le key x) l -> JsArray.insert cmp x l = x :: l.
Proof.
  destruct 1 as [|y l Hy _]; cbn; [reflexivity|].
  rewrite cmp_key. destruct (Z.leb_spec (key x) (key y)); [reflexivity|].
  unfold key_le in Hy. lia.
Qed.

Lemma filter_insert (p : A -> bool) (x : A) (l : list A) :
  StronglySorted (key_le key) l ->
  List.filter p (JsArray.insert cmp x l)
  = if p x then JsArray.insert cmp x (List.filter p l) else List.filter p l.
Proof.
  induction 1 as [|y l Hs IH Hy]; cbn.
  - destruct (p x); reflexivity.
  - rewrite cmp_key. destruct (Z.leb_spec (key x) (key y)) as [Hle|Hgt].
    + cbn [List.filter]. destruct (p x); [|reflexivity].
      symmetry. apply (insert_least x (List.filter p (y :: l))).
      apply List.Forall_forall. intros z Hz. apply filter_In in Hz.
      destruct Hz as [[<-|Hz] _]; [exact Hle|].
      rewrite List.Forall_forall in Hy. specialize (Hy z Hz).
      unfold key_le in *. lia.
    + cbn [List.filter]. rewrite IH.
      destruct (p y), (p x); cbn; try reflexivity.
      rewrite cmp_key.
      destruct (Z.leb_spec (key x) (key y)); [lia | reflexivity].
Qed.

(** Filtering commutes with a stable sort. *)
Lemma filter_sort (p : A -> bool) (l : list A) :
  List.filter p (JsArray.sort cmp l) = JsArray.sort cmp (List.filter p l).
Proof.
  induction l as [|x l IH]; cbn; [reflexivity|].
  rewrite filter_insert by apply sort_sorted.
  rewrite IH. destruct (p x); reflexivity.
Qed.

End SortFacts.

Lemma In_firstn_In {A : Type} (n : nat) (l : list A) (y : A) :
  In y (firstn n l) -> In y l.
Proof.
  revert n. induction l as [|x l IH]; intros [|n]; cbn; try tauto.
  intros [->|Hy]; [left; reflexivity | right; exact (IH n Hy)].
Qed.

Lemma StronglySorted_firstn {A : Type} (R : A -> A -> Prop) (n : nat)
    (l : list A) :
  StronglySorted R l -> StronglySorted R (firstn n l).
Proof.
  intros Hs. revert n.
  induction Hs as [|x l Hs IH Hx]; intros [|n]; cbn; try constructor.
  - apply IH.
  - rewrite List.Forall_forall in *. intros y Hy.
    apply Hx. exact (In_firstn_In n l y Hy).
Qed.

Lemma StronglySorted_weaken {A : Type} (R S : A -> A -> Prop) (l : list A) :
  (forall a b, R a b -> S a b) -> StronglySorted R l -> StronglySorted S l.
Proof.
  intros HRS. induction 1 as [|x l Hs IH Hx]; constructor; [exact IH|].
  eapply List.Forall_impl; [|exact Hx]. intros y. apply HRS.
Qed.

Lemma Permutation_List_filter {A : Type} (p : A -> bool) (l l' : list A) :
  Permutation l l' -> Permutation (List.filter p l) (List.filter p l').
Proof.
  induction 1 as [|x l l' _ IH|x y l|l l' l'' _ IH1 _ IH2]; cbn.
  - constructor.
  - destruct (p x); [constructor|]; exact IH.
  - destruct (p x), (p y); try reflexivity. apply perm_swap.
  - etransitivity; eassumption.
Qed.

(** ** The Completed column *)

(** C2 (as amended).  For every list of tasks delivered by the store, the
    tasks shown in the Completed column are the completed tasks in
    oldest-first order of creation (tasks created at the same instant
    keeping the order of delivery), cut at ten; in particular they are in
    ascending order of [createdAt]. *)
Theorem completed_preview_oldest_first (fetchedTasks : list Task.t) :
  Student.completedPreview (Student.onSnapshot fetchedTasks)
  = firstn 10
      (JsArray.sort (fun a b => Task.createdAt a - Task.createdAt b)
         (List.filter Task.completed fetchedTasks))
  /\ StronglySorted (fun a b => Task.createdAt a <= Task.createdAt b)
       (Student.completedPreview (Student.onSnapshot fetchedTasks)).
Proof.
  assert (Hk : forall a b : Task.t,
             (Task.createdAt a - Task.createdAt b <=? 0)
             = (Task.createdAt a <=? Task.createdAt b)).
  { intros a b.
    destruct (Z.leb_spec (Task.createdAt a - Task.createdAt b) 0),
      (Z.leb_spec (Task.createdAt a) (Task.createdAt b)); auto; lia. }
  unfold Student.completedPreview, Student.completedTasks, Student.onSnapshot,
    JsArray.slice0.
  rewrite (filter_sort _ Task.createdAt Hk).
  split; [reflexivity|].
  apply StronglySorted_firstn.
  apply (sort_sorted _ Task.createdAt Hk).
Qed.

(** ** The notification list *)

Section Notifications.

Variables tza now : Z.

Lemma push_fold {A B : Type} (c : A -> bool) (f : A -> B) (l : list A)
    (acc : list B) :
  fold_left (fun list s => if c s then list ++ [f s] else list) l acc
  = acc ++ List.map f (List.filter c l).
Proof.
  revert acc. induction l as [|x l IH]; intros acc; cbn.
  - symmetry. apply app_nil_r.
  - rewrite IH. destruct (c x); cbn; [|reflexivity].
    rewrite <- app_assoc. reflexivity.
Qed.

Lemma notifications_unfold (students : list UserProfile.t)
    (allTasks : list Task.t) :
  Admin.notifications tza now students allTasks
  = JsArray.sort (fun a b => Admin.timestamp b - Admin.timestamp a)
      (unsortedNotifications tza now students allTasks).
Proof.
  unfold Admin.notifications, unsortedNotifications.
  rewrite push_fold. cbn [app].
  assert (Hf : forall s,
             (now - 86400000 <? UserProfile.createdAt s)
             = joinedInLast24h now s).
  { intros s. unfold joinedInLast24h.
    destruct (Z.ltb_spec (now - 86400000) (UserProfile.createdAt s)),
      (Z.ltb_spec (now - UserProfile.createdAt s) 86400000); auto; lia. }
  rewrite (filter_ext _ _ Hf).
  destruct (20 <? _)%nat; [reflexivity|].
  rewrite app_nil_r. reflexivity.
Qed.

Lemma filter_info_joins (l : list UserProfile.t) :
  List.filter is_info (List.map Admin.joinNotification l)
  = List.map Admin.joinNotification l.
Proof. induction l as [|s l IH]; cbn; [|rewrite IH]; reflexivity. Qed.

Lemma filter_warning_joins (l : list UserProfile.t) :
  List.filter is_warning (List.map Admin.joinNotification l) = [].
Proof. induction l as [|s l IH]; cbn; [|rewrite IH]; reflexivity. Qed.

End Notifications.

(** What the notification list holds: one [info] entry for each student
    whose account is less than 24 hours old (creation time above [now] minus
    86400000 ms), with the uid in its id, the display name in its message
    and the creation time of the account as its timestamp; one [warning]
    entry, stamped [now], exactly when the overdue count of the global
    statistics is above 20; and nothing else.  The list is in newest-first
    order of timestamp. *)
Lemma notifications_entries (tza now : Z) (students : list UserProfile.t)
    (allTasks : list Task.t) :
  let overdueCount :=
    Admin.overdueTasks (Admin.globalStats tza now students allTasks) in
  let notes := Admin.notifications tza now students allTasks in
  Permutation (List.filter is_info notes)
    (List.map
       (fun s =>
          {| Admin.id := str "join-" ++ UserProfile.uid s;
             Admin.type := Admin.info;
             Admin.message :=
               UserProfile.displayName s ++ str " joined the platform.";
             Admin.timestamp := UserProfile.createdAt s |})
       (List.filter (joinedInLast24h now) students))
  /\ List.filter is_warning notes
     = (if (20 <? overdueCount)%nat
        then [{| Admin.id := str "od-spike";
                 Admin.type := Admin.warning;
                 Admin.message :=
                   str "High overdue load: "
                   ++ toString (Z.of_nat overdueCount)
                   ++ str " overdue tasks system-wide.";
                 Admin.timestamp := now |}]
        else [])
  /\ (forall n, In n notes ->
        Admin.type n = Admin.info \/ Admin.type n = Admin.warning)
  /\ StronglySorted (fun a b => Admin.timestamp b <= Admin.timestamp a) notes.
Proof.
  intros overdueCount notes.
  change overdueCount
    with (length (List.filter (Admin.isOverdue tza now) allTasks)) in *.
  clear overdueCount.
  set (overdueCount := length (List.filter (Admin.isOverdue tza now) allTasks)).
  change (List.map _ (List.filter (joinedInLast24h now) students))
    with (List.map Admin.joinNotification
            (List.filter (joinedInLast24h now) students)).
  change {| Admin.id := str "od-spike"; Admin.type := Admin.warning;
            Admin.message := _; Admin.timestamp := now |}
    with (Admin.spikeNotification now overdueCount).
  assert (Hk : forall a b : Admin.AdminNotification,
             (Admin.timestamp b - Admin.timestamp a <=? 0)
             = (- Admin.timestamp a <=? - Admin.timestamp b)).
  { intros a b.
    destruct (Z.leb_spec (Admin.timestamp b - Admin.timestamp a) 0),
      (Z.leb_spec (- Admin.timestamp a) (- Admin.timestamp b)); auto; lia. }
  assert (Hperm : Permutation (unsortedNotifications tza now students allTasks)
                    notes).
  { subst notes. rewrite notifications_unfold.
    apply sort_perm. }
  repeat split.
  - rewrite <- (Permutation_List_filter is_info _ _ Hperm).
    unfold unsortedNotifications. rewrite List.filter_app, filter_info_joins.
    destruct (20 <? _)%nat; cbn; rewrite app_nil_r; reflexivity.
  - pose proof (Permutation_List_filter is_warning _ _ Hperm) as Hw.
    unfold unsortedNotifications in Hw.
    rewrite List.filter_app, filter_warning_joins in Hw. cbn [app] in Hw.
    fold overdueCount in Hw.
    destruct (20 <? overdueCount)%nat.
    + change (List.filter is_warning [Admin.spikeNotification now overdueCount])
        with [Admin.spikeNotification now overdueCount] in Hw.
      apply Permutation_length_1_inv. exact Hw.
    + apply Permutation_nil. exact Hw.
  - intros n Hn.
    apply (Permutation_in _ (Permutation_sym Hperm)) in Hn.
    unfold unsortedNotifications in Hn. apply in_app_or in Hn.
    destruct Hn as [Hn|Hn].
    + apply in_map_iff in Hn. destruct Hn as (s & <- & _). left. reflexivity.
    + destruct (20 <? _)%nat; [|destruct Hn].
      destruct Hn as [<-|[]]. right. reflexivity.
  - subst notes. rewrite notifications_unfold.
    eapply StronglySorted_weaken;
      [|apply (sort_sorted _ (fun n => - Admin.timestamp n) Hk)].
    intros a b. unfold key_le. lia.
Qed.

(** ** The CSV export *)

Lemma filter_filter_andb {A : Type} (p q : A -> bool) (l : list A) :
  List.filter q (List.filter p l) = List.filter (fun x => p x && q x) l.
Proof.
  induction l as [|x l IH]; cbn; [reflexivity|].
  destruct (p x); cbn; [destruct (q x)|]; rewrite IH; reflexivity.
Qed.

(** C9.  For every list of students the export has one row per student, in
    order, and the row is the display name, the email, the role, the join
    date as [yyyy-MM-dd], the number of the student's tasks and the number
    of the completed ones, written one after the other with a comma in
    between and nothing escaped. *)
Theorem export_rows_comma_joined (tza : Z) (students : list UserProfile.t)
    (allTasks : list Task.t) :
  length (Admin.exportRows tza students allTasks) = length students
  /\ Admin.exportRows tza students allTasks
     = List.map
         (fun s =>
            UserProfile.displayName s ++ str ","
            ++ UserProfile.email s ++ str ","
            ++ UserRole_string (UserProfile.role s) ++ str ","
            ++ format_yyyy_MM_dd tza (UserProfile.createdAt s) ++ str ","
            ++ toString (Z.of_nat (taskCount allTasks s)) ++ str ","
            ++ toString (Z.of_nat (completedTaskCount allTasks s)))
         students.
Proof.
  unfold Admin.exportRows. split; [apply length_map|].
  apply map_ext. intros s.
  unfold Admin.exportRow, taskCount, completedTaskCount.
  rewrite filter_filter_andb. reflexivity.
Qed.

(** ** Toggling completion *)

Lemma set_completion_consistent (c : bool) (now : Z) (d : Task.t) :
  completion_consistent
    (Student.set_completion c (if c then Num now else Null) d).
Proof.
  unfold completion_consistent. destruct c; cbn; split; intros H.
  - reflexivity.
  - eexists. reflexivity.
  - destruct H as [x Hx]. discriminate.
  - discriminate.
Qed.

(** C4.  For every task shown and every state of the store: the write of
    [toggleTask] goes through exactly when the SDK call does not throw and
    the document is there.  It then replaces the stored document by one
    with the negated [completed] flag, with [completedAt] the current time
    if that flag is true and [null] otherwise, and with every other field
    as stored; the other documents stay as they are.  When the write does
    not go through, the store is left as it was.  Hence a store in which
    [completedAt] is set exactly on the completed tasks stays so. *)
Theorem toggleTask_completedAt_iff_completed (task : Task.t) (now : Z)
    (fault : bool) (s : store) :
  let result := Student.toggleTask task now fault s in
  (fst result = Done <-> fault = false /\ is_Some (s !! Task.id task))
  /\ (forall d, fault = false -> s !! Task.id task = Some d ->
      result
      = (Done,
         <[Task.id task :=
             Task.mk (Task.id d) (Task.userId d) (Task.title d)
               (Task.description d) (Task.dueDate d)
               (negb (Task.completed task))
               (if negb (Task.completed task) then Num now else Null)
               (Task.createdAt d)]> s))
  /\ (fst result = Done ->
      exists d',
        snd result !! Task.id task = Some d'
        /\ Task.completed d' = negb (Task.completed task)
        /\ Task.completedAt d' = (if Task.completed d' then Num now else Null)
        /\ completion_consistent d')
  /\ (fst result <> Done -> snd result = s)
  /\ (store_consistent s -> store_consistent (snd result)).
Proof.
  intros result. subst result.
  unfold Student.toggleTask, updateDoc.
  destruct fault; cbn [fst snd].
  { split; [split; [discriminate | intros [H _]; discriminate]|].
    split; [discriminate|].
    split; [discriminate | split; [reflexivity | exact (fun H => H)]]. }
  destruct (s !! Task.id task) as [d|] eqn:Hd; cbn [fst snd].
  - split; [split; [intros _; split; [reflexivity | eexists; reflexivity]
                   | reflexivity]|].
    split; [intros d0 _ [= <-]; reflexivity|].
    split; [|split].
    + intros _. eexists. rewrite lookup_insert_eq.
      split; [reflexivity|].
      cbn [Student.set_completion Task.completed Task.completedAt].
      split; [reflexivity|]. split; [reflexivity|].
      apply set_completion_consistent.
    + intros Hno. contradiction Hno. reflexivity.
    + intros Hs i d' Hi.
      destruct (decide (Task.id task = i)) as [<-|Hne].
      * rewrite lookup_insert_eq in Hi. injection Hi as <-.
        apply set_completion_consistent.
      * rewrite lookup_insert_ne in Hi by exact Hne. exact (Hs i d' Hi).
  - split; [split; [discriminate | intros [_ [x Hx]]; discriminate]|].
    split; [discriminate|].
    split; [discriminate | split; [reflexivity | exact (fun H => H)]].
Qed.

(** The other two handlers do not touch the two fields: the task that
    [handleAddTask] adds is open with no completion time, and
    [handleUpdateTask] rewrites the title and the due date only. *)
Lemma handleAddTask_keeps_consistent (tza : Z)
    (parseISO : jsstring -> timeval) (user : option jsstring)
    (newTaskTitle newTaskDate : jsstring) (now : Z) (newId : jsstring)
    (fault : bool) (s : store) :
  store_consistent s ->
  store_consistent
    (snd (Student.handleAddTask tza parseISO user newTaskTitle newTaskDate
            now newId fault s)).
Proof.
  intros Hs. unfold Student.handleAddTask.
  destruct user; [|exact Hs].
  destruct (negb (truthy (trim newTaskTitle))); [exact Hs|].
  destruct (js_lt newTaskDate _); [exact Hs|].
  destruct fault; [exact Hs|]. cbn [snd]. unfold addDoc.
  intros i d Hi. destruct (decide (newId = i)) as [<-|Hne].
  - rewrite lookup_insert_eq in Hi. injection Hi as <-.
    split; [intros [x Hx]; discriminate | discriminate].
  - rewrite lookup_insert_ne in Hi by exact Hne. exact (Hs i d Hi).
Qed.

Lemma handleUpdateTask_keeps_consistent (tza : Z)
    (parseISO : jsstring -> timeval) (taskToEdit : option Task.t)
    (editTitle editDate : jsstring) (fault : bool) (s : store) :
  store_consistent s ->
  store_consistent
    (snd (Student.handleUpdateTask tza parseISO taskToEdit editTitle editDate
            fault s)).
Proof.
  intros Hs. unfold Student.handleUpdateTask, updateDoc.
  destruct taskToEdit as [task|]; [|exact Hs].
  destruct (negb (truthy (trim editTitle))); [exact Hs|].
  destruct fault; [exact Hs|].
  destruct (s !! Task.id task) as [d0|] eqn:Hd; [|exact Hs]. cbn [snd].
  intros i d Hi. destruct (decide (Task.id task = i)) as [<-|Hne].
  - rewrite lookup_insert_eq in Hi. injection Hi as <-.
    exact (Hs _ _ Hd).
  - rewrite lookup_insert_ne in Hi by exact Hne. exact (Hs i d Hi).
Qed.

(** ** Creating and editing a task *)

Lemma js_lt_irrefl (a : jsstring) : js_lt a a = false.
Proof.
  induction a as [|x a IH]; cbn; [reflexivity|].
  rewrite N.ltb_irrefl. exact IH.
Qed.





(** ** The chart series *)

Section ChartDays.

Variable tza : Z.

Lemma eachDay_loop_unfold (endTime cur : Z) :
  eachDay_loop tza endTime cur
  = if cur <=? endTime
    then cur :: eachDay_loop tza endTime (nextDay tza cur)
    else [].
Proof.
  rewrite eachDay_loop_equation_1.
  destruct (Z_le_gt_dec cur endTime) as [Hle|Hgt]; cbn.
  - destruct (Z.leb_spec cur endTime); [reflexivity | lia].
  - destruct (Z.leb_spec cur endTime); [lia | reflexivity].
Qed.

Lemma eachDay_loop_done (endTime cur : Z) :
  endTime < cur -> eachDay_loop tza endTime cur = [].
Proof.
  intros H. rewrite eachDay_loop_unfold.
  destruct (Z.leb_spec cur endTime); [lia | reflexivity].
Qed.

Lemma eachDay_loop_step (endTime cur : Z) :
  cur <= endTime ->
  eachDay_loop tza endTime cur
  = cur :: eachDay_loop tza endTime (nextDay tza cur).
Proof.
  intros H. rewrite eachDay_loop_unfold.
  destruct (Z.leb_spec cur endTime); [reflexivity | lia].
Qed.

Lemma nextDay_midnight (d0 : Z) :
  nextDay tza (UTC tza (MakeDate d0 0)) = UTC tza (MakeDate (d0 + 1) 0).
Proof.
  rewrite nextDay_spec, LocalTime_UTC.
  rewrite Day_MakeDate by (unfold msPerDay; lia). reflexivity.
Qed.

(** From the midnight that opens day [d0], the loop yields one date for
    each day up to the day of [endTime]. *)
Lemma eachDay_loop_length (endTime : Z) (n : nat) :
  forall d0 : Z,
    Z.of_nat n = localDay tza endTime - d0 + 1 ->
    length (eachDay_loop tza endTime (UTC tza (MakeDate d0 0))) = n.
Proof.
  induction n as [|n IH]; intros d0 Hn.
  - rewrite eachDay_loop_done; [reflexivity|].
    pose proof (midnight_le tza d0 endTime). lia.
  - rewrite eachDay_loop_step by (apply midnight_le; lia).
    rewrite nextDay_midnight. cbn [length]. f_equal. apply IH. lia.
Qed.

Lemma eachDayOfInterval_length (start end_ : Z) :
  start <= end_ ->
  exists l, eachDayOfInterval tza start end_ = Some l
            /\ Z.of_nat (length l)
               = localDay tza end_ - localDay tza start + 1.
Proof.
  intros Hle. unfold eachDayOfInterval.
  destruct (Z.leb_spec start end_); [|lia].
  eexists. split; [reflexivity|].
  rewrite startOfDay_ms_spec.
  assert (Hd : localDay tza start <= localDay tza end_)
    by (apply Z.div_le_mono; unfold msPerDay, LocalTime; lia).
  rewrite (eachDay_loop_length end_
             (Z.to_nat (localDay tza end_ - localDay tza start + 1)));
    lia.
Qed.

Lemma subDays_ms_spec (t n : Z) : subDays_ms tza t n = t - n * msPerDay.
Proof.
  unfold subDays_ms, addDays_ms.
  destruct (Z.eqb_spec (- n) 0) as [H0|Hn]; [lia|].
  unfold Date_setDate, Date_getDate. rewrite MakeDay_of_time.
  unfold UTC, MakeDate, TimeWithinDay, Day, LocalTime, msPerDay.
  pose proof (Z.div_mod (t + tza) 86400000). lia.
Qed.

Ltac eval_monthStart :=
  repeat match goal with
    | |- context [monthStart (?k + 1) ?l] =>
        let v := eval vm_compute in (monthStart (k + 1) l) in
        change (monthStart (k + 1) l) with v
    end.

(** The last day of a month is as many days after its first day as the
    month is long, less one. *)
Lemma MakeDay_month_span (y m : Z) :
  0 <= m <= 11 ->
  MakeDay y (m + 1) 0 - MakeDay y m 1 + 1 = DaysInMonth y m.
Proof.
  intros Hm. unfold MakeDay.
  rewrite (Z.div_small m 12), (Z.mod_small m 12), (Z.add_0_r y) by lia.
  destruct (Z.eq_dec m 11) as [->|Hne].
  - change ((11 + 1) / 12) with 1. change ((11 + 1) mod 12) with 0.
    rewrite DayFromYear_succ. unfold DaysInYear, DaysInMonth, monthStart.
    destruct (negb (y mod 4 =? 0)), (negb (y mod 100 =? 0)),
      (negb (y mod 400 =? 0)); cbn; lia.
  - rewrite (Z.div_small (m + 1) 12), (Z.mod_small (m + 1) 12),
      (Z.add_0_r y) by lia.
    assert (Hcases : m = 0 \/ m = 1 \/ m = 2 \/ m = 3 \/ m = 4 \/ m = 5
                     \/ m = 6 \/ m = 7 \/ m = 8 \/ m = 9 \/ m = 10) by lia.
    unfold DaysInMonth.
    destruct (DaysInYear y =? 366);
      repeat (destruct Hcases as [->|Hcases]; [eval_monthStart; cbn; lia|]);
      subst m; eval_monthStart; cbn; lia.
Qed.

Lemma DaysInMonth_ge_28 (y m : Z) : 28 <= DaysInMonth y m.
Proof.
  unfold DaysInMonth.
  repeat match goal with
    | |- context [match ?x with _ => _ end] => destruct x
    end; lia.
Qed.

Lemma startOfMonth_localDay (t : Z) :
  startOfMonth_ms tza t
  = UTC tza (MakeDate (MakeDay (Date_getFullYear tza t)
                               (Date_getMonth tza t) 1) 0).
Proof.
  unfold startOfMonth_ms, Date_setHours, Date_setDate.
  rewrite LocalTime_UTC, Day_MakeDate by apply TimeWithinDay_range.
  reflexivity.
Qed.

Lemma endOfMonth_localDay (t : Z) :
  endOfMonth_ms tza t
  = UTC tza (MakeDate (MakeDay (Date_getFullYear tza t)
                               (Date_getMonth tza t + 1) 0) 86399999).
Proof.
  unfold endOfMonth_ms, Date_setHours, Date_setFullYear.
  rewrite LocalTime_UTC, Day_MakeDate by apply TimeWithinDay_range.
  reflexivity.
Qed.

End ChartDays.

(** C7.  For every list of tasks and every current instant, the series of
    the chart has 7 points when the range is the week, and as many points
    as the current local calendar month has days when the range is the
    month. *)
Theorem chart_series_length (tza now : Z) (tasks : list Task.t) :
  (exists l, Admin.dataPoints tza now tasks Admin.week = Some l
             /\ length l = 7%nat)
  /\ (exists l, Admin.dataPoints tza now tasks Admin.month = Some l
                /\ Z.of_nat (length l)
                   = DaysInMonth (Date_getFullYear tza now)
                                 (Date_getMonth tza now)).
Proof.
  split; unfold Admin.dataPoints, Admin.chartInterval.
  - assert (Hle : subDays_ms tza now 6 <= now)
      by (rewrite subDays_ms_spec; unfold msPerDay; lia).
    destruct (eachDayOfInterval_length tza _ _ Hle) as (l & -> & Hlen).
    eexists. split; [reflexivity|]. rewrite length_map.
    assert (Hd : localDay tza (subDays_ms tza now 6) = localDay tza now - 6).
    { rewrite subDays_ms_spec. unfold localDay, Day, LocalTime, msPerDay.
      replace (now - 6 * 86400000 + tza) with (now + tza + (-6) * 86400000)
        by lia.
      rewrite Z.div_add by lia. lia. }
    lia.
  - pose proof (MonthFromTime_range (LocalTime tza now)) as Hm.
    pose proof (MakeDay_month_span (Date_getFullYear tza now)
                  (Date_getMonth tza now) Hm) as Hspan.
    assert (Hle : startOfMonth_ms tza now <= endOfMonth_ms tza now).
    { rewrite startOfMonth_localDay, endOfMonth_localDay.
      unfold UTC, MakeDate, msPerDay.
      pose proof (DaysInMonth_ge_28 (Date_getFullYear tza now)
                    (Date_getMonth tza now)).
      lia. }
    destruct (eachDayOfInterval_length tza _ _ Hle) as (l & -> & Hlen).
    eexists. split; [reflexivity|]. rewrite length_map, Hlen.
    rewrite startOfMonth_localDay, endOfMonth_localDay.
    rewrite localDay_midnight.
    unfold localDay. rewrite LocalTime_UTC, Day_MakeDate
      by (unfold msPerDay; lia).
    lia.
Qed.

(** ** The completion rate *)

Module RateBounds.
Import JsNumber.

Lemma rne_nonneg (num den : Z) : 0 <= num -> 0 < den -> 0 <= rne num den.
Proof.
  intros Hn Hd. unfold rne.
  pose proof (Z.div_pos num den Hn Hd).
  destruct (2 * (num mod den) <? den), (den <? 2 * (num mod den)),
    (Z.even (num / den)); lia.
Qed.

(** Rounding does not pass an integer that the exact quotient does not
    pass. *)
Lemma rne_le (num den J : Z) :
  0 < den -> num <= J * den -> rne num den <= J.
Proof.
  intros Hd HJ. unfold rne.
  pose proof (Z.div_mod num den) as Hdm.
  pose proof (Z.mod_pos_bound num den Hd) as Hr.
  assert (Hq : num / den <= J) by (apply Z.div_le_upper_bound; lia).
  destruct (Z.ltb_spec (2 * (num mod den)) den) as [H1|H1]; [exact Hq|].
  assert (Hlt : num / den < J).
  { apply Z.div_lt_upper_bound; [exact Hd|].
    destruct (Z.eq_dec num (J * den)) as [E|Hne]; [|lia].
    rewrite E, Z.mod_mul in H1 by lia. lia. }
  destruct (den <? 2 * (num mod den)), (Z.even (num / den)); lia.
Qed.

Lemma ilog2_le (p q : Z) : ilog2 p q <= Z.log2 p - Z.log2 q.
Proof.
  unfold ilog2.
  destruct (0 <=? Z.log2 p - Z.log2 q);
    match goal with |- context [if ?b then _ else _] => destruct b end; lia.
Qed.

Lemma round53_at_most (p q B : Z) :
  0 <= p -> 0 < q -> 0 <= B -> p <= B * q ->
  Z.log2 p - Z.log2 q <= 52 ->
  at_most B (round53 p q).
Proof.
  intros Hp Hq HB Hle Hlog. unfold round53, at_most.
  destruct (Z.eqb_spec p 0) as [->|Hp0]; cbn [mant expo].
  { change (2 ^ (- 0)) with 1. lia. }
  pose proof (ilog2_le p q) as Hi.
  destruct (Z.leb_spec 0 (ilog2 p q - 52)) as [He|He]; cbn [mant expo].
  - assert (E : ilog2 p q - 52 = 0) by lia. rewrite E.
    change (2 ^ 0) with 1. change (2 ^ (- 0)) with 1.
    split; [lia|]. split.
    + apply rne_nonneg; lia.
    + apply rne_le; lia.
  - set (a := - (ilog2 p q - 52)) in *.
    assert (Ha : 0 < 2 ^ a) by (apply Z.pow_pos_nonneg; lia).
    split; [lia|]. split.
    + apply rne_nonneg; nia.
    + apply rne_le; [exact Hq | nia].
Qed.

Lemma div_at_most_1 (c n : Z) :
  0 <= c <= n -> 0 < n -> at_most 1 (div (of_int c) (of_int n)).
Proof.
  intros Hc Hn. unfold div, of_int. cbn [mant expo].
  change (0 <=? 0 - 0) with true. cbv iota.
  change (2 ^ (0 - 0)) with 1. rewrite Z.mul_1_r.
  apply round53_at_most; try lia.
  pose proof (Z.log2_le_mono c n (proj2 Hc)). lia.
Qed.

Lemma log2_scaled (k a : Z) :
  0 <= a -> 0 < k < 128 -> forall m, 0 < m <= k * 2 ^ a -> Z.log2 m < 7 + a.
Proof.
  intros Ha Hk m Hm. apply Z.log2_lt_pow2; [lia|].
  rewrite Z.pow_add_r by lia. change (2 ^ 7) with 128.
  assert (0 < 2 ^ a) by (apply Z.pow_pos_nonneg; lia). nia.
Qed.

Lemma mul_100_at_most (x : double) :
  at_most 1 x -> at_most 100 (mul x (of_int 100)).
Proof.
  intros (He & Hm0 & Hm). unfold mul, of_int. cbn [mant expo].
  rewrite Z.add_0_r.
  assert (Hpow : 0 < 2 ^ (- expo x)) by (apply Z.pow_pos_nonneg; lia).
  assert (Hlog : Z.log2 (mant x * 100) < 7 + - expo x).
  { destruct (Z.eq_dec (mant x) 0) as [E0|Hne].
    - rewrite E0. change (Z.log2 (0 * 100)) with 0. lia.
    - apply (log2_scaled 100); lia. }
  destruct (Z.leb_spec 0 (expo x)) as [H0|H0].
  - assert (E : expo x = 0) by lia. rewrite E in *.
    change (2 ^ 0) with 1. change (2 ^ (- 0)) with 1 in *.
    rewrite Z.mul_1_r.
    apply round53_at_most; try lia.
    change (Z.log2 1) with 0. lia.
  - apply round53_at_most; try lia.
    rewrite Z.log2_pow2 by lia. lia.
Qed.

Lemma Math_round_at_most_100 (x : double) :
  at_most 100 x -> 0 <= Math_round x <= 100.
Proof.
  intros (He & Hm0 & Hm). unfold Math_round.
  destruct (Z.leb_spec 0 (expo x)) as [H0|H0].
  - assert (E : expo x = 0) by lia. rewrite E in *.
    change (2 ^ 0) with 1. change (2 ^ (- 0)) with 1 in Hm. lia.
  - assert (Hpow : 0 < 2 ^ (- expo x)) by (apply Z.pow_pos_nonneg; lia).
    assert (Hp1 : 2 ^ (1 - expo x) = 2 * 2 ^ (- expo x)).
    { replace (1 - expo x) with (1 + - expo x) by lia.
      rewrite Z.pow_add_r by lia. reflexivity. }
    rewrite Hp1. split.
    + apply Z.div_pos; lia.
    + apply Z.lt_succ_r. apply Z.div_lt_upper_bound; lia.
Qed.

(** *** The model rounds to nearest *)

Lemma pow2_pos (a : Z) : 0 <= a -> 0 < 2 ^ a.
Proof. intros. apply Z.pow_pos_nonneg; lia. Qed.

Lemma pow2_succ (a : Z) : 0 <= a -> 2 ^ (a + 1) = 2 * 2 ^ a.
Proof. intros. rewrite Z.pow_add_r by lia. change (2 ^ 1) with 2. lia. Qed.

(** [ilog2 p q] is the exponent of the power of two just below [p / q]. *)
Lemma ilog2_spec (p q : Z) :
  0 < p -> 0 < q ->
  (0 <= ilog2 p q ->
   q * 2 ^ ilog2 p q <= p < q * 2 ^ (ilog2 p q + 1))
  /\ (ilog2 p q < 0 ->
      p * 2 ^ (- ilog2 p q - 1) < q <= p * 2 ^ (- ilog2 p q)).
Proof.
  intros Hp Hq. unfold ilog2.
  pose proof (Z.log2_spec p Hp) as [Hp1 Hp2].
  pose proof (Z.log2_spec q Hq) as [Hq1 Hq2].
  pose proof (Z.log2_nonneg p) as Ha. pose proof (Z.log2_nonneg q) as Hb.
  set (a := Z.log2 p) in *. set (b := Z.log2 q) in *.
  unfold Z.succ in *. rewrite pow2_succ in Hp2, Hq2 by lia.
  pose proof (pow2_pos a Ha) as Hpa. pose proof (pow2_pos b Hb) as Hpb.
  destruct (Z.leb_spec 0 (a - b)) as [Hk|Hk].
  - assert (Hab : 2 ^ a = 2 ^ b * 2 ^ (a - b)).
    { rewrite <- Z.pow_add_r by lia. f_equal. lia. }
    pose proof (pow2_pos (a - b) Hk) as Hpk.
    destruct (Z.leb_spec (q * 2 ^ (a - b)) p) as [Ht|Ht].
    + split; [|lia]. intros _. rewrite pow2_succ by lia. nia.
    + destruct (Z.eq_dec (a - b) 0) as [E|E].
      * rewrite E in *. change (2 ^ 0) with 1 in *.
        split; [lia|]. intros _. change (- (0 - 1) - 1) with 0.
        change (- (0 - 1)) with 1. change (2 ^ 0) with 1. change (2 ^ 1) with 2.
        nia.
      * split; [|lia]. intros _.
        replace (a - b - 1 + 1) with (a - b) by lia.
        assert (Hs : 2 ^ (a - b) = 2 * 2 ^ (a - b - 1)).
        { rewrite <- pow2_succ by lia. f_equal. lia. }
        pose proof (pow2_pos (a - b - 1)). nia.
  - assert (Hab : 2 ^ b = 2 ^ a * 2 ^ (- (a - b))).
    { rewrite <- Z.pow_add_r by lia. f_equal. lia. }
    assert (Hs : 2 ^ (- (a - b)) = 2 * 2 ^ (- (a - b) - 1)).
    { rewrite <- pow2_succ by lia. f_equal. lia. }
    pose proof (pow2_pos (- (a - b) - 1)) as Hpk.
    destruct (Z.leb_spec q (p * 2 ^ (- (a - b)))) as [Ht|Ht].
    + split; [lia|]. intros _. nia.
    + split; [lia|]. intros _.
      replace (- (a - b - 1) - 1) with (- (a - b)) by lia.
      replace (- (a - b - 1)) with (- (a - b) + 1) by lia.
      rewrite pow2_succ by lia. nia.
Qed.

Lemma rne_half (num den : Z) :
  0 < den -> - den <= 2 * (rne num den * den - num) <= den.
Proof.
  intros Hd. unfold rne.
  pose proof (Z.div_mod num den) as Hdm.
  pose proof (Z.mod_pos_bound num den Hd) as Hr.
  destruct (Z.ltb_spec (2 * (num mod den)) den),
    (Z.ltb_spec den (2 * (num mod den))), (Z.even (num / den)); nia.
Qed.

Lemma rne_ge (num den J : Z) :
  0 < den -> J * den <= num -> J <= rne num den.
Proof.
  intros Hd HJ. unfold rne.
  assert (Hq : J <= num / den) by (apply Z.div_le_lower_bound; lia).
  destruct (2 * (num mod den) <? den), (den <? 2 * (num mod den)),
    (Z.even (num / den)); lia.
Qed.

(** [round53] answers a number of 53 significant bits that is within half a
    unit in the last place of the exact quotient. *)
Lemma round53_nearest (p q : Z) :
  0 < p -> 0 < q ->
  2 ^ 52 <= mant (round53 p q) <= 2 ^ 53
  /\ (0 <= expo (round53 p q) ->
      - (q * 2 ^ expo (round53 p q))
      <= 2 * (mant (round53 p q) * (q * 2 ^ expo (round53 p q)) - p)
      <= q * 2 ^ expo (round53 p q))
  /\ (expo (round53 p q) < 0 ->
      - q
      <= 2 * (mant (round53 p q) * q - p * 2 ^ (- expo (round53 p q)))
      <= q).
Proof.
  intros Hp Hq. unfold round53.
  destruct (Z.eqb_spec p 0) as [E|_]; [lia|].
  destruct (ilog2_spec p q Hp Hq) as [Hpos Hneg].
  set (k := ilog2 p q) in *.
  destruct (Z.leb_spec 0 (k - 52)) as [He|He]; cbn [mant expo].
  - assert (Hk : 2 ^ k = 2 ^ 52 * 2 ^ (k - 52)).
    { rewrite <- Z.pow_add_r by lia. f_equal. lia. }
    pose proof (pow2_pos (k - 52) He) as Hpe.
    destruct (Hpos ltac:(lia)) as [Hlo Hhi]. rewrite pow2_succ in Hhi by lia.
    change (2 ^ 53) with (2 * 2 ^ 52).
    split; [split|split; [intros _|lia]].
    + apply rne_ge; nia.
    + apply rne_le; nia.
    + apply rne_half. nia.
  - pose proof (pow2_pos (- (k - 52)) ltac:(lia)) as Hpe.
    change (2 ^ 53) with (2 * 2 ^ 52).
    assert (Hbounds : 2 ^ 52 * q <= p * 2 ^ (- (k - 52)) <= 2 * 2 ^ 52 * q).
    { destruct (Z.leb_spec 0 k) as [Hk0|Hk0].
      - destruct (Hpos Hk0) as [Hlo Hhi]. rewrite pow2_succ in Hhi by lia.
        assert (Hk : 2 ^ 52 = 2 ^ k * 2 ^ (- (k - 52))).
        { rewrite <- Z.pow_add_r by lia. f_equal. lia. }
        pose proof (pow2_pos k Hk0). nia.
      - destruct (Hneg Hk0) as [Hlo Hhi].
        assert (Hk : 2 ^ (- (k - 52)) = 2 ^ 52 * 2 ^ (- k)).
        { rewrite <- Z.pow_add_r by lia. f_equal. lia. }
        assert (Hs : 2 ^ (- k) = 2 * 2 ^ (- k - 1)).
        { rewrite <- pow2_succ by lia. f_equal. lia. }
        pose proof (pow2_pos (- k - 1) ltac:(lia)). nia. }
    split; [split|split; [lia|intros _]].
    + apply rne_ge; [exact Hq | lia].
    + apply rne_le; [exact Hq | lia].
    + apply rne_half. exact Hq.
Qed.

(** Two fractions that are close have roundings that differ by one at
    most: [m2 / U] is the computed value, [100 c / n] the exact one,
    [m1 / T] the computed quotient. *)
Lemma rounded_close (c n m1 m2 T U r E : Z) :
  0 < n -> 0 <= c -> 2 ^ 52 <= T -> 2 ^ 46 <= U -> 0 <= m1 ->
  - n <= 2 * (m1 * n - c * T) <= n ->
  - T <= 2 * (m2 * T - m1 * 100 * U) <= T ->
  r * (2 * U) <= 2 * m2 + U < (r + 1) * (2 * U) ->
  E * (2 * n) <= 200 * c + n < (E + 1) * (2 * n) ->
  E - 1 <= r <= E + 1.
Proof.
  intros Hn Hc HT HU Hm1 H1 H2 Hr HE.
  change (2 ^ 52) with 4503599627370496 in HT.
  change (2 ^ 46) with 70368744177664 in HU.
  (* scaled difference of the two fractions, times 2 n T U *)
  assert (Hd : - (100 * n * U + n * T)
               <= 2 * (m2 * T * n - 100 * c * T * U)
               <= 100 * n * U + n * T).
  { assert (A1 : - (n * (100 * U)) <= 2 * (m1 * n - c * T) * (100 * U)
                 <= n * (100 * U)) by nia.
    assert (A2 : - (T * n) <= 2 * (m2 * T - m1 * 100 * U) * n <= T * n) by nia.
    nia. }
  assert (Hsmall : 2 * (100 * n * U + n * T) < n * T * U) by nia.
  split.
  - (* E <= r + 1 *)
    destruct (Z.le_gt_cases (E - 1) r) as [H|H]; [exact H|exfalso].
    assert (B1 : (2 * E - 1) * n <= 200 * c) by lia.
    assert (B2 : 2 * m2 < (2 * E - 3) * U) by nia.
    assert (B3 : 2 * (m2 * T * n) < (2 * E - 3) * U * (T * n)) by nia.
    assert (B4 : (2 * E - 1) * n * (T * U) <= 200 * c * (T * U)) by nia.
    nia.
  - destruct (Z.le_gt_cases r (E + 1)) as [H|H]; [exact H|exfalso].
    assert (B1 : 200 * c < (2 * E + 1) * n) by lia.
    assert (B2 : (2 * E + 3) * U <= 2 * m2) by nia.
    assert (B3 : (2 * E + 3) * U * (T * n) <= 2 * m2 * (T * n)) by nia.
    assert (B4 : 200 * c * (T * U) < (2 * E + 1) * n * (T * U)) by nia.
    nia.
Qed.

(** With fewer than [2 ^ 32] tasks the two fractions are too close for the
    computed rounding to go above the exact one, or to go below it unless
    the exact percentage is a whole number and a half. *)
Lemma rounded_tight (c n m1 m2 T U r E : Z) :
  0 < n < 2 ^ 32 -> 0 <= c -> 2 ^ 52 <= T -> 2 ^ 46 <= U -> 0 <= m1 ->
  - n <= 2 * (m1 * n - c * T) <= n ->
  - T <= 2 * (m2 * T - m1 * 100 * U) <= T ->
  r * (2 * U) <= 2 * m2 + U < (r + 1) * (2 * U) ->
  E * (2 * n) <= 200 * c + n < (E + 1) * (2 * n) ->
  r <= E /\ (200 * c + n <> E * (2 * n) -> r = E).
Proof.
  intros Hn Hc HT HU Hm1 H1 H2 Hr HE.
  change (2 ^ 32) with 4294967296 in Hn.
  change (2 ^ 52) with 4503599627370496 in HT.
  change (2 ^ 46) with 70368744177664 in HU.
  assert (Hd : - (100 * n * U + n * T)
               <= 2 * (m2 * T * n - 100 * c * T * U)
               <= 100 * n * U + n * T).
  { assert (A1 : - (n * (100 * U)) <= 2 * (m1 * n - c * T) * (100 * U)
                 <= n * (100 * U)) by (clear - H1 HU; nia).
    assert (A2 : - (T * n) <= 2 * (m2 * T - m1 * 100 * U) * n <= T * n)
      by (clear - H2 Hn; nia).
    clear - A1 A2. nia. }
  assert (S1 : 200 * n * U < T * U) by (clear - Hn HT HU; nia).
  assert (S2 : 2 * n * T < T * U) by (clear - Hn HT HU; nia).
  assert (HTn : 0 <= T * n) by (clear - Hn HT; nia).
  assert (HTU : 0 <= T * U) by (clear - HU HT; nia).
  assert (Hle : r <= E).
  { destruct (Z.le_gt_cases r E) as [H|H]; [exact H|exfalso].
    assert (B1 : 200 * c <= (2 * E + 1) * n - 1) by lia.
    assert (B2 : (2 * E + 1) * U <= 2 * m2) by (clear - Hr H HU; nia).
    assert (B3 : (2 * E + 1) * U * (T * n) <= 2 * m2 * (T * n))
      by (apply Z.mul_le_mono_nonneg_r; assumption).
    assert (B4 : 200 * c * (T * U) <= ((2 * E + 1) * n - 1) * (T * U))
      by (apply Z.mul_le_mono_nonneg_r; assumption).
    clear - Hd B3 B4 S1 S2. nia. }
  split; [exact Hle|]. intros Hne.
  destruct (Z.le_gt_cases E r) as [H|H]; [lia|exfalso].
  assert (B1 : (2 * E - 1) * n + 1 <= 200 * c) by lia.
  assert (B2 : 2 * m2 <= (2 * E - 1) * U - 1) by (clear - Hr H HU; nia).
  assert (B3 : 2 * m2 * (T * n) <= ((2 * E - 1) * U - 1) * (T * n))
    by (apply Z.mul_le_mono_nonneg_r; assumption).
  assert (B4 : ((2 * E - 1) * n + 1) * (T * U) <= 200 * c * (T * U))
    by (apply Z.mul_le_mono_nonneg_r; assumption).
  clear - Hd B3 B4 S1 S2. nia.
Qed.

Lemma div_floor_bounds (a b : Z) :
  0 < b -> (a / b) * b <= a < (a / b + 1) * b.
Proof.
  intros Hb. pose proof (Z.div_mod a b). pose proof (Z.mod_pos_bound a b Hb).
  nia.
Qed.

(** The quotient [m1 / T], the product [m2 / U] and the rounding of the
    product, as the two operations and [Math.round] compute them. *)
Lemma percentage_relations (c n : Z) :
  0 < c <= n ->
  exists m1 m2 T U,
    2 ^ 52 <= T /\ 2 ^ 46 <= U /\ 0 <= m1
    /\ - n <= 2 * (m1 * n - c * T) <= n
    /\ - T <= 2 * (m2 * T - m1 * 100 * U) <= T
    /\ Math_round (mul (div (of_int c) (of_int n)) (of_int 100)) * (2 * U)
       <= 2 * m2 + U
       < (Math_round (mul (div (of_int c) (of_int n)) (of_int 100)) + 1)
         * (2 * U).
Proof.
  intros Hc. assert (Hn : 0 < n) by lia.
  pose proof (div_at_most_1 c n ltac:(lia) Hn) as (He1 & Hm1 & Hm1').
  revert He1 Hm1 Hm1'. unfold div, of_int. cbn [mant expo].
  change (0 <=? 0 - 0) with true. cbv iota.
  change (2 ^ (0 - 0)) with 1. rewrite Z.mul_1_r.
  intros He1 Hm1 Hm1'. rewrite Z.mul_1_l in Hm1'.
  destruct (round53_nearest c n ltac:(lia) Hn) as (Hbits1 & _ & Hnear1).
  assert (He1' : expo (round53 c n) <= -52).
  { unfold round53. destruct (Z.eqb_spec c 0); [lia|].
    pose proof (ilog2_le c n).
    pose proof (Z.log2_le_mono c n (proj2 Hc)).
    destruct (0 <=? ilog2 c n - 52); cbn [expo]; lia. }
  specialize (Hnear1 ltac:(lia)).
  set (m1 := mant (round53 c n)) in *.
  set (e1 := expo (round53 c n)) in *.
  assert (HT : 2 ^ 52 <= 2 ^ (- e1)) by (apply Z.pow_le_mono_r; lia).
  unfold mul. cbn [mant expo]. fold m1 e1. rewrite Z.add_0_r.
  destruct (Z.leb_spec 0 e1) as [H0|_]; [lia|].
  assert (Hp : 0 < m1 * 100) by (change (2 ^ 52) with 4503599627370496 in *; lia).
  assert (HT0 : 0 < 2 ^ (- e1)) by (apply pow2_pos; lia).
  destruct (round53_nearest (m1 * 100) (2 ^ (- e1)) Hp HT0)
    as (Hbits2 & _ & Hnear2).
  assert (He2 : expo (round53 (m1 * 100) (2 ^ (- e1))) <= -46).
  { unfold round53. destruct (Z.eqb_spec (m1 * 100) 0); [lia|].
    pose proof (ilog2_le (m1 * 100) (2 ^ (- e1))) as Hi.
    rewrite Z.log2_pow2 in Hi by lia.
    pose proof (log2_scaled 100 (- e1) ltac:(lia) ltac:(lia)
                  (m1 * 100) ltac:(lia)).
    destruct (0 <=? ilog2 (m1 * 100) (2 ^ (- e1)) - 52); cbn [expo]; lia. }
  specialize (Hnear2 ltac:(lia)).
  set (m2 := mant (round53 (m1 * 100) (2 ^ (- e1)))) in *.
  set (e2 := expo (round53 (m1 * 100) (2 ^ (- e1)))) in *.
  assert (HU : 2 ^ 46 <= 2 ^ (- e2)) by (apply Z.pow_le_mono_r; lia).
  unfold Math_round. fold m2 e2.
  destruct (Z.leb_spec 0 e2) as [H0|_]; [lia|].
  replace (2 ^ (1 - e2)) with (2 * 2 ^ (- e2))
    by (rewrite <- pow2_succ by lia; f_equal; lia).
  assert (HU0 : 0 < 2 ^ (- e2)) by (apply pow2_pos; lia).
  pose proof (div_floor_bounds (2 * m2 + 2 ^ (- e2)) (2 * 2 ^ (- e2))
                ltac:(lia)) as Hr.
  exists m1, m2, (2 ^ (- e1)), (2 ^ (- e2)).
  repeat split; try lia.
Qed.

Lemma percentage_close (c n : Z) :
  0 <= c <= n -> 0 < n ->
  (200 * c + n) / (2 * n) - 1
  <= Math_round (mul (div (of_int c) (of_int n)) (of_int 100))
  <= (200 * c + n) / (2 * n) + 1.
Proof.
  intros Hc Hn.
  destruct (Z.eq_dec c 0) as [->|Hc0].
  { replace ((200 * 0 + n) / (2 * n)) with 0
      by (symmetry; apply Z.div_small; lia).
    vm_compute. split; discriminate. }
  destruct (percentage_relations c n ltac:(lia))
    as (m1 & m2 & T & U & HT & HU & Hm1 & H1 & H2 & Hr).
  pose proof (div_floor_bounds (200 * c + n) (2 * n) ltac:(lia)) as HE.
  exact (rounded_close c n m1 m2 T U _ _ Hn ltac:(lia) HT HU Hm1 H1 H2 Hr HE).
Qed.

(** With fewer than [2 ^ 32] tasks the percentage shown is the exactly
    rounded one or one below it, and it is the exactly rounded one unless
    the exact percentage is a whole number and a half. *)
Lemma percentage_tight (c n : Z) :
  0 <= c <= n -> 0 < n < 2 ^ 32 ->
  let r := Math_round (mul (div (of_int c) (of_int n)) (of_int 100)) in
  let E := (200 * c + n) / (2 * n) in
  E - 1 <= r <= E /\ ((200 * c + n) mod (2 * n) <> 0 -> r = E).
Proof.
  intros Hc Hn r E. subst r E.
  destruct (Z.eq_dec c 0) as [->|Hc0].
  { replace ((200 * 0 + n) / (2 * n)) with 0
      by (symmetry; apply Z.div_small; lia).
    change (Math_round (mul (div (of_int 0) (of_int n)) (of_int 100)))
      with 0.
    split; [lia | reflexivity]. }
  destruct (percentage_relations c n ltac:(lia))
    as (m1 & m2 & T & U & HT & HU & Hm1 & H1 & H2 & Hr).
  pose proof (div_floor_bounds (200 * c + n) (2 * n) ltac:(lia)) as HE.
  pose proof (Z.div_mod (200 * c + n) (2 * n) ltac:(lia)) as Hdm.
  destruct (rounded_close c n m1 m2 T U _ _ ltac:(lia) ltac:(lia) HT HU Hm1
              H1 H2 Hr HE) as [Hlow _].
  destruct (rounded_tight c n m1 m2 T U _ _ Hn ltac:(lia) HT HU Hm1
              H1 H2 Hr HE) as [Hup Heq].
  split; [lia|]. intros Hmod. apply Heq. lia.
Qed.

(** The percentage of [c] out of [n] as the dashboards compute it. *)
Lemma percentage_range (c n : nat) :
  (c <= n)%nat -> (0 < n)%nat ->
  0 <= Math_round
         (mul (div (of_int (Z.of_nat c)) (of_int (Z.of_nat n))) (of_int 100))
    <= 100.
Proof.
  intros Hc Hn.
  apply Math_round_at_most_100, mul_100_at_most, div_at_most_1; lia.
Qed.

End RateBounds.

(** For every list of tasks the completion rate of the student dashboard,
    which is also the one of the global statistics, is an integer between 0
    and 100; it is 0 for the empty list, and otherwise it is [Math.round] of
    the double-precision product of the double-precision quotient by 100,
    which is within one of the exactly rounded percentage.  For a list of
    fewer than [2 ^ 32] tasks, the most an array holds, it is never above
    the exactly rounded percentage, and it is that percentage unless the
    exact percentage is a whole number and a half. *)
Lemma completionRate_range (tza now : Z) (students : list UserProfile.t)
    (tasks : list Task.t) :
  0 <= Student.completionRate tasks <= 100
  /\ Student.completionRate [] = 0
  /\ Admin.completionRate (Admin.globalStats tza now students tasks)
     = Student.completionRate tasks
  /\ Student.completionRate tasks
     = (if (length tasks =? 0)%nat then 0
        else JsNumber.Math_round
               (JsNumber.mul
                  (JsNumber.div
                     (JsNumber.of_int
                        (Z.of_nat (length (List.filter Task.completed tasks))))
                     (JsNumber.of_int (Z.of_nat (length tasks))))
                  (JsNumber.of_int 100)))
  /\ exactRate tasks - 1 <= Student.completionRate tasks
     <= exactRate tasks + 1
  /\ (Z.of_nat (length tasks) < 2 ^ 32 ->
      Student.completionRate tasks <= exactRate tasks
      /\ (Student.completionRate tasks <> exactRate tasks ->
          exactHalf tasks)).
Proof.
  assert (Hc : (length (List.filter Task.completed tasks) <= length tasks)%nat)
    by apply filter_length_le.
  split; [|split; [reflexivity | split; [reflexivity | split; [reflexivity
                                                             | split]]]];
    unfold Student.completionRate, exactRate, exactHalf,
      Student.completedCount;
    destruct (Nat.eqb_spec (length tasks) 0) as [E|Hne].
  - lia.
  - apply RateBounds.percentage_range; lia.
  - cbv zeta.
    destruct (Z.eqb_spec (Z.of_nat (length tasks)) 0) as [_|E0]; lia.
  - cbv zeta.
    destruct (Z.eqb_spec (Z.of_nat (length tasks)) 0) as [E0|_]; [lia|].
    apply RateBounds.percentage_close; lia.
  - cbv zeta. intros _.
    destruct (Z.eqb_spec (Z.of_nat (length tasks)) 0) as [_|E0]; lia.
  - cbv zeta. intros Hlen.
    destruct (Z.eqb_spec (Z.of_nat (length tasks)) 0) as [E0|E0]; [lia|].
    destruct (RateBounds.percentage_tight
                (Z.of_nat (length (List.filter Task.completed tasks)))
                (Z.of_nat (length tasks)) ltac:(lia) ltac:(lia))
      as [Hr Heq].
    split; [lia|]. intros Hdiff. split; [exact E0|].
    destruct (Z.eq_dec
                ((200 * Z.of_nat (length (List.filter Task.completed tasks))
                  + Z.of_nat (length tasks))
                 mod (2 * Z.of_nat (length tasks))) 0) as [Hz|Hnz];
      [exact Hz|].
    contradiction Hdiff. exact (Heq Hnz).
Qed.

(** ** The overdue count of the global statistics *)

(** What the admin test counts: an open task due before the current day, or
    due on it once the day has begun. *)
Lemma isOverdue_spec (tza now : Z) (t : Task.t) :
  Admin.isOverdue tza now t
  = negb (Task.completed t)
    && (due_before tza now t
        || due_on tza now t
           && negb (TimeWithinDay (LocalTime tza now) =? 0)).
Proof.
  unfold Admin.isOverdue, due_before, due_on. f_equal.
  rewrite isPast_startOfDay_admin.
  destruct (dueDay tza (Task.dueDate t)) as [k|]; [|reflexivity].
  do 2 f_equal. rewrite startOfDay_ms_spec.
  pose proof (Z.div_mod (now + tza) 86400000 ltac:(lia)) as Hdm.
  pose proof (Z.mod_pos_bound (now + tza) 86400000 ltac:(lia)) as Hr.
  unfold localDay, Day, TimeWithinDay, UTC, MakeDate, LocalTime, msPerDay.
  destruct (Z.ltb_spec ((now + tza) / 86400000 * 86400000 + 0 - tza) now),
    (Z.eqb_spec ((now + tza) mod 86400000) 0); cbn; try reflexivity; lia.
Qed.

(** Hence the overdue count of the global statistics is the count of the
    open tasks due before today, plus, once the day has begun, the count of
    the open tasks due today. *)
Lemma globalStats_overdue_count (tza now : Z) (students : list UserProfile.t)
    (allTasks : list Task.t) :
  Admin.overdueTasks (Admin.globalStats tza now students allTasks)
  = (overdueBeforeToday tza now allTasks
     + (if (TimeWithinDay (LocalTime tza now) =? 0)%Z then 0
        else length
               (List.filter
                  (fun t => negb (Task.completed t) && due_on tza now t)
                  allTasks)))%nat.
Proof.
  unfold Admin.globalStats, Admin.overdueTasks, overdueBeforeToday.
  induction allTasks as [|t l IH]; cbn [List.filter length].
  - destruct (TimeWithinDay (LocalTime tza now) =? 0); reflexivity.
  - rewrite isOverdue_spec.
    destruct (due_exclusive tza now t) as (Hex & _ & _).
    destruct (TimeWithinDay (LocalTime tza now) =? 0) eqn:Hmid,
      (Task.completed t), (due_before tza now t), (due_on tza now t);
      cbn [negb andb orb length] in *; try discriminate; lia.
Qed.

(** ** The handlers of the student dashboard, one after the other *)

Lemma trimStart_head (s : jsstring) (c : N) :
  head (trimStart s) = Some c -> is_space c = false.
Proof.
  induction s as [|x s IH]; cbn; [discriminate|].
  destruct (is_space x) eqn:E; [exact IH|].
  cbn. intros [= <-]. exact E.
Qed.

Lemma trimStart_fixed (s : jsstring) :
  (forall c, head s = Some c -> is_space c = false) -> trimStart s = s.
Proof.
  destruct s as [|x s]; cbn; [reflexivity|].
  intros H. rewrite (H x eq_refl). reflexivity.
Qed.

Lemma trimStart_suffix (s : jsstring) : exists p, s = p ++ trimStart s.
Proof.
  induction s as [|x s [p IH]]; cbn.
  - exists []. reflexivity.
  - destruct (is_space x).
    + exists (x :: p). cbn. f_equal. exact IH.
    + exists []. reflexivity.
Qed.

Lemma head_app_l {A : Type} (l p : list A) (c : A) :
  head l = Some c -> head (l ++ p) = Some c.
Proof. destruct l; cbn; [discriminate | auto]. Qed.

Lemma head_rev_last {A : Type} (l : list A) : head (rev l) = last l.
Proof.
  induction l as [|x l IH] using rev_ind; [reflexivity|].
  rewrite rev_app_distr, last_snoc. reflexivity.
Qed.

(** What [trim] answers starts and ends with no white space, and [trim]
    leaves it as it is. *)
Lemma trim_trimmed (s : jsstring) :
  trim (trim s) = trim s
  /\ (forall c, head (trim s) = Some c -> is_space c = false)
  /\ (forall c, last (trim s) = Some c -> is_space c = false).
Proof.
  unfold trim, trimEnd.
  set (t := trimStart s).
  set (u := trimStart (rev t)).
  assert (Hu : forall c, head u = Some c -> is_space c = false)
    by (intros c; apply trimStart_head).
  assert (Ht : forall c, head t = Some c -> is_space c = false)
    by (intros c; apply trimStart_head).
  assert (Hr : forall c, head (rev u) = Some c -> is_space c = false).
  { intros c Hc. apply Ht.
    destruct (trimStart_suffix (rev t)) as [p Hp]. fold u in Hp.
    apply (f_equal (@rev N)) in Hp. rewrite rev_involutive, rev_app_distr in Hp.
    rewrite Hp. apply head_app_l. exact Hc. }
  split; [|split].
  - rewrite (trimStart_fixed (rev u) Hr), rev_involutive.
    rewrite (trimStart_fixed u Hu). reflexivity.
  - exact Hr.
  - intros c Hc. apply Hu. rewrite <- Hc.
    rewrite <- (rev_involutive u) at 1. apply head_rev_last.
Qed.

Lemma title_trimmed_trim (s : jsstring) (d : Task.t) :
  trim s <> [] -> Task.title d = trim s -> title_trimmed d.
Proof.
  intros Hne E. unfold title_trimmed. rewrite E.
  destruct (trim_trimmed s) as (H1 & H2 & H3). auto.
Qed.

(** A property of every stored task that each handler keeps holds after any
    sequence of calls of the handlers on the empty collection. *)
Lemma history_invariant (tza : Z) (parseISO : jsstring -> timeval)
    (P : Task.t -> Prop) :
  (forall uid title date now newId,
      trim title <> [] ->
      P (Task.mk newId uid (trim title) None
           (startOfDay tza (parseISO date)) false Missing now)) ->
  (forall c at_ d, P d -> P (Student.set_completion c at_ d)) ->
  (forall title date d,
      trim title <> [] -> P d ->
      P (Student.set_title_dueDate (trim title)
           (startOfDay tza (parseISO date)) d)) ->
  forall actions i d,
    history tza parseISO actions !! i = Some d -> P d.
Proof.
  intros Hadd Htoggle Hupdate actions. unfold history.
  assert (Hgen : forall s : store,
             (forall i d, s !! i = Some d -> P d) ->
             forall i d,
               fold_left (perform tza parseISO) actions s !! i = Some d ->
               P d).
  { induction actions as [|a actions IH]; intros s Hs; [exact Hs|].
    cbn [fold_left]. apply IH. clear IH.
    destruct a as [user title date now newId fault | task now fault
                  | taskToEdit title date fault | taskToDelete fault];
      cbn [perform].
    - unfold Student.handleAddTask.
      destruct user as [uid|]; [|exact Hs].
      destruct (negb (truthy (trim title))) eqn:Ht; [exact Hs|].
      destruct (js_lt date _); [exact Hs|].
      destruct fault; [exact Hs|]. cbn [snd]. unfold addDoc.
      intros i d Hi. destruct (decide (newId = i)) as [<-|Hne].
      + rewrite lookup_insert_eq in Hi. injection Hi as <-.
        apply Hadd. intros E. rewrite E in Ht. discriminate.
      + rewrite lookup_insert_ne in Hi by exact Hne. exact (Hs i d Hi).
    - unfold Student.toggleTask, updateDoc.
      destruct fault; [exact Hs|].
      destruct (s !! Task.id task) as [d0|] eqn:Hd; [|exact Hs]. cbn [snd].
      intros i d Hi. destruct (decide (Task.id task = i)) as [<-|Hne].
      + rewrite lookup_insert_eq in Hi. injection Hi as <-.
        apply Htoggle. exact (Hs _ _ Hd).
      + rewrite lookup_insert_ne in Hi by exact Hne. exact (Hs i d Hi).
    - unfold Student.handleUpdateTask, updateDoc.
      destruct taskToEdit as [task|]; [|exact Hs].
      destruct (negb (truthy (trim title))) eqn:Ht; [exact Hs|].
      destruct fault; [exact Hs|].
      destruct (s !! Task.id task) as [d0|] eqn:Hd; [|exact Hs]. cbn [snd].
      intros i d Hi. destruct (decide (Task.id task = i)) as [<-|Hne].
      + rewrite lookup_insert_eq in Hi. injection Hi as <-.
        apply Hupdate; [|exact (Hs _ _ Hd)].
        intros E. rewrite E in Ht. discriminate.
      + rewrite lookup_insert_ne in Hi by exact Hne. exact (Hs i d Hi).
    - unfold Student.handleDeleteTask, deleteDoc.
      destruct taskToDelete as [taskId|]; [|exact Hs].
      destruct (negb (truthy taskId)); [exact Hs|].
      destruct fault; [exact Hs|]. cbn [fst snd].
      intros i d Hi. apply lookup_delete_Some in Hi. exact (Hs i d (proj2 Hi)). }
  apply Hgen. intros i d Hi. rewrite lookup_empty in Hi. discriminate.
Qed.

Lemma startOfDay_ms_midnight (tza t : Z) :
  TimeWithinDay (LocalTime tza (startOfDay_ms tza t)) = 0
  /\ startOfDay_ms tza (startOfDay_ms tza t) = startOfDay_ms tza t.
Proof.
  rewrite !startOfDay_ms_spec, localDay_midnight.
  split; [|reflexivity].
  rewrite LocalTime_UTC. unfold TimeWithinDay, MakeDate.
  rewrite Z.add_0_r. apply Z.mod_mul. unfold msPerDay. lia.
Qed.

(** X1.  After any sequence of calls of the four handlers of the student
    dashboard on the empty collection, every stored task has a title that is
    not empty, that [trim] leaves as it is, and that neither starts nor ends
    with white space. *)
Theorem stored_titles_are_trimmed (tza : Z) (parseISO : jsstring -> timeval)
    (actions : list action) (i : jsstring) (d : Task.t) :
  history tza parseISO actions !! i = Some d ->
  Task.title d <> []
  /\ trim (Task.title d) = Task.title d
  /\ (forall c, head (Task.title d) = Some c -> is_space c = false)
  /\ (forall c, last (Task.title d) = Some c -> is_space c = false).
Proof.
  revert actions i d.
  apply (history_invariant tza parseISO title_trimmed).
  - intros uid title date now newId Hne.
    apply (title_trimmed_trim title); [exact Hne | reflexivity].
  - intros c at_ d H. exact H.
  - intros title date d Hne _.
    apply (title_trimmed_trim title); [exact Hne | reflexivity].
Qed.

(** X2.  After any sequence of calls of the four handlers on the empty
    collection, the due date of every stored task is not a date at all or is
    the first instant of a local day: [startOfDay] leaves it as it is. *)
Theorem stored_due_dates_are_starts_of_days (tza : Z)
    (parseISO : jsstring -> timeval) (actions : list action) (i : jsstring)
    (d : Task.t) :
  history tza parseISO actions !! i = Some d ->
  startOfDay tza (Task.dueDate d) = Task.dueDate d
  /\ forall t, Task.dueDate d = Ms t -> TimeWithinDay (LocalTime tza t) = 0.
Proof.
  revert actions i d.
  apply (history_invariant tza parseISO
           (fun d => startOfDay tza (Task.dueDate d) = Task.dueDate d
                     /\ forall t, Task.dueDate d = Ms t ->
                                  TimeWithinDay (LocalTime tza t) = 0)).
  - intros uid title date now newId _. cbn [Task.dueDate].
    split; [apply startOfDay_idem|].
    intros t Ht. apply startOfDay_midnight in Ht. tauto.
  - intros c at_ d H. exact H.
  - intros title date d _ _. cbn [Student.set_title_dueDate Task.dueDate].
    split; [apply startOfDay_idem|].
    intros t Ht. apply startOfDay_midnight in Ht. tauto.
Qed.

(** X3.  [handleDeleteTask] reports success exactly when a task is pending
    deletion (an id that is not the empty string) and the SDK call does not
    throw; then that document is gone, every other document is as it was,
    and no task is pending any more.  When it does not report success the
    collection is as it was; and in any case it adds no document and changes
    none. *)
Theorem handleDeleteTask_removes_that_task_only (taskToDelete : option jsstring)
    (fault : option jsstring) (s : store) :
  let result := Student.handleDeleteTask taskToDelete fault s in
  let s' := snd (fst result) in
  (fst (fst result) = Done
   <-> (exists taskId, taskToDelete = Some taskId /\ taskId <> [])
       /\ fault = None)
  /\ (fst (fst result) = Done ->
      exists taskId,
        taskToDelete = Some taskId
        /\ s' !! taskId = None
        /\ (forall i, i <> taskId -> s' !! i = s !! i)
        /\ snd result = None)
  /\ (fst (fst result) <> Done -> s' = s)
  /\ (forall i d, s' !! i = Some d -> s !! i = Some d).
Proof.
  intros result s'. subst result s'. unfold Student.handleDeleteTask, deleteDoc.
  destruct taskToDelete as [[|c taskId]|]; cbn [truthy negb fst snd].
  - split; [|split; [|split]]; try discriminate; auto.
    split; [discriminate|]. intros [(x & [= <-] & Hx) _]. contradiction.
  - destruct fault as [message|]; cbn [fst snd].
    + split; [|split; [|split]]; try discriminate; auto.
      split; [discriminate|]. intros [_ H]. discriminate.
    + split; [|split; [|split]].
      * split; [|reflexivity]. intros _.
        split; [|reflexivity]. eexists. split; [reflexivity | discriminate].
      * intros _. eexists. split; [reflexivity|].
        split; [apply lookup_delete_eq|].
        split; [|reflexivity].
        intros i Hi. apply lookup_delete_ne. congruence.
      * intros H. contradiction H. reflexivity.
      * intros i d Hi. apply lookup_delete_Some in Hi. tauto.
  - split; [|split; [|split]]; try discriminate; auto.
    split; [discriminate|]. intros [(x & Hx & _) _]. discriminate.
Qed.

(** X4.  When [handleAddTask] has added a task under a fresh id, confirming
    the deletion of that id gives back the collection as it was before the
    task was added. *)
Theorem delete_undoes_add (tza : Z) (parseISO : jsstring -> timeval)
    (user : option jsstring) (newTaskTitle newTaskDate : jsstring) (now : Z)
    (newId : jsstring) (fault : bool) (s : store) :
  s !! newId = None -> newId <> [] ->
  let added :=
    Student.handleAddTask tza parseISO user newTaskTitle newTaskDate now
      newId fault s in
  fst added = Done ->
  is_Some (snd added !! newId)
  /\ Student.handleDeleteTask (Student.confirmDeleteTask newId) None (snd added)
     = (Done, s, None).
Proof.
  intros Hfresh Hid added. subst added. unfold Student.handleAddTask.
  destruct user as [uid|]; [|discriminate].
  destruct (negb (truthy (trim newTaskTitle))); [discriminate|].
  destruct (js_lt newTaskDate _); [discriminate|].
  destruct fault; [discriminate|]. cbn [fst snd]. intros _.
  unfold addDoc. split.
  - rewrite lookup_insert_eq. eexists. reflexivity.
  - unfold Student.handleDeleteTask, Student.confirmDeleteTask, deleteDoc.
    destruct newId as [|c newId]; [contradiction|]. cbn [truthy negb].
    rewrite delete_insert_id by exact Hfresh. reflexivity.
Qed.

(** X5.  Toggling a stored task, and toggling it again as it is shown
    then: both writes go through, and the stored task has its first
    [completed] flag again and every other field as before, [completedAt]
    apart.  After the two toggles of an open task [completedAt] is [null],
    after those of a completed task it is the time of the second toggle.  So
    the collection is as it was before exactly when the task held that
    value already: an open task as [handleAddTask] stores it, without the
    field, has gained the field, and a completed task has lost its first
    completion time. *)
Theorem toggling_twice (task : Task.t) (now1 now2 : Z) (s : store) :
  s !! Task.id task = Some task ->
  let once :=
    Task.mk (Task.id task) (Task.userId task) (Task.title task)
      (Task.description task) (Task.dueDate task)
      (negb (Task.completed task))
      (if negb (Task.completed task) then Num now1 else Null)
      (Task.createdAt task) in
  let twice :=
    Task.mk (Task.id task) (Task.userId task) (Task.title task)
      (Task.description task) (Task.dueDate task)
      (Task.completed task)
      (if Task.completed task then Num now2 else Null)
      (Task.createdAt task) in
  Student.toggleTask task now1 false s = (Done, <[Task.id task := once]> s)
  /\ Student.toggleTask once now2 false (<[Task.id task := once]> s)
     = (Done, <[Task.id task := twice]> s)
  /\ (<[Task.id task := twice]> s = s
      <-> Task.completedAt task
          = (if Task.completed task then Num now2 else Null)).
Proof.
  intros Hs once twice.
  split; [|split].
  - unfold Student.toggleTask, updateDoc. rewrite Hs. reflexivity.
  - unfold Student.toggleTask, updateDoc.
    change (Task.id once) with (Task.id task).
    rewrite lookup_insert_eq, insert_insert_eq.
    subst once twice. cbn [Student.set_completion Task.completed].
    rewrite negb_involutive. reflexivity.
  - split.
    + intros E.
      assert (E' : <[Task.id task := twice]> s !! Task.id task
                   = s !! Task.id task) by (rewrite E; reflexivity).
      rewrite lookup_insert_eq, Hs in E'. injection E' as E'.
      rewrite <- E' at 1. reflexivity.
    + intros E. subst twice. rewrite <- E.
      replace (Task.mk _ _ _ _ _ _ _ _) with task by (destruct task; reflexivity).
      apply insert_id. exact Hs.
Qed.

(** ** The completion rate at its ends *)

Module RateEnds.
Import JsNumber.

Lemma div_self (n : Z) : 0 < n -> div (of_int n) (of_int n) = Dbl (2 ^ 52) (-52).
Proof.
  intros Hn. unfold div, of_int. cbn [mant expo].
  change (0 <=? 0 - 0) with true. cbv iota.
  change (2 ^ (0 - 0)) with 1. rewrite Z.mul_1_r.
  unfold round53. destruct (Z.eqb_spec n 0); [lia|].
  unfold ilog2. rewrite Z.sub_diag. change (0 <=? 0) with true. cbv iota.
  change (2 ^ 0) with 1. rewrite Z.mul_1_r, Z.leb_refl.
  change (0 <=? 0 - 52) with false. cbv iota.
  change (- (0 - 52)) with 52. change (0 - 52) with (-52). f_equal.
  unfold rne. rewrite (Z.mul_comm n), Z.div_mul, Z.mod_mul by lia.
  destruct (Z.ltb_spec (2 * 0) n); [reflexivity | lia].
Qed.

Lemma percentage_all (n : Z) :
  0 < n -> Math_round (mul (div (of_int n) (of_int n)) (of_int 100)) = 100.
Proof. intros Hn. rewrite div_self by exact Hn. vm_compute. reflexivity. Qed.

Lemma percentage_none (n : Z) :
  0 < n -> Math_round (mul (div (of_int 0) (of_int n)) (of_int 100)) = 0.
Proof.
  intros Hn. unfold div, of_int. cbn [mant expo].
  change (0 <=? 0 - 0) with true. cbv iota.
  change (0 * 2 ^ (0 - 0)) with 0. reflexivity.
Qed.

End RateEnds.

Lemma filter_all {A : Type} (p : A -> bool) (l : list A) :
  (forall x, In x l -> p x = true) -> List.filter p l = l.
Proof.
  induction l as [|x l IH]; intros H; [reflexivity|]. cbn [List.filter].
  rewrite (H x (or_introl eq_refl)). f_equal. apply IH.
  intros y Hy. apply H. right. exact Hy.
Qed.

Lemma filter_nothing {A : Type} (p : A -> bool) (l : list A) :
  (forall x, In x l -> p x = false) -> List.filter p l = [].
Proof.
  induction l as [|x l IH]; intros H; [reflexivity|]. cbn [List.filter].
  rewrite (H x (or_introl eq_refl)). apply IH.
  intros y Hy. apply H. right. exact Hy.
Qed.

(** X6.  A list of tasks that is not empty and in which every task is
    completed has the completion rate 100, and one in which no task is
    completed has the completion rate 0, in the student dashboard and in the
    global statistics alike: at both ends the double-precision arithmetic
    loses nothing. *)
Theorem completionRate_at_the_ends (tza now : Z)
    (students : list UserProfile.t) (tasks : list Task.t) :
  tasks <> [] ->
  ((forall t, In t tasks -> Task.completed t = true) ->
   Student.completionRate tasks = 100
   /\ Admin.completionRate (Admin.globalStats tza now students tasks) = 100)
  /\ ((forall t, In t tasks -> Task.completed t = false) ->
      Student.completionRate tasks = 0
      /\ Admin.completionRate (Admin.globalStats tza now students tasks) = 0).
Proof.
  intros Hne.
  assert (Hlen : (length tasks =? 0)%nat = false).
  { destruct tasks; [contradiction | reflexivity]. }
  assert (Hpos : 0 < Z.of_nat (length tasks)).
  { destruct tasks; [contradiction | cbn [length]; lia]. }
  change (Admin.completionRate (Admin.globalStats tza now students tasks))
    with (Student.completionRate tasks).
  unfold Student.completionRate, Student.completedCount. rewrite Hlen.
  split; intros H.
  - rewrite (filter_all _ _ H).
    split; apply RateEnds.percentage_all; exact Hpos.
  - rewrite (filter_nothing _ _ H).
    split; apply RateEnds.percentage_none; exact Hpos.
Qed.

(** ** Date strings *)

Lemma In_zseq (n : nat) : forall start k,
  In k (zseq start n) <-> start <= k < start + Z.of_nat n.
Proof.
  induction n as [|n IH]; intros start k; cbn [zseq In].
  - lia.
  - rewrite IH. lia.
Qed.

Lemma decimal_agrees_4 : decimal_agrees 4 10000 = true.
Proof. vm_compute. reflexivity. Qed.

Lemma decimal_agrees_2 : decimal_agrees 2 100 = true.
Proof. vm_compute. reflexivity. Qed.

Lemma decimal_agrees_spec (width : nat) (bound n : Z) :
  decimal_agrees width bound = true ->
  0 <= n < bound ->
  padStart0 width (toString n) = decimal width n.
Proof.
  unfold decimal_agrees. rewrite forallb_forall. intros H Hn.
  specialize (H n).
  apply bool_decide_eq_true in H; [exact H|].
  apply In_zseq. lia.
Qed.

Lemma decimal_length (w : nat) : forall n, length (decimal w n) = w.
Proof.
  induction w as [|w IH]; intros n; cbn [decimal]; [reflexivity|].
  rewrite length_app, IH. cbn. lia.
Qed.

(** Two strings of the same length followed by more text: the first part
    decides, unless it is the same in both. *)
Lemma js_lt_app (p1 p2 s1 s2 : jsstring) :
  length p1 = length p2 ->
  js_lt (p1 ++ s1) (p2 ++ s2)
  = if decide (p1 = p2) then js_lt s1 s2 else js_lt p1 p2.
Proof.
  revert p2. induction p1 as [|x p1 IH]; intros [|y p2] Hlen;
    try discriminate; cbn [app].
  - destruct (decide _) as [_|Hne]; [reflexivity | contradiction].
  - cbn [js_lt]. injection Hlen as Hlen. rewrite (IH p2 Hlen).
    destruct (N.ltb_spec x y) as [Hxy|Hxy].
    + destruct (decide (x :: p1 = y :: p2)) as [E|_]; [|reflexivity].
      injection E as -> _. lia.
    + destruct (N.ltb_spec y x) as [Hyx|Hyx].
      * destruct (decide (x :: p1 = y :: p2)) as [E|_]; [|reflexivity].
        injection E as -> _. lia.
      * assert (x = y) as -> by lia.
        destruct (decide (p1 = p2)) as [->|Hne].
        -- destruct (decide _) as [_|Hne]; [reflexivity | contradiction].
        -- destruct (decide _) as [E|_]; [|reflexivity].
           injection E as E. contradiction.
Qed.

Lemma pow10_succ (w : nat) : 10 ^ Z.of_nat (S w) = 10 * 10 ^ Z.of_nat w.
Proof. rewrite Nat2Z.inj_succ, Z.pow_succ_r by lia. reflexivity. Qed.

(** On numbers written with the same number of digits, the order of the
    strings is the order of the numbers, and different numbers are written
    differently. *)
Lemma decimal_order (w : nat) : forall x y,
  0 <= x < 10 ^ Z.of_nat w -> 0 <= y < 10 ^ Z.of_nat w ->
  js_lt (decimal w x) (decimal w y) = (x <? y)
  /\ (decimal w x = decimal w y -> x = y).
Proof.
  induction w as [|w IH]; intros x y Hx Hy.
  - change (10 ^ Z.of_nat 0) with 1 in *. assert (x = y) by lia. subst y.
    cbn. rewrite Z.ltb_irrefl. auto.
  - rewrite pow10_succ in Hx, Hy.
    assert (Hx' : 0 <= x / 10 < 10 ^ Z.of_nat w)
      by (split; [apply Z.div_pos; lia | apply Z.div_lt_upper_bound; lia]).
    assert (Hy' : 0 <= y / 10 < 10 ^ Z.of_nat w)
      by (split; [apply Z.div_pos; lia | apply Z.div_lt_upper_bound; lia]).
    destruct (IH (x / 10) (y / 10) Hx' Hy') as [Hlt Hinj].
    pose proof (Z.div_mod x 10 ltac:(lia)) as Ex.
    pose proof (Z.div_mod y 10 ltac:(lia)) as Ey.
    pose proof (Z.mod_pos_bound x 10 ltac:(lia)) as Rx.
    pose proof (Z.mod_pos_bound y 10 ltac:(lia)) as Ry.
    cbn [decimal]. split.
    + rewrite js_lt_app by (rewrite !decimal_length; reflexivity).
      destruct (decide (decimal w (x / 10) = decimal w (y / 10))) as [E|Hne].
      * apply Hinj in E. cbn [js_lt].
        destruct (N.ltb_spec (Z.to_N (48 + x mod 10)) (Z.to_N (48 + y mod 10))),
          (Z.ltb_spec x y); try reflexivity; try lia.
        destruct (N.ltb_spec (Z.to_N (48 + y mod 10)) (Z.to_N (48 + x mod 10)));
          reflexivity.
      * rewrite Hlt.
        assert (x / 10 <> y / 10) by (intros E; apply Hne; rewrite E; reflexivity).
        destruct (Z.ltb_spec (x / 10) (y / 10)), (Z.ltb_spec x y);
          try reflexivity; lia.
    + intros E. apply app_inj_tail in E. destruct E as [E1 E2].
      apply Hinj in E1. lia.
Qed.

Lemma DayFromYear_mono (y1 y2 : Z) :
  y1 <= y2 -> DayFromYear y1 <= DayFromYear y2.
Proof.
  intros H. unfold DayFromYear. Z.to_euclidean_division_equations. lia.
Qed.

Lemma Day_ymd (t : Z) :
  Day t = DayFromYear (YearFromTime t)
          + monthStart (MonthFromTime t) (InLeapYear t) + DateFromTime t - 1.
Proof. unfold DateFromTime, DayWithinYear. lia. Qed.

Ltac month_cases m :=
  let H := fresh "Hcases" in
  assert (H : m = 0 \/ m = 1 \/ m = 2 \/ m = 3 \/ m = 4 \/ m = 5 \/ m = 6
              \/ m = 7 \/ m = 8 \/ m = 9 \/ m = 10 \/ m = 11) by lia;
  repeat (destruct H as [H|H]; [subst m|]); [..|subst m].

Lemma monthStart_mono (m1 m2 l : Z) :
  0 <= m1 -> m1 <= m2 -> m2 <= 11 -> 0 <= l ->
  monthStart m1 l <= monthStart m2 l.
Proof.
  intros H1 H12 H2 Hl.
  month_cases m1; month_cases m2; cbn [monthStart]; lia.
Qed.

Lemma monthStart_succ (y m : Z) :
  0 <= m <= 10 ->
  monthStart (m + 1) (if DaysInYear y =? 366 then 1 else 0)
  = monthStart m (if DaysInYear y =? 366 then 1 else 0) + DaysInMonth y m.
Proof.
  intros Hm. unfold DaysInMonth.
  destruct (DaysInYear y =? 366);
    month_cases m; try lia;
    match goal with
    | |- context [monthStart (?k + 1) ?l] =>
        let v := eval vm_compute in (monthStart (k + 1) l) in
        change (monthStart (k + 1) l) with v
    end; cbn; lia.
Qed.

Lemma date_before_Day (t1 t2 : Z) :
  date_before (YearFromTime t1) (MonthFromTime t1) (DateFromTime t1)
              (YearFromTime t2) (MonthFromTime t2) (DateFromTime t2)
  = (Day t1 <? Day t2).
Proof.
  assert (Hlt : forall a b,
             date_before (YearFromTime a) (MonthFromTime a) (DateFromTime a)
                         (YearFromTime b) (MonthFromTime b) (DateFromTime b)
             = true -> Day a < Day b).
  { intros a b. unfold date_before.
    pose proof (YearFromTime_spec a) as Ya.
    pose proof (YearFromTime_spec b) as Yb.
    pose proof (MonthFromTime_range a) as Ma.
    pose proof (MonthFromTime_range b) as Mb.
    pose proof (DateFromTime_range a) as Da.
    pose proof (DateFromTime_range b) as Db.
    pose proof (Day_ymd a) as Ea. pose proof (Day_ymd b) as Eb.
    unfold InLeapYear in Ea, Eb.
    destruct (Z.ltb_spec (YearFromTime a) (YearFromTime b)) as [Hy|Hy].
    - intros _.
      pose proof (DayFromYear_mono (YearFromTime a + 1) (YearFromTime b)
                    ltac:(lia)). lia.
    - destruct (Z.eqb_spec (YearFromTime a) (YearFromTime b)) as [Ey|Hne];
        [|discriminate]. cbn [orb andb]. rewrite Ey in *.
      destruct (Z.ltb_spec (MonthFromTime a) (MonthFromTime b)) as [Hm|Hm].
      + intros _.
        pose proof (monthStart_succ (YearFromTime b) (MonthFromTime a)
                      ltac:(lia)) as Hs.
        assert (Hl : 0 <= (if DaysInYear (YearFromTime b) =? 366 then 1 else 0))
          by (destruct (DaysInYear (YearFromTime b) =? 366); lia).
        pose proof (monthStart_mono (MonthFromTime a + 1) (MonthFromTime b)
                      _ ltac:(lia) ltac:(lia) ltac:(lia) Hl).
        lia.
      + destruct (Z.eqb_spec (MonthFromTime a) (MonthFromTime b)) as [Em|Hne];
          [|discriminate]. cbn [orb andb]. rewrite Em in *.
        intros Hd. apply Z.ltb_lt in Hd. lia. }
  destruct (date_before _ _ _ _ _ _) eqn:E12.
  - apply Hlt in E12. symmetry. apply Z.ltb_lt. exact E12.
  - symmetry. apply Z.ltb_ge.
    destruct (Z.le_gt_cases (Day t2) (Day t1)) as [H|H]; [exact H|exfalso].
    (* the dates are equal or the second is before the first *)
    unfold date_before in E12.
    destruct (Z.ltb_spec (YearFromTime t1) (YearFromTime t2)) as [Hy|Hy];
      [discriminate|].
    destruct (Z.eqb_spec (YearFromTime t1) (YearFromTime t2)) as [Ey|Hney].
    + cbn [orb andb] in E12.
      destruct (Z.ltb_spec (MonthFromTime t1) (MonthFromTime t2)) as [Hm|Hm];
        [discriminate|].
      destruct (Z.eqb_spec (MonthFromTime t1) (MonthFromTime t2)) as [Em|Hnem].
      * cbn [orb andb] in E12. apply Z.ltb_ge in E12.
        pose proof (Day_ymd t1) as E1. pose proof (Day_ymd t2) as E2.
        unfold InLeapYear in E1, E2. rewrite Ey, Em in E1. lia.
      * assert (Hb : date_before (YearFromTime t2) (MonthFromTime t2)
                       (DateFromTime t2) (YearFromTime t1) (MonthFromTime t1)
                       (DateFromTime t1) = true).
        { unfold date_before. rewrite Ey, Z.ltb_irrefl, Z.eqb_refl.
          cbn [orb andb].
          destruct (Z.ltb_spec (MonthFromTime t2) (MonthFromTime t1));
            [reflexivity | lia]. }
        apply Hlt in Hb. lia.
    + assert (Hb : date_before (YearFromTime t2) (MonthFromTime t2)
                     (DateFromTime t2) (YearFromTime t1) (MonthFromTime t1)
                     (DateFromTime t1) = true).
      { unfold date_before.
        destruct (Z.ltb_spec (YearFromTime t2) (YearFromTime t1));
          [reflexivity | lia]. }
      apply Hlt in Hb. lia.
Qed.

Lemma DaysInMonth_le_31 (y m : Z) : DaysInMonth y m <= 31.
Proof.
  unfold DaysInMonth.
  repeat match goal with
    | |- context [match ?x with _ => _ end] => destruct x
    end; lia.
Qed.

Section DateStrings.

Variable tza : Z.

(** The date string of an instant whose local year has four digits. *)
Lemma format_decimal (t : Z) :
  1 <= Date_getFullYear tza t <= 9999 ->
  format_yyyy_MM_dd tza t
  = decimal 4 (Date_getFullYear tza t) ++ [45%N]
    ++ decimal 2 (Date_getMonth tza t + 1) ++ [45%N]
    ++ decimal 2 (Date_getDate tza t).
Proof.
  intros Hy. unfold format_yyyy_MM_dd, eraYear.
  destruct (Z.ltb_spec 0 (Date_getFullYear tza t)); [|lia].
  pose proof (MonthFromTime_range (LocalTime tza t)) as Hm.
  pose proof (DateFromTime_range (LocalTime tza t)) as Hd.
  pose proof (DaysInMonth_le_31 (YearFromTime (LocalTime tza t))
                (MonthFromTime (LocalTime tza t))) as H31.
  rewrite (decimal_agrees_spec 4 10000 _ decimal_agrees_4) by lia.
  rewrite (decimal_agrees_spec 2 100 (Date_getMonth tza t + 1) decimal_agrees_2)
    by (unfold Date_getMonth; lia).
  rewrite (decimal_agrees_spec 2 100 (Date_getDate tza t) decimal_agrees_2)
    by (unfold Date_getDate; lia).
  reflexivity.
Qed.

Lemma format_order (a b : Z) :
  1 <= Date_getFullYear tza a <= 9999 ->
  1 <= Date_getFullYear tza b <= 9999 ->
  js_lt (format_yyyy_MM_dd tza a) (format_yyyy_MM_dd tza b)
  = (localDay tza a <? localDay tza b).
Proof.
  intros Ha Hb. rewrite !format_decimal by assumption.
  unfold localDay. rewrite <- date_before_Day.
  pose proof (MonthFromTime_range (LocalTime tza a)) as Hma.
  pose proof (MonthFromTime_range (LocalTime tza b)) as Hmb.
  pose proof (DateFromTime_range (LocalTime tza a)) as Hda.
  pose proof (DateFromTime_range (LocalTime tza b)) as Hdb.
  pose proof (DaysInMonth_le_31 (YearFromTime (LocalTime tza a))
                (MonthFromTime (LocalTime tza a))) as H31a.
  pose proof (DaysInMonth_le_31 (YearFromTime (LocalTime tza b))
                (MonthFromTime (LocalTime tza b))) as H31b.
  unfold Date_getFullYear, Date_getMonth, Date_getDate in *.
  set (y1 := YearFromTime (LocalTime tza a)) in *.
  set (y2 := YearFromTime (LocalTime tza b)) in *.
  set (m1 := MonthFromTime (LocalTime tza a)) in *.
  set (m2 := MonthFromTime (LocalTime tza b)) in *.
  set (d1 := DateFromTime (LocalTime tza a)) in *.
  set (d2 := DateFromTime (LocalTime tza b)) in *.
  destruct (decimal_order 4 y1 y2) as [Hy Hyi];
    [change (10 ^ Z.of_nat 4) with 10000; lia
    |change (10 ^ Z.of_nat 4) with 10000; lia|].
  destruct (decimal_order 2 (m1 + 1) (m2 + 1)) as [Hm Hmi];
    [change (10 ^ Z.of_nat 2) with 100; lia
    |change (10 ^ Z.of_nat 2) with 100; lia|].
  destruct (decimal_order 2 d1 d2) as [Hd Hdi];
    [change (10 ^ Z.of_nat 2) with 100; lia
    |change (10 ^ Z.of_nat 2) with 100; lia|].
  unfold date_before.
  rewrite js_lt_app by (rewrite !decimal_length; reflexivity).
  destruct (decide (decimal 4 y1 = decimal 4 y2)) as [Ey|Hney].
  - apply Hyi in Ey. rewrite Ey, Z.ltb_irrefl, Z.eqb_refl. cbn [orb andb].
    rewrite (js_lt_app [45%N] [45%N]) by reflexivity.
    destruct (decide ([45%N] = [45%N])) as [_|Hc]; [|contradiction].
    rewrite js_lt_app by (rewrite !decimal_length; reflexivity).
    destruct (decide (decimal 2 (m1 + 1) = decimal 2 (m2 + 1))) as [Em|Hnem].
    + apply Hmi in Em. assert (m1 = m2) as -> by lia.
      rewrite Z.ltb_irrefl, Z.eqb_refl. cbn [orb andb].
      rewrite (js_lt_app [45%N] [45%N]) by reflexivity.
      destruct (decide ([45%N] = [45%N])) as [_|Hc]; [|contradiction].
      exact Hd.
    + rewrite Hm.
      assert (m1 <> m2) by (intros E; apply Hnem; rewrite E; reflexivity).
      destruct (Z.ltb_spec (m1 + 1) (m2 + 1)), (Z.ltb_spec m1 m2),
        (Z.eqb_spec m1 m2); cbn [orb andb]; try reflexivity; lia.
  - rewrite Hy.
    assert (y1 <> y2) by (intros E; apply Hney; rewrite E; reflexivity).
    destruct (Z.ltb_spec y1 y2), (Z.eqb_spec y1 y2); cbn [orb andb];
      try reflexivity; lia.
Qed.

Lemma format_same_day (a b : Z) :
  localDay tza a = localDay tza b ->
  format_yyyy_MM_dd tza a = format_yyyy_MM_dd tza b.
Proof.
  unfold localDay. intros E.
  unfold format_yyyy_MM_dd, Date_getFullYear, Date_getMonth, Date_getDate,
    DateFromTime, MonthFromTime, InLeapYear, DayWithinYear, YearFromTime.
  rewrite E. reflexivity.
Qed.

Lemma digit_decimal (r : Z) :
  0 <= r <= 9 -> digit (Z.to_N (48 + r)) = Some r.
Proof.
  intros Hr. unfold digit.
  destruct (N.leb_spec 48 (Z.to_N (48 + r))); [|lia].
  destruct (N.leb_spec (Z.to_N (48 + r)) 57); [|lia].
  cbn [andb]. f_equal. lia.
Qed.

(** Reading back the date string of an instant gives the midnight that
    opens its local day. *)
Lemma parseISO_date_format (t : Z) :
  1 <= Date_getFullYear tza t <= 9999 ->
  parseISO_date tza (format_yyyy_MM_dd tza t) = Ms (startOfDay_ms tza t).
Proof.
  intros Hy. rewrite format_decimal by exact Hy.
  pose proof (MonthFromTime_range (LocalTime tza t)) as Hm.
  pose proof (DateFromTime_range (LocalTime tza t)) as Hd.
  pose proof (DaysInMonth_le_31 (YearFromTime (LocalTime tza t))
                (MonthFromTime (LocalTime tza t))) as H31.
  pose proof (MakeDay_of_time (LocalTime tza t) 0) as Hmk.
  rewrite !Z.add_0_r in Hmk.
  rewrite startOfDay_ms_spec. unfold localDay. rewrite <- Hmk.
  unfold Date_getFullYear, Date_getMonth, Date_getDate in *.
  set (y := YearFromTime (LocalTime tza t)) in *.
  set (m := MonthFromTime (LocalTime tza t)) in *.
  set (d := DateFromTime (LocalTime tza t)) in *.
  cbn [decimal app]. unfold parseISO_date.
  rewrite !digit_decimal
    by (match goal with
        | |- 0 <= ?x mod 10 <= 9 =>
            pose proof (Z.mod_pos_bound x 10 ltac:(lia)); lia
        end).
  cbv zeta.
  assert (Ey : 1000 * (y / 10 / 10 / 10 mod 10) + 100 * (y / 10 / 10 mod 10)
               + 10 * (y / 10 mod 10) + y mod 10 = y).
  { Z.to_euclidean_division_equations. lia. }
  assert (Em : 10 * ((m + 1) / 10 mod 10) + (m + 1) mod 10 - 1 = m).
  { Z.to_euclidean_division_equations. lia. }
  assert (Ed : 10 * (d / 10 mod 10) + d mod 10 = d).
  { Z.to_euclidean_division_equations. lia. }
  rewrite Ey, Em, Ed.
  change (45 =? 45)%N with true. cbn [andb].
  destruct (Z.leb_spec 0 m); [|lia].
  destruct (Z.leb_spec m 11); [|lia].
  destruct (Z.leb_spec 1 d); [|lia].
  destruct (Z.leb_spec d (DaysInMonth y m)); [|lia].
  reflexivity.
Qed.

End DateStrings.

(** X7.  On two instants whose local years are between 1 and 9999, the
    order of the [yyyy-MM-dd] strings that [handleAddTask] compares is the
    order of the local days, and the two strings are equal exactly when the
    instants fall on the same local day. *)
Theorem date_strings_order_as_days (tza a b : Z) :
  1 <= Date_getFullYear tza a <= 9999 ->
  1 <= Date_getFullYear tza b <= 9999 ->
  js_lt (format_yyyy_MM_dd tza a) (format_yyyy_MM_dd tza b)
  = (localDay tza a <? localDay tza b)
  /\ (format_yyyy_MM_dd tza a = format_yyyy_MM_dd tza b
      <-> localDay tza a = localDay tza b).
Proof.
  intros Ha Hb. split; [apply format_order; assumption|]. split.
  - intros E.
    pose proof (format_order tza a b Ha Hb) as H1.
    pose proof (format_order tza b a Hb Ha) as H2.
    rewrite E, js_lt_irrefl in H1. rewrite E, js_lt_irrefl in H2.
    symmetry in H1, H2. apply Z.ltb_ge in H1, H2. lia.
  - apply format_same_day.
Qed.

(** In a zone less than a day from UTC, a [Date] can hold every instant of
    the local years 1 to 9999 and the midnight that opens its day. *)
Lemma year_in_range (tza t : Z) :
  Z.abs tza < msPerDay -> 1 <= Date_getFullYear tza t <= 9999 ->
  dueDay tza (Ms t) = Some (localDay tza t).
Proof.
  intros Hz Hy. unfold Date_getFullYear in Hy.
  pose proof (YearFromTime_spec (LocalTime tza t)) as Hs.
  pose proof (DayFromYear_mono 1 _ (proj1 Hy)) as H1.
  pose proof (DayFromYear_mono (YearFromTime (LocalTime tza t) + 1) 10000
                ltac:(lia)) as H2.
  change (DayFromYear 1) with (-719162) in H1.
  change (DayFromYear 10000) with 2932897 in H2.
  pose proof (Z.div_mod (t + tza) 86400000 ltac:(lia)) as Hdm.
  pose proof (Z.mod_pos_bound (t + tza) 86400000 ltac:(lia)) as Hr.
  unfold dueDay, in_range, midnightOf, localDay, UTC, MakeDate, Day,
    LocalTime, msPerDay in *.
  destruct (Z.leb_spec (-8640000000000000) t),
    (Z.leb_spec t 8640000000000000),
    (Z.leb_spec (-8640000000000000)
       ((t + tza) / 86400000 * 86400000 + 0 - tza)),
    (Z.leb_spec ((t + tza) / 86400000 * 86400000 + 0 - tza)
       8640000000000000); cbn; try reflexivity; lia.
Qed.

Lemma startOfDay_year (tza t : Z) :
  Z.abs tza < msPerDay -> 1 <= Date_getFullYear tza t <= 9999 ->
  startOfDay tza (Ms t) = Ms (startOfDay_ms tza t)
  /\ startOfDay tza (Ms (startOfDay_ms tza t)) = Ms (startOfDay_ms tza t)
  /\ dueDay tza (Ms (startOfDay_ms tza t)) = Some (localDay tza t).
Proof.
  intros Hz Hy.
  assert (E : startOfDay tza (Ms t) = Ms (startOfDay_ms tza t)).
  { rewrite startOfDay_dueDay, (year_in_range tza t Hz Hy). reflexivity. }
  split; [exact E|]. split; [rewrite <- E; apply startOfDay_idem|].
  pose proof (year_in_range tza t Hz Hy) as Hd.
  apply dueDay_Some in Hd. destruct Hd as (t' & _ & _ & Hk & _).
  apply dueDay_midnight. exact Hk.
Qed.

(** X8.  In a zone less than a day from UTC, a signed-in user adds a task
    with a title that is not blank, for the day picked in the date field
    (the date string of any instant of that day; years between 1 and 9999):
    the task is refused as a task for the past exactly when the picked day
    is before the current local day; otherwise it is stored, due at the
    midnight that opens the picked day, and at that moment it is not in the
    Overdue column: it is in the Today column when the picked day is today
    and in the Upcoming column when it is later. *)
Theorem task_added_for_a_picked_day (tza picked now : Z)
    (uid newTaskTitle newId : jsstring) (s : store) :
  Z.abs tza < msPerDay ->
  1 <= Date_getFullYear tza picked <= 9999 ->
  1 <= Date_getFullYear tza now <= 9999 ->
  trim newTaskTitle <> [] ->
  let result :=
    Student.handleAddTask tza (parseISO_date tza) (Some uid) newTaskTitle
      (format_yyyy_MM_dd tza picked) now newId false s in
  let added :=
    Task.mk newId uid (trim newTaskTitle) None (Ms (startOfDay_ms tza picked))
            false Missing now in
  (localDay tza picked < localDay tza now ->
   result = (Alert (str "You cannot schedule tasks for the past!"), s))
  /\ (localDay tza now <= localDay tza picked ->
      result = (Done, <[newId := added]> s)
      /\ Student.overdueTasks tza now [added] = []
      /\ (localDay tza picked = localDay tza now ->
          Student.todayTasks tza now [added] = [added])
      /\ (localDay tza now < localDay tza picked ->
          Student.upcomingTasks tza now [added] = [added])).
Proof.
  intros Hz Hp Hn Ht result added. subst result.
  destruct (startOfDay_year tza picked Hz Hp) as (_ & Hstart & Hday).
  pose proof (format_order tza picked now Hp Hn) as Hlt.
  unfold Student.handleAddTask.
  destruct (trim newTaskTitle) as [|c l] eqn:E; [contradiction|].
  cbn [truthy negb]. rewrite Hlt. split.
  - intros H. destruct (Z.ltb_spec (localDay tza picked) (localDay tza now));
      [reflexivity | lia].
  - intros H. destruct (Z.ltb_spec (localDay tza picked) (localDay tza now));
      [lia|].
    rewrite (parseISO_date_format tza picked Hp), Hstart. unfold addDoc.
    fold added. split; [reflexivity|].
    rewrite overdueTasks_due_before, todayTasks_due_on,
      upcomingTasks_due_after.
    cbn [List.filter]. unfold due_before, due_on, due_after.
    subst added. cbn [Task.dueDate Task.completed negb andb].
    rewrite Hday.
    split; [|split].
    + destruct (Z.ltb_spec (localDay tza picked) (localDay tza now));
        [lia | reflexivity].
    + intros Eq. rewrite Eq, Z.eqb_refl. reflexivity.
    + intros Hgt.
      destruct (Z.ltb_spec (localDay tza now) (localDay tza picked));
        [reflexivity | lia].
Qed.

(** X9.  In a zone less than a day from UTC, opening the edit form on a
    stored task whose due date is a date (local year between 1 and 9999) and
    saving it at once: the form shows the title and the day of the due date
    as [yyyy-MM-dd], which reads back as the midnight that opens that day;
    the save goes through, and it replaces the stored title by the trimmed
    title and the stored due date by that midnight, every other field and
    every other document staying as it is.  So the collection is left
    exactly as it was precisely when the title is trimmed already and the
    due date is a local midnight. *)
Theorem saving_an_unchanged_edit_keeps_the_task (tza : Z) (task : Task.t)
    (d : Z) (s : store) :
  Z.abs tza < msPerDay ->
  Task.dueDate task = Ms d ->
  1 <= Date_getFullYear tza d <= 9999 ->
  trim (Task.title task) <> [] ->
  s !! Task.id task = Some task ->
  let editDate := format_yyyy_MM_dd tza d in
  let saved :=
    Task.mk (Task.id task) (Task.userId task) (trim (Task.title task))
      (Task.description task) (Ms (startOfDay_ms tza d))
      (Task.completed task) (Task.completedAt task) (Task.createdAt task) in
  Student.openEditModal tza task = Some (task, Task.title task, editDate)
  /\ parseISO_date tza editDate = Ms (startOfDay_ms tza d)
  /\ Student.handleUpdateTask tza (parseISO_date tza) (Some task)
       (Task.title task) editDate false s
     = (Done, <[Task.id task := saved]> s)
  /\ (<[Task.id task := saved]> s = s
      <-> trim (Task.title task) = Task.title task
          /\ startOfDay_ms tza d = d).
Proof.
  intros Hz Hd Hy Ht Hs editDate saved.
  pose proof (parseISO_date_format tza d Hy) as Hparse.
  destruct (startOfDay_year tza d Hz Hy) as (_ & Hstart & _).
  pose proof (year_in_range tza d Hz Hy) as Hday.
  apply dueDay_Some in Hday. destruct Hday as (d' & [= <-] & Hin & _).
  split; [|split; [exact Hparse|split]].
  - unfold Student.openEditModal, format. rewrite Hd. cbn [toDate].
    rewrite TimeClip_in_range, Hin. reflexivity.
  - unfold Student.handleUpdateTask, updateDoc.
    destruct (trim (Task.title task)) as [|c l] eqn:E; [contradiction|].
    cbn [truthy negb]. subst editDate. rewrite Hparse, Hs, Hstart.
    reflexivity.
  - split.
    + intros E.
      assert (E' : <[Task.id task := saved]> s !! Task.id task
                   = s !! Task.id task) by (rewrite E; reflexivity).
      rewrite lookup_insert_eq, Hs in E'. injection E' as E'.
      split.
      * rewrite <- E' at 2. reflexivity.
      * assert (E2 : Task.dueDate saved = Task.dueDate task)
          by (rewrite E'; reflexivity).
        rewrite Hd in E2. injection E2 as E2. exact E2.
    + intros [E1 E2]. subst saved. rewrite E1, E2, <- Hd.
      replace (Task.mk _ _ _ _ _ _ _ _) with task
        by (destruct task; reflexivity).
      apply insert_id. exact Hs.
Qed.

(** ** The task explorer *)

Module CeilBounds.
Import JsNumber.

(** The quotient of a length by ten, rounded to a double and then up to an
    integer, is the exact quotient rounded up. *)
Lemma Math_ceil_div_10 (n : Z) :
  0 <= n < 2 ^ 32 ->
  Math_ceil (div (of_int n) (of_int 10)) = (n + 9) / 10.
Proof.
  intros Hn. unfold div, of_int. cbn [mant expo].
  change (0 <=? 0 - 0) with true. cbv iota.
  change (2 ^ (0 - 0)) with 1. rewrite Z.mul_1_r.
  destruct (Z.eq_dec n 0) as [->|Hn0]; [reflexivity|].
  destruct (RateBounds.round53_nearest n 10 ltac:(lia) ltac:(lia))
    as (Hbits & _ & Hnear).
  assert (He : expo (round53 n 10) <= -24).
  { unfold round53. destruct (Z.eqb_spec n 0); [lia|].
    pose proof (RateBounds.ilog2_le n 10) as Hi.
    change (Z.log2 10) with 3 in Hi.
    assert (Z.log2 n < 32) by (apply Z.log2_lt_pow2; lia).
    destruct (0 <=? ilog2 n 10 - 52); cbn [expo]; lia. }
  specialize (Hnear ltac:(lia)).
  set (m := mant (round53 n 10)) in *.
  set (e := expo (round53 n 10)) in *.
  unfold Math_ceil. fold m e.
  destruct (Z.leb_spec 0 e) as [H0|_]; [lia|].
  assert (HE : 2 ^ 24 <= 2 ^ (- e)) by (apply Z.pow_le_mono_r; lia).
  change (2 ^ 24) with 16777216 in HE.
  set (E := 2 ^ (- e)) in *.
  pose proof (Z.div_mod n 10 ltac:(lia)) as Hdm.
  pose proof (Z.mod_pos_bound n 10 ltac:(lia)) as Hr.
  set (j := n / 10) in *. set (r := n mod 10) in *.
  assert (Hk : (n + 9) / 10 = if r =? 0 then j else j + 1).
  { destruct (Z.eqb_spec r 0) as [E0|E0].
    - symmetry. apply (Z.div_unique _ _ _ 9); lia.
    - symmetry. apply (Z.div_unique _ _ _ (r - 1)); lia. }
  rewrite Hk.
  destruct (Z.eqb_spec r 0) as [E0|E0].
  - assert (Hm : m = j * E) by nia.
    rewrite Hm. replace (- (j * E)) with (- j * E) by lia.
    rewrite Z.div_mul by lia. lia.
  - assert (Hlo : j * E < m) by nia.
    assert (Hhi : m <= (j + 1) * E) by nia.
    assert (Hq : - m / E = - (j + 1)).
    { symmetry. apply (Z.div_unique _ _ _ ((j + 1) * E - m)); lia. }
    rewrite Hq. lia.
Qed.

End CeilBounds.

(** ** Pages *)

Lemma zseq_seq (n : nat) : forall start,
  zseq start n = List.map (fun i => start + Z.of_nat i) (seq 0 n).
Proof.
  induction n as [|n IH]; intros start; [reflexivity|].
  cbn [zseq seq List.map]. f_equal; [lia|].
  rewrite IH, <- seq_shift, List.map_map.
  apply map_ext. intros i. lia.
Qed.

Lemma firstn_plus {A : Type} (a b : nat) : forall l : list A,
  firstn (a + b) l = firstn a l ++ firstn b (skipn a l).
Proof.
  induction a as [|a IH]; intros [|x l]; cbn; try reflexivity.
  - destruct b; reflexivity.
  - f_equal. apply IH.
Qed.

Lemma slice_nonneg {A : Type} (a b : Z) (l : list A) :
  0 <= a <= b ->
  JsArray.slice a b l = firstn (Z.to_nat (b - a)) (skipn (Z.to_nat a) l).
Proof.
  intros Hab. unfold JsArray.slice.
  destruct (Z.ltb_spec a 0); [lia|]. destruct (Z.ltb_spec b 0); [lia|].
  destruct (Z.le_gt_cases (Z.of_nat (length l)) a) as [Hlen|Hlen].
  - rewrite (skipn_all2 l (n := Z.to_nat (Z.min a (Z.of_nat (length l)))))
      by lia.
    rewrite (skipn_all2 l (n := Z.to_nat a)) by lia.
    rewrite !firstn_nil. reflexivity.
  - rewrite (Z.min_l a) by lia.
    destruct (Z.le_gt_cases b (Z.of_nat (length l))) as [Hb|Hb].
    + rewrite (Z.min_l b) by lia. reflexivity.
    + rewrite (Z.min_r b) by lia.
      rewrite !firstn_all2 by (rewrite length_skipn; lia). reflexivity.
Qed.

Lemma chunks_concat {A : Type} (c : nat) (l : list A) (n : nat) :
  concat (List.map (fun i => firstn c (skipn (c * i) l)) (seq 0 n))
  = firstn (c * n) l.
Proof.
  induction n as [|n IH].
  - rewrite Nat.mul_0_r. reflexivity.
  - rewrite seq_S, List.map_app, concat_app, IH. cbn [List.map concat].
    rewrite app_nil_r.
    replace (c * S n)%nat with (c * n + c)%nat by lia.
    rewrite firstn_plus. reflexivity.
Qed.

Lemma paginatedTasks_chunk (l : list Task.t) (p : Z) :
  1 <= p ->
  Admin.paginatedTasks l p
  = firstn 10 (skipn (10 * Z.to_nat (p - 1)) l).
Proof.
  intros Hp. unfold Admin.paginatedTasks, Admin.tasksPerPage.
  rewrite slice_nonneg by lia. f_equal; [lia | f_equal; lia].
Qed.

(** X10.  For a list of fewer than 2^32 tasks, [totalTaskPages] is the exact
    quotient of the length by ten, rounded up (the double-precision division
    and [Math.ceil] lose nothing); the pages 1 to [totalTaskPages], one
    after the other, are the list; each of them has a task and ten at most,
    all but the last have ten, and the two numbers of the "Showing" line
    span exactly the tasks of the page; a page after the last is empty. *)
Theorem pages_cover_the_filtered_tasks (l : list Task.t) :
  Z.of_nat (length l) < 2 ^ 32 ->
  let total := Admin.totalTaskPages l in
  total = (Z.of_nat (length l) + 9) / 10
  /\ concat (List.map (Admin.paginatedTasks l) (zseq 1 (Z.to_nat total))) = l
  /\ (forall p, 1 <= p <= total ->
        Admin.paginatedTasks l p <> []
        /\ (length (Admin.paginatedTasks l p) <= 10)%nat
        /\ (p < total -> length (Admin.paginatedTasks l p) = 10%nat)
        /\ Z.of_nat (length (Admin.paginatedTasks l p))
           = Admin.showingTo l p - Admin.showingFrom l p + 1)
  /\ (forall p, total < p -> Admin.paginatedTasks l p = []).
Proof.
  intros Hlen total.
  assert (Ht : total = (Z.of_nat (length l) + 9) / 10).
  { subst total. unfold Admin.totalTaskPages, Admin.tasksPerPage.
    apply CeilBounds.Math_ceil_div_10. lia. }
  pose proof (Z.div_mod (Z.of_nat (length l) + 9) 10 ltac:(lia)) as Hdm.
  pose proof (Z.mod_pos_bound (Z.of_nat (length l) + 9) 10 ltac:(lia)) as Hr.
  rewrite <- Ht in Hdm.
  split; [exact Ht|]. split; [|split].
  - rewrite zseq_seq, List.map_map.
    rewrite (map_ext _ (fun i => firstn 10 (skipn (10 * i) l))).
    + rewrite chunks_concat. apply firstn_all2. lia.
    + intros i. rewrite paginatedTasks_chunk by lia.
      do 3 f_equal. lia.
  - intros p Hp. rewrite paginatedTasks_chunk by lia.
    assert (Hlenp : length (firstn 10 (skipn (10 * Z.to_nat (p - 1)) l))
                    = Nat.min 10 (length l - 10 * Z.to_nat (p - 1)))
      by (rewrite length_firstn, length_skipn; reflexivity).
    split; [|split; [|split]].
    + intros E. rewrite E in Hlenp. cbn [length] in Hlenp. lia.
    + lia.
    + intros Hlt. lia.
    + unfold Admin.showingTo, Admin.showingFrom, Admin.tasksPerPage. lia.
  - intros p Hp. rewrite paginatedTasks_chunk by lia.
    rewrite skipn_all2 by lia. apply firstn_nil.
Qed.

(** X11.  From a page between 1 and the number of pages, the Previous and
    the Next button lead to a page between 1 and the number of pages: one
    page back or forth, except where the button is disabled, and there the
    page would stay the same. *)
Theorem page_buttons_stay_within_pages (totalTaskPages taskPage : Z) :
  1 <= taskPage <= totalTaskPages ->
  1 <= Admin.previousPage taskPage <= totalTaskPages
  /\ 1 <= Admin.nextPage totalTaskPages taskPage <= totalTaskPages
  /\ Admin.previousPage taskPage
     = (if Admin.previousDisabled taskPage then taskPage else taskPage - 1)
  /\ Admin.nextPage totalTaskPages taskPage
     = (if Admin.nextDisabled totalTaskPages taskPage then taskPage
        else taskPage + 1).
Proof.
  intros Hp.
  unfold Admin.previousPage, Admin.nextPage, Admin.previousDisabled,
    Admin.nextDisabled.
  destruct (Z.eqb_spec taskPage 1), (Z.eqb_spec taskPage totalTaskPages),
    (Z.eqb_spec totalTaskPages 0); cbn [orb]; lia.
Qed.


Section Explorer.

Variables tza now : Z.
Variable toLowerCase : jsstring -> jsstring.


Variable students : list UserProfile.t.




End Explorer.

(** ** The activity feed and the tasks of a student *)

Lemma StronglySorted_app_cross {A : Type} (R : A -> A -> Prop)
    (l1 l2 : list A) :
  StronglySorted R (l1 ++ l2) ->
  forall a b, In a l1 -> In b l2 -> R a b.
Proof.
  induction l1 as [|x l1 IH]; intros Hs a b Ha Hb; [destruct Ha|].
  cbn [app] in Hs. apply StronglySorted_inv in Hs. destruct Hs as [Hs Hx].
  destruct Ha as [<-|Ha].
  - rewrite List.Forall_forall in Hx. apply Hx. apply in_or_app. right.
    exact Hb.
  - exact (IH Hs a b Ha Hb).
Qed.

Section Newest.

Context {A : Type}.
Variable key : A -> Z.

Lemma desc_key (a b : A) : (key b - key a <=? 0) = (- key a <=? - key b).
Proof.
  destruct (Z.leb_spec (key b - key a) 0), (Z.leb_spec (- key a) (- key b));
    auto; lia.
Qed.

(** Sorting with [(a, b) => key(b) - key(a)] and keeping the first [k]:
    what is kept is in descending order of the key, and nothing that is
    left out has a larger key than something kept. *)
Lemma newest_first (k : nat) (l : list A) :
  let sorted := JsArray.sort (fun a b => key b - key a) l in
  StronglySorted (fun a b => key b <= key a) (firstn k sorted)
  /\ length (firstn k sorted) = Nat.min k (length l)
  /\ Permutation l (firstn k sorted ++ skipn k sorted)
  /\ (forall a b, In a (firstn k sorted) -> In b (skipn k sorted) ->
                  key b <= key a).
Proof.
  intros sorted.
  assert (Hs : StronglySorted (fun a b => key b <= key a) sorted).
  { eapply StronglySorted_weaken;
      [|apply (sort_sorted (fun a b => key b - key a) (fun a => - key a)
                 desc_key)].
    intros a b. unfold key_le. lia. }
  assert (Hp : Permutation l sorted) by apply sort_perm.
  split; [|split; [|split]].
  - apply StronglySorted_firstn. exact Hs.
  - rewrite length_firstn, (Permutation_length Hp). reflexivity.
  - rewrite firstn_skipn. exact Hp.
  - apply StronglySorted_app_cross. rewrite firstn_skipn. exact Hs.
Qed.

End Newest.


(** X14.  Selecting a student gives exactly the tasks of that student, in
    newest-first order of creation; the Recent Tasks list shows five of them
    (all, if they are fewer), and none of those left out was created after
    one that is shown. *)
Theorem recent_tasks_are_the_newest (allTasks : list Task.t)
    (student : UserProfile.t) :
  let studentTasks := Admin.handleStudentSelect allTasks student in
  let recent := Admin.recentTasks studentTasks in
  (forall t, In t studentTasks
             <-> In t allTasks /\ Task.userId t = UserProfile.uid student)
  /\ length studentTasks
     = length (List.filter
                 (fun t => bool_decide (Task.userId t = UserProfile.uid student))
                 allTasks)
  /\ StronglySorted (fun a b => Task.createdAt b <= Task.createdAt a)
       studentTasks
  /\ length recent = Nat.min 5 (length studentTasks)
  /\ (exists rest,
        Permutation studentTasks (recent ++ rest)
        /\ forall a b, In a recent -> In b rest ->
                       Task.createdAt b <= Task.createdAt a).
Proof.
  intros studentTasks recent.
  set (own := List.filter
                (fun t => bool_decide (Task.userId t = UserProfile.uid student))
                allTasks).
  assert (Hp : Permutation own studentTasks) by apply sort_perm.
  destruct (newest_first Task.createdAt 5 own) as (Hs & Hlen & Hp5 & Hcross).
  destruct (newest_first Task.createdAt (length own) own) as (Hsall & _).
  split; [|split; [|split; [|split]]].
  - intros t. split.
    + intros Ht. apply (Permutation_in _ (Permutation_sym Hp)) in Ht.
      apply filter_In in Ht. destruct Ht as [Hin Hb].
      apply bool_decide_eq_true in Hb. auto.
    + intros [Hin Hu]. apply (Permutation_in _ Hp).
      apply filter_In. split; [exact Hin|].
      apply bool_decide_eq_true. exact Hu.
  - symmetry. apply Permutation_length. exact Hp.
  - rewrite firstn_all2 in Hsall; [exact Hsall|].
    rewrite <- (Permutation_length (sort_perm _ own)). lia.
  - subst recent. unfold Admin.recentTasks, JsArray.slice0.
    rewrite length_firstn. reflexivity.
  - exists (skipn 5 studentTasks). split.
    + subst recent. unfold Admin.recentTasks, JsArray.slice0.
      rewrite firstn_skipn. reflexivity.
    + exact Hcross.
Qed.

(** ** The student directory *)

Section SortByOrder.

Context {A : Type}.
Variable cmp : A -> A -> Z.
Variable R : A -> A -> Prop.
Hypothesis cmp_first : forall a b, cmp a b <= 0 -> R a b.
Hypothesis cmp_after : forall a b, 0 < cmp a b -> R b a.
Hypothesis R_trans : forall a b c, R a b -> R b c -> R a c.



End SortByOrder.

Module DoubleOrder.
Import JsNumber.




End DoubleOrder.


Lemma slice_prefix {A : Type} (n : Z) (l : list A) :
  0 <= n -> JsArray.slice 0 n l = firstn (Z.to_nat n) l.
Proof.
  intros Hn. rewrite slice_nonneg by lia.
  change (Z.to_nat 0) with 0%nat. cbn [skipn]. rewrite Z.sub_0_r.
  reflexivity.
Qed.

(** X16.  After [clicks] clicks on Load More the directory shows the first
    [10 * (clicks + 1)] students; the number on the button is the number of
    students not shown, the button is there exactly when that number is
    positive, and once the count reaches the length of the list all students
    are shown. *)
Theorem load_more_shows_ten_more (sortedStudents : list UserProfile.t)
    (clicks : nat) :
  let visibleStudentCount := Nat.iter clicks Admin.loadMore 10 in
  let shown := Admin.visibleStudents sortedStudents visibleStudentCount in
  visibleStudentCount = 10 * (Z.of_nat clicks + 1)
  /\ shown = firstn (10 * (clicks + 1)) sortedStudents
  /\ Admin.remainingStudents sortedStudents visibleStudentCount
     = Z.max 0 (Z.of_nat (length sortedStudents) - visibleStudentCount)
  /\ (Admin.loadMoreShown sortedStudents visibleStudentCount = true
      <-> 0 < Admin.remainingStudents sortedStudents visibleStudentCount)
  /\ (Z.of_nat (length sortedStudents) <= visibleStudentCount ->
      shown = sortedStudents).
Proof.
  intros count shown.
  assert (Hc : count = 10 * (Z.of_nat clicks + 1)).
  { subst count. induction clicks as [|k IH]; [reflexivity|].
    cbn [Nat.iter nat_rect]. unfold Nat.iter in IH. rewrite IH.
    unfold Admin.loadMore. lia. }
  assert (Hs : shown = firstn (10 * (clicks + 1)) sortedStudents).
  { subst shown. unfold Admin.visibleStudents.
    rewrite slice_prefix by lia. f_equal. lia. }
  assert (Hlen : length shown
                 = Nat.min (10 * (clicks + 1)) (length sortedStudents))
    by (rewrite Hs; apply length_firstn).
  split; [exact Hc|]. split; [exact Hs|].
  unfold Admin.remainingStudents, Admin.loadMoreShown. fold shown.
  split; [lia|]. split.
  - destruct (Nat.ltb_spec (length shown) (length sortedStudents));
      split; intros; try reflexivity; try discriminate; lia.
  - intros Hall. rewrite Hs. apply firstn_all2. lia.
Qed.

(** ** The days and the counts of the chart *)

(** The days of a month are the days from its first to its last. *)
Lemma month_window (t y m : Z) :
  0 <= m <= 11 ->
  (MakeDay y m 1 <= Day t <= MakeDay y (m + 1) 0)
  <-> (YearFromTime t = y /\ MonthFromTime t = m).
Proof.
  intros Hm.
  pose proof (MakeDay_month_span y m Hm) as Hspan.
  assert (Hfirst : MakeDay y m 1
                   = DayFromYear y
                     + monthStart m (if DaysInYear y =? 366 then 1 else 0)).
  { unfold MakeDay. rewrite (Z.div_small m 12), (Z.mod_small m 12) by lia.
    rewrite Z.add_0_r. lia. }
  pose proof (YearFromTime_spec t) as Hy.
  pose proof (MonthFromTime_range t) as Hmt.
  pose proof (DateFromTime_range t) as Hd.
  pose proof (Day_ymd t) as Ed. unfold InLeapYear in Ed.
  pose proof (DayFromYear_succ y) as Hsucc.
  assert (Hl : 0 <= (if DaysInYear y =? 366 then 1 else 0) <= 1)
    by (destruct (DaysInYear y =? 366); lia).
  pose proof (monthStart_mono 0 m _ ltac:(lia) ltac:(lia) ltac:(lia)
                (proj1 Hl)) as Hms0.
  cbn [monthStart] in Hms0.
  assert (Hyear : monthStart m (if DaysInYear y =? 366 then 1 else 0)
                  + DaysInMonth y m <= DaysInYear y).
  { destruct (Z.eq_dec m 11) as [->|Hne].
    - unfold DaysInMonth, DaysInYear in *. cbn [monthStart].
      destruct (negb (y mod 4 =? 0)), (negb (y mod 100 =? 0)),
        (negb (y mod 400 =? 0)); cbn; lia.
    - rewrite <- monthStart_succ by lia.
      pose proof (monthStart_mono (m + 1) 11 _ ltac:(lia) ltac:(lia)
                    ltac:(lia) (proj1 Hl)) as Hmono.
      cbn [monthStart] in Hmono.
      unfold DaysInYear in *.
      destruct (negb (y mod 4 =? 0)), (negb (y mod 100 =? 0)),
        (negb (y mod 400 =? 0)); cbn in *; lia. }
  split.
  - intros [Hlo Hhi].
    assert (Ey : YearFromTime t = y).
    { destruct (Z.lt_trichotomy (YearFromTime t) y) as [Hlt|[E|Hgt]];
        [|exact E|].
      - pose proof (DayFromYear_mono (YearFromTime t + 1) y ltac:(lia)). lia.
      - pose proof (DayFromYear_mono (y + 1) (YearFromTime t) ltac:(lia)).
        lia. }
    split; [exact Ey|]. rewrite Ey in *.
    destruct (Z.lt_trichotomy (MonthFromTime t) m) as [Hlt|[E|Hgt]];
      [|exact E|]; exfalso.
    + pose proof (monthStart_succ y (MonthFromTime t) ltac:(lia)) as Hs.
      pose proof (monthStart_mono (MonthFromTime t + 1) m _ ltac:(lia)
                    ltac:(lia) ltac:(lia) (proj1 Hl)). lia.
    + pose proof (monthStart_succ y m ltac:(lia)) as Hs.
      pose proof (monthStart_mono (m + 1) (MonthFromTime t) _ ltac:(lia)
                    ltac:(lia) ltac:(lia) (proj1 Hl)). lia.
  - intros [Ey Em]. rewrite Ey, Em in *. lia.
Qed.

Section ChartSeries.

Variable tza : Z.

(** From the midnight that opens day [d0], the loop yields the midnights of
    the days up to the day of [endTime]. *)
Lemma eachDay_loop_days (endTime : Z) (n : nat) :
  forall d0 : Z,
    Z.of_nat n = localDay tza endTime - d0 + 1 ->
    eachDay_loop tza endTime (UTC tza (MakeDate d0 0))
    = List.map (midnightOf tza) (zseq d0 n).
Proof.
  induction n as [|n IH]; intros d0 Hn.
  - rewrite eachDay_loop_done; [reflexivity|].
    pose proof (midnight_le tza d0 endTime). lia.
  - rewrite eachDay_loop_step by (apply midnight_le; lia).
    rewrite nextDay_midnight. cbn [zseq List.map]. f_equal. apply IH. lia.
Qed.

Lemma eachDayOfInterval_days (start end_ : Z) :
  start <= end_ ->
  eachDayOfInterval tza start end_
  = Some (List.map (midnightOf tza)
            (zseq (localDay tza start)
               (Z.to_nat (localDay tza end_ - localDay tza start + 1)))).
Proof.
  intros Hle. unfold eachDayOfInterval.
  destruct (Z.leb_spec start end_); [|lia]. f_equal.
  rewrite startOfDay_ms_spec.
  assert (Hd : localDay tza start <= localDay tza end_)
    by (apply Z.div_le_mono; unfold msPerDay, LocalTime; lia).
  apply eachDay_loop_days. lia.
Qed.

Lemma isSameDay_ms_localDay (a b : Z) :
  isSameDay_ms tza a b = (localDay tza a =? localDay tza b).
Proof.
  unfold isSameDay_ms. rewrite !startOfDay_ms_spec.
  unfold UTC, MakeDate, msPerDay.
  destruct (Z.eqb_spec (localDay tza a) (localDay tza b)) as [->|Hne].
  - apply Z.eqb_refl.
  - apply Z.eqb_neq. lia.
Qed.

Lemma completedOn_midnight (k : Z) (t : Task.t) :
  Admin.completedOn tza (midnightOf tza k) t
  = Task.completed t
    && match Task.completedAt t with
       | Num c => negb (c =? 0) && (localDay tza c =? k)
       | Null | Missing => false
       end.
Proof.
  unfold Admin.completedOn, midnightOf. f_equal.
  destruct (Task.completedAt t) as [c| |]; [|reflexivity..].
  rewrite isSameDay_ms_localDay, localDay_midnight. reflexivity.
Qed.

Lemma count_day_in_zseq (x : Z) (n : nat) : forall d0,
  length (List.filter (fun k => x =? k) (zseq d0 n))
  = if (d0 <=? x) && (x <? d0 + Z.of_nat n) then 1%nat else 0%nat.
Proof.
  induction n as [|n IH]; intros d0; cbn [zseq List.filter].
  - destruct (Z.leb_spec d0 x), (Z.ltb_spec x (d0 + Z.of_nat 0)); cbn;
      try reflexivity; lia.
  - destruct (Z.eqb_spec x d0) as [->|Hne]; cbn [length]; rewrite IH.
    + destruct (Z.leb_spec (d0 + 1) d0), (Z.leb_spec d0 d0),
        (Z.ltb_spec d0 (d0 + 1 + Z.of_nat n)),
        (Z.ltb_spec d0 (d0 + Z.of_nat (S n))); cbn; try reflexivity; lia.
    + destruct (Z.leb_spec (d0 + 1) x), (Z.leb_spec d0 x),
        (Z.ltb_spec x (d0 + 1 + Z.of_nat n)),
        (Z.ltb_spec x (d0 + Z.of_nat (S n))); cbn; try reflexivity; lia.
Qed.

Lemma list_sum_map_add {A : Type} (f g : A -> nat) (l : list A) :
  list_sum (List.map (fun x => (f x + g x)%nat) l)
  = (list_sum (List.map f l) + list_sum (List.map g l))%nat.
Proof.
  unfold list_sum. induction l as [|x l IH]; [reflexivity|].
  cbn [List.map fold_right]. rewrite IH. lia.
Qed.

Lemma list_sum_indicator {A : Type} (p : A -> bool) (l : list A) :
  list_sum (List.map (fun x => if p x then 1%nat else 0%nat) l)
  = length (List.filter p l).
Proof.
  unfold list_sum. induction l as [|x l IH]; [reflexivity|].
  cbn [List.map fold_right List.filter]. rewrite IH.
  destruct (p x); reflexivity.
Qed.

Lemma filter_none {A : Type} (l : list A) :
  List.filter (fun _ => false) l = [].
Proof. induction l as [|x l IH]; [reflexivity | exact IH]. Qed.

(** A task is counted at one day of the series at most: the day it was
    completed on. *)
Lemma completedOn_once (t : Task.t) (d0 : Z) (n : nat) :
  length (List.filter (fun k => Admin.completedOn tza (midnightOf tza k) t)
            (zseq d0 n))
  = if completedWithin tza d0 (d0 + Z.of_nat n - 1) t then 1%nat else 0%nat.
Proof.
  rewrite (filter_ext _ _ (fun k => completedOn_midnight k t)).
  unfold completedWithin.
  destruct (Task.completed t); cbn [andb];
    [|rewrite filter_none; reflexivity].
  destruct (Task.completedAt t) as [c| |];
    [|rewrite filter_none; reflexivity..].
  destruct (c =? 0); cbn [negb andb]; [rewrite filter_none; reflexivity|].
  rewrite count_day_in_zseq.
  destruct (Z.leb_spec d0 (localDay tza c)),
    (Z.ltb_spec (localDay tza c) (d0 + Z.of_nat n)),
    (Z.leb_spec (localDay tza c) (d0 + Z.of_nat n - 1)); cbn;
    try reflexivity; lia.
Qed.

(** Over the midnights of consecutive days, the counts of the series add up
    to the number of tasks completed on one of these days. *)
Lemma counts_total (tasks : list Task.t) (range : Admin.ChartRange)
    (d0 : Z) (n : nat) :
  list_sum
    (List.map Admin.count
       (List.map (Admin.dataPoint tza tasks range)
          (List.map (midnightOf tza) (zseq d0 n))))
  = length
      (List.filter (completedWithin tza d0 (d0 + Z.of_nat n - 1)) tasks).
Proof.
  rewrite !List.map_map. cbn [Admin.dataPoint Admin.count].
  induction tasks as [|t tasks IH].
  - cbn [List.filter length].
    induction (zseq d0 n) as [|k l IHl]; [reflexivity | exact IHl].
  - rewrite (map_ext _
               (fun k =>
                  ((if Admin.completedOn tza (midnightOf tza k) t
                    then 1 else 0)
                   + length (List.filter
                               (Admin.completedOn tza (midnightOf tza k)) tasks))%nat)).
    + rewrite list_sum_map_add, list_sum_indicator, IH, completedOn_once.
      cbn [List.filter].
      destruct (completedWithin tza d0 (d0 + Z.of_nat n - 1) t);
        reflexivity.
    + intros k. cbn [List.filter].
      destruct (Admin.completedOn tza (midnightOf tza k) t); reflexivity.
Qed.

End ChartSeries.

Lemma maxVal_bounds (l : list Admin.DataPoint) :
  (5 <= Admin.maxVal l)%nat
  /\ forall d, In d l -> (Admin.count d <= Admin.maxVal l)%nat.
Proof.
  unfold Admin.maxVal. induction l as [|x l [IH1 IH2]]; cbn [List.map fold_right].
  - split; [lia | intros d []].
  - split; [lia|]. intros d [<-|Hd]; [lia|]. specialize (IH2 d Hd). lia.
Qed.

Lemma week_interval (tza now : Z) :
  subDays_ms tza now 6 <= now
  /\ localDay tza (subDays_ms tza now 6) = localDay tza now - 6.
Proof.
  rewrite subDays_ms_spec. split; [unfold msPerDay; lia|].
  unfold localDay, Day, LocalTime, msPerDay.
  replace (now - 6 * 86400000 + tza) with (now + tza + (-6) * 86400000)
    by lia.
  rewrite Z.div_add by lia. lia.
Qed.

Lemma month_interval (tza now : Z) :
  let y := Date_getFullYear tza now in
  let m := Date_getMonth tza now in
  startOfMonth_ms tza now <= endOfMonth_ms tza now
  /\ localDay tza (startOfMonth_ms tza now) = MakeDay y m 1
  /\ localDay tza (endOfMonth_ms tza now) = MakeDay y (m + 1) 0
  /\ MakeDay y (m + 1) 0 - MakeDay y m 1 + 1 = DaysInMonth y m.
Proof.
  intros y m.
  pose proof (MonthFromTime_range (LocalTime tza now)) as Hm.
  pose proof (MakeDay_month_span y m Hm) as Hspan.
  pose proof (DaysInMonth_ge_28 y m) as H28.
  rewrite startOfMonth_localDay, endOfMonth_localDay. fold y m.
  split; [unfold UTC, MakeDate, msPerDay; lia|].
  split; [apply localDay_midnight|]. split; [|exact Hspan].
  unfold localDay. rewrite LocalTime_UTC.
  apply Day_MakeDate. unfold msPerDay. lia.
Qed.

(** X17.  The counts of the chart add up to the number of tasks that are
    completed with a completion time on one of the days of the chart: the
    last seven local days, today included, for the week, and the current
    local calendar month for the month.  The scale of the chart is 5 at
    least and no count is above it. *)
Theorem chart_counts_each_completion_once (tza now : Z)
    (tasks : list Task.t) :
  (exists l,
      Admin.dataPoints tza now tasks Admin.week = Some l
      /\ list_sum (List.map Admin.count l)
         = length
             (List.filter
                (completedWithin tza (localDay tza now - 6) (localDay tza now))
                tasks)
      /\ (5 <= Admin.maxVal l)%nat
      /\ forall d, In d l -> (Admin.count d <= Admin.maxVal l)%nat)
  /\ (exists l,
        Admin.dataPoints tza now tasks Admin.month = Some l
        /\ list_sum (List.map Admin.count l)
           = length (List.filter (completedThisMonth tza now) tasks)
        /\ (5 <= Admin.maxVal l)%nat
        /\ forall d, In d l -> (Admin.count d <= Admin.maxVal l)%nat).
Proof.
  split; unfold Admin.dataPoints, Admin.chartInterval.
  - destruct (week_interval tza now) as [Hle Hd].
    rewrite (eachDayOfInterval_days tza _ _ Hle), Hd.
    eexists. split; [reflexivity|]. split; [|apply maxVal_bounds].
    replace (Z.to_nat (localDay tza now - (localDay tza now - 6) + 1))
      with 7%nat by lia.
    rewrite counts_total.
    replace (localDay tza now - 6 + Z.of_nat 7 - 1) with (localDay tza now)
      by lia.
    reflexivity.
  - destruct (month_interval tza now) as (Hle & Hfirst & Hlast & Hspan).
    pose proof (MonthFromTime_range (LocalTime tza now)) as Hm.
    pose proof (DaysInMonth_ge_28 (Date_getFullYear tza now)
                  (Date_getMonth tza now)) as H28.
    rewrite (eachDayOfInterval_days tza _ _ Hle), Hfirst, Hlast.
    eexists. split; [reflexivity|]. split; [|apply maxVal_bounds].
    rewrite counts_total.
    set (y := Date_getFullYear tza now) in *.
    set (m := Date_getMonth tza now) in *.
    replace (MakeDay y m 1
             + Z.of_nat (Z.to_nat (MakeDay y (m + 1) 0 - MakeDay y m 1 + 1))
             - 1)
      with (MakeDay y (m + 1) 0) by lia.
    f_equal. apply filter_ext. intros t.
    unfold completedWithin, completedThisMonth. f_equal.
    destruct (Task.completedAt t) as [c| |]; [|reflexivity..].
    rewrite <- !andb_assoc. f_equal. fold y m.
    pose proof (month_window (LocalTime tza c) y m Hm) as Hw.
    fold (localDay tza c) in Hw.
    unfold Date_getFullYear, Date_getMonth.
    destruct (Z.leb_spec (MakeDay y m 1) (localDay tza c)),
      (Z.leb_spec (localDay tza c) (MakeDay y (m + 1) 0)),
      (Z.eqb_spec (YearFromTime (LocalTime tza c)) y),
      (Z.eqb_spec (MonthFromTime (LocalTime tza c)) m);
      cbn [andb]; try reflexivity; exfalso; tauto || lia.
Qed.

Lemma zseq_map_shift {B : Type} (g : Z -> B) (c : Z) (n : nat) : forall a,
  List.map (fun k => g (k + c)) (zseq a n) = List.map g (zseq (a + c) n).
Proof.
  induction n as [|n IH]; intros a; [reflexivity|].
  cbn [zseq List.map]. f_equal. rewrite IH. do 2 f_equal. lia.
Qed.

Lemma MakeDay_first (y m : Z) :
  0 <= m <= 11 ->
  MakeDay y m 1
  = DayFromYear y + monthStart m (if DaysInYear y =? 366 then 1 else 0).
Proof.
  intros Hm. unfold MakeDay.
  rewrite (Z.div_small m 12), (Z.mod_small m 12) by lia.
  rewrite Z.add_0_r. lia.
Qed.

Lemma format_EEE_midnight (tza k : Z) :
  format_EEE tza (midnightOf tza k) = weekdayName ((k + 4) mod 7).
Proof.
  unfold format_EEE, weekdayName, Date_getDay, WeekDay, midnightOf.
  rewrite LocalTime_UTC, Day_MakeDate by (unfold msPerDay; lia).
  reflexivity.
Qed.

Lemma week_names_differ (r : Z) :
  0 <= r < 7 ->
  NoDup (List.map (fun i => weekdayName ((r + i) mod 7)) [0; 1; 2; 3; 4; 5; 6]).
Proof.
  intros Hr.
  assert (Hc : r = 0 \/ r = 1 \/ r = 2 \/ r = 3 \/ r = 4 \/ r = 5 \/ r = 6)
    by lia.
  repeat (destruct Hc as [->|Hc]; [apply (bool_decide_unpack _); vm_compute; exact I|]).
  subst r. apply (bool_decide_unpack _). vm_compute. exact I.
Qed.

(** X18.  The points of the weekly chart are the midnights of the seven
    local days that end today, labelled with the names of their days of the
    week: seven different names, the last one today's.  The points of the
    monthly chart are the midnights of the days of the current local month,
    labelled 1, 2, ... up to the length of the month. *)
Theorem chart_labels_name_the_days (tza now : Z) (tasks : list Task.t) :
  (exists l,
      Admin.dataPoints tza now tasks Admin.week = Some l
      /\ List.map Admin.fullDate l
         = List.map (midnightOf tza) (zseq (localDay tza now - 6) 7)
      /\ List.map Admin.day l
         = List.map (fun k => weekdayName ((k + 4) mod 7))
             (zseq (localDay tza now - 6) 7)
      /\ NoDup (List.map Admin.day l)
      /\ last (List.map Admin.day l) = Some (format_EEE tza now))
  /\ (exists l,
        Admin.dataPoints tza now tasks Admin.month = Some l
        /\ List.map Admin.fullDate l
           = List.map (midnightOf tza)
               (zseq (MakeDay (Date_getFullYear tza now)
                        (Date_getMonth tza now) 1)
                  (Z.to_nat (DaysInMonth (Date_getFullYear tza now)
                               (Date_getMonth tza now))))
        /\ List.map Admin.day l
           = List.map toString
               (zseq 1 (Z.to_nat (DaysInMonth (Date_getFullYear tza now)
                                    (Date_getMonth tza now))))).
Proof.
  split; unfold Admin.dataPoints, Admin.chartInterval.
  - destruct (week_interval tza now) as [Hle Hd].
    rewrite (eachDayOfInterval_days tza _ _ Hle), Hd.
    replace (Z.to_nat (localDay tza now - (localDay tza now - 6) + 1))
      with 7%nat by lia.
    eexists. split; [reflexivity|].
    rewrite !List.map_map. cbn [Admin.dataPoint Admin.fullDate Admin.day].
    assert (Hnames : List.map (fun k => format_EEE tza (midnightOf tza k))
                       (zseq (localDay tza now - 6) 7)
                     = List.map (fun k => weekdayName ((k + 4) mod 7))
                         (zseq (localDay tza now - 6) 7))
      by (apply map_ext; intros k; apply format_EEE_midnight).
    rewrite Hnames. split; [reflexivity|]. split; [reflexivity|].
    set (d0 := localDay tza now - 6).
    pose proof (Z.mod_pos_bound (d0 + 4) 7 ltac:(lia)) as Hr.
    assert (Hshift : forall i, (i + d0 + 4) mod 7 = ((d0 + 4) mod 7 + i) mod 7).
    { intros i. rewrite Zplus_mod_idemp_l. f_equal. lia. }
    assert (Hlist : List.map (fun k => weekdayName ((k + 4) mod 7)) (zseq d0 7)
                    = List.map
                        (fun i => weekdayName (((d0 + 4) mod 7 + i) mod 7))
                        [0; 1; 2; 3; 4; 5; 6]).
    { change (zseq d0 7) with (zseq (0 + d0) 7).
      rewrite <- (zseq_map_shift
                    (fun k => weekdayName ((k + 4) mod 7)) d0 7 0).
      change (zseq 0 7) with [0; 1; 2; 3; 4; 5; 6].
      apply map_ext. intros i. rewrite Hshift. reflexivity. }
    rewrite Hlist. split; [apply week_names_differ; exact Hr|].
    cbn [List.map]. cbn [last]. f_equal.
    unfold format_EEE, Date_getDay, WeekDay. fold (localDay tza now).
    rewrite <- Hshift. unfold weekdayName.
    replace (6 + d0 + 4) with (localDay tza now + 4) by (subst d0; lia).
    reflexivity.
  - destruct (month_interval tza now) as (Hle & Hfirst & Hlast & Hspan).
    pose proof (MonthFromTime_range (LocalTime tza now)) as Hm.
    pose proof (DaysInMonth_ge_28 (Date_getFullYear tza now)
                  (Date_getMonth tza now)) as H28.
    rewrite (eachDayOfInterval_days tza _ _ Hle), Hfirst, Hlast.
    set (y := Date_getFullYear tza now) in *.
    set (m := Date_getMonth tza now) in *.
    rewrite Hspan.
    eexists. split; [reflexivity|].
    rewrite !List.map_map. cbn [Admin.dataPoint Admin.fullDate Admin.day].
    split; [reflexivity|].
    replace 1 with (MakeDay y m 1 + (1 - MakeDay y m 1)) at 2 by lia.
    rewrite <- (zseq_map_shift toString (1 - MakeDay y m 1)
                  (Z.to_nat (DaysInMonth y m)) (MakeDay y m 1)).
    apply map_ext_in. intros k Hk. apply In_zseq in Hk. f_equal.
    unfold Date_getDate, midnightOf. rewrite LocalTime_UTC.
    pose proof (month_window (MakeDate k 0) y m Hm) as Hw.
    rewrite Day_MakeDate in Hw by (unfold msPerDay; lia).
    destruct (proj1 Hw ltac:(lia)) as [Ey Em].
    pose proof (Day_ymd (MakeDate k 0)) as Ed.
    rewrite Day_MakeDate in Ed by (unfold msPerDay; lia).
    unfold InLeapYear in Ed. rewrite Ey, Em in Ed.
    rewrite (MakeDay_first y m Hm). lia.
Qed.

(** ** The fields of an export row *)

Lemma commas_app (a b : jsstring) : commas (a ++ b) = (commas a + commas b)%nat.
Proof. unfold commas. rewrite List.filter_app, length_app. reflexivity. Qed.

Lemma commas_string_of_uint (d : Decimal.uint) :
  commas (str (NilEmpty.string_of_uint d)) = 0%nat.
Proof. induction d; cbn; try reflexivity; exact IHd. Qed.

Lemma commas_toString (n : Z) : commas (toString n) = 0%nat.
Proof.
  unfold toString, NilZero.string_of_int.
  destruct (Z.to_int n) as [d|d]; unfold NilZero.string_of_uint.
  - destruct d; try reflexivity; apply (commas_string_of_uint (_ d)).
  - change (commas (str (String "-"
                      match d with
                      | Decimal.Nil => "0"%string
                      | _ => NilEmpty.string_of_uint d
                      end)))
      with (commas (str match d with
                        | Decimal.Nil => "0"%string
                        | _ => NilEmpty.string_of_uint d
                        end)).
    destruct d; try reflexivity; apply (commas_string_of_uint (_ d)).
Qed.

Lemma commas_repeat_zero (n : nat) : commas (List.repeat 48%N n) = 0%nat.
Proof. induction n as [|n IH]; [reflexivity | exact IH]. Qed.

Lemma commas_padStart0 (w : nat) (s : jsstring) :
  commas (padStart0 w s) = commas s.
Proof. unfold padStart0. rewrite commas_app, commas_repeat_zero. reflexivity. Qed.

Lemma commas_format (tza t : Z) : commas (format_yyyy_MM_dd tza t) = 0%nat.
Proof.
  unfold format_yyyy_MM_dd.
  rewrite !commas_app, !commas_padStart0, !commas_toString. reflexivity.
Qed.

(** X19.  A row of the export holds five commas more than the display
    name and the email of the student hold together: it splits at the commas
    into the six fields of the header exactly when neither of the two has a
    comma. *)
Theorem export_row_commas (tza : Z) (allTasks : list Task.t)
    (s : UserProfile.t) :
  commas (Admin.exportRow tza allTasks s)
  = (5 + commas (UserProfile.displayName s) + commas (UserProfile.email s))%nat
  /\ (commas (Admin.exportRow tza allTasks s) = 5%nat
      <-> commas (UserProfile.displayName s) = 0%nat
          /\ commas (UserProfile.email s) = 0%nat).
Proof.
  assert (H : commas (Admin.exportRow tza allTasks s)
              = (5 + commas (UserProfile.displayName s)
                 + commas (UserProfile.email s))%nat).
  { unfold Admin.exportRow. cbn [join ToString].
    rewrite !commas_app, commas_format, !commas_toString.
    change (commas (str ",")) with 1%nat.
    assert (Hr : commas (UserRole_string (UserProfile.role s)) = 0%nat)
      by (destruct (UserProfile.role s); reflexivity).
    rewrite Hr. lia. }
  split; [exact H|]. rewrite H. lia.
Qed.

(** ** New users *)

Module RegExpFacts.
Import JsRegExp.

Lemma nullable_described (r : regex) : nullable r = true <-> described r [].
Proof.
  induction r as [| |p|r IHr s IHs|r IHr s IHs|r IHr]; cbn [nullable].
  - split; [discriminate | inversion 1].
  - split; [constructor | reflexivity].
  - split; [discriminate | inversion 1].
  - rewrite andb_true_iff, IHr, IHs. split.
    + intros [Hr Hs]. exact (d_seq r s [] [] Hr Hs).
    + inversion 1 as [| |r' s' u v Hu Hv Eq1 Eq2| | | |]; subst.
      apply app_eq_nil in Eq2. destruct Eq2 as [-> ->]. auto.
  - rewrite orb_true_iff, IHr, IHs. split.
    + intros [H|H]; [apply d_alt_l | apply d_alt_r]; exact H.
    + inversion 1; subst; auto.
  - split; [constructor | reflexivity].
Qed.

Lemma star_cons (r : regex) (c : N) (w : jsstring) :
  described (Star r) (c :: w) ->
  exists u v, w = u ++ v /\ described r (c :: u) /\ described (Star r) v.
Proof.
  intros H. remember (Star r) as sr eqn:Esr. remember (c :: w) as cw eqn:Ecw.
  revert r c w Esr Ecw.
  induction H as [|p c0 Hp|r0 s0 u v Hu _ Hv _|r0 s0 u Hu _|r0 s0 u Hu _|r0
                 |r0 u v Hu _ Hv IHv]; intros r c w Esr Ecw; try discriminate.
  injection Esr as ->.
  destruct u as [|x u].
  - cbn [app] in Ecw. exact (IHv r c w eq_refl Ecw).
  - cbn [app] in Ecw. injection Ecw as -> <-.
    exists u, v. auto.
Qed.

Lemma deriv_described (r : regex) : forall c w,
  described (deriv c r) w <-> described r (c :: w).
Proof.
  induction r as [| |p|r IHr s IHs|r IHr s IHs|r IHr]; intros c w;
    cbn [deriv].
  - split; inversion 1.
  - split; inversion 1.
  - destruct (p c) eqn:Hp; split.
    + inversion 1; subst. constructor. exact Hp.
    + inversion 1; subst. constructor.
    + inversion 1.
    + inversion 1; subst. congruence.
  - assert (Hseq : described (Seq (deriv c r) s) w
                   <-> exists u v, w = u ++ v /\ described r (c :: u)
                                   /\ described s v).
    { split.
      - inversion 1 as [| |r' s' u v Hu Hv Eq1 Eq2| | | |]; subst.
        exists u, v. rewrite <- IHr. auto.
      - intros (u & v & -> & Hu & Hv). constructor; [|exact Hv].
        apply IHr. exact Hu. }
    assert (Hsplit : described (Seq r s) (c :: w)
                     <-> (exists u v, w = u ++ v /\ described r (c :: u)
                                      /\ described s v)
                         \/ (described r [] /\ described s (c :: w))).
    { split.
      - inversion 1 as [| |r' s' u v Hu Hv Eq1 Eq2| | | |]; subst.
        destruct u as [|x u].
        + right. cbn [app] in Eq2. subst v. auto.
        + left. cbn [app] in Eq2. injection Eq2 as -> <-. exists u, v. auto.
      - intros [(u & v & -> & Hu & Hv)|[Hr Hs]].
        + exact (d_seq r s (c :: u) v Hu Hv).
        + exact (d_seq r s [] (c :: w) Hr Hs). }
    rewrite Hsplit. destruct (nullable r) eqn:Hn.
    + split.
      * inversion 1; subst.
        -- left. apply Hseq. assumption.
        -- right. split; [apply nullable_described; exact Hn|].
           apply IHs. assumption.
      * intros [H|[_ H]].
        -- apply d_alt_l, Hseq. exact H.
        -- apply d_alt_r, IHs. exact H.
    + rewrite Hseq. split; [auto|].
      intros [H|[Hr _]]; [exact H|].
      apply nullable_described in Hr. congruence.
  - split.
    + inversion 1; subst; [apply d_alt_l, IHr | apply d_alt_r, IHs];
        assumption.
    + inversion 1; subst; [apply d_alt_l, IHr | apply d_alt_r, IHs];
        assumption.
  - split.
    + inversion 1 as [| |r' s' u v Hu Hv Eq1 Eq2| | | |]; subst.
      apply IHr in Hu. exact (d_star_app r (c :: u) v Hu Hv).
    + intros H. apply star_cons in H. destruct H as (u & v & -> & Hu & Hv).
      constructor; [apply IHr; exact Hu | exact Hv].
Qed.

(** The matcher accepts the strings the pattern describes, and no other. *)
Lemma test_described (s : jsstring) : forall r,
  test r s = true <-> described r s.
Proof.
  induction s as [|c s IH]; intros r; cbn [test].
  - apply nullable_described.
  - rewrite IH. apply deriv_described.
Qed.

Lemma star_class (p : N -> bool) (s : jsstring) :
  described (Star (Class p)) s <-> forall c, In c s -> p c = true.
Proof.
  split.
  - intros H. remember (Star (Class p)) as sr eqn:E.
    induction H as [|p0 c0 Hp|r0 s0 u v Hu _ Hv _|r0 s0 u Hu _|r0 s0 u Hu _|r0
                   |r0 u v Hu _ Hv IHv]; try discriminate.
    + intros c [].
    + injection E as ->. inversion Hu; subst.
      intros c' [<-|Hc]; [assumption | exact (IHv eq_refl c' Hc)].
  - induction s as [|x s IH]; intros H; [constructor|].
    apply (d_star_app (Class p) [x] s).
    + constructor. apply H. left. reflexivity.
    + apply IH. intros c Hc. apply H. right. exact Hc.
Qed.

Lemma plus_class (p : N -> bool) (s : jsstring) :
  described (Plus (Class p)) s
  <-> s <> [] /\ forall c, In c s -> p c = true.
Proof.
  unfold Plus. split.
  - inversion 1 as [| |r' s' u v Hu Hv Eq1 Eq2| | | |]; subst.
    inversion Hu; subst. rewrite star_class in Hv.
    split; [discriminate|]. intros c0 [<-|Hc]; auto.
  - intros [Hne H]. destruct s as [|x s]; [contradiction|].
    apply (d_seq (Class p) (Star (Class p)) [x] s).
    + constructor. apply H. left. reflexivity.
    + apply star_class. intros c Hc. apply H. right. exact Hc.
Qed.

Lemma chr_described (c : N) (s : jsstring) :
  described (Chr c) s <-> s = [c].
Proof.
  unfold Chr. split.
  - inversion 1; subst. f_equal. symmetry. apply N.eqb_eq. assumption.
  - intros ->. constructor. apply N.eqb_refl.
Qed.

End RegExpFacts.

Lemma seq_described (r s : JsRegExp.regex) (w : jsstring) :
  described (JsRegExp.Seq r s) w
  <-> exists u v, w = u ++ v /\ described r u /\ described s v.
Proof.
  split.
  - inversion 1; subst. eauto.
  - intros (u & v & -> & Hu & Hv). constructor; assumption.
Qed.

Lemma notSpaceNorAt_spec (c : N) :
  Admin.notSpaceNorAt c = true <-> is_space c = false /\ c <> 64%N.
Proof.
  unfold Admin.notSpaceNorAt.
  destruct (is_space c), (N.eqb_spec c 64); cbn; split; try tauto;
    try discriminate; intros [H1 H2]; congruence.
Qed.

Lemma addressPart_described (s : jsstring) :
  described (JsRegExp.Plus (JsRegExp.Class Admin.notSpaceNorAt)) s
  <-> addressPart s.
Proof.
  rewrite RegExpFacts.plus_class. unfold addressPart.
  split; intros [Hne H]; (split; [exact Hne|]); intros c Hc;
    apply notSpaceNorAt_spec; auto.
Qed.

Lemma atSigns_app (a b : jsstring) :
  atSigns (a ++ b) = (atSigns a + atSigns b)%nat.
Proof. unfold atSigns. rewrite List.filter_app, length_app. reflexivity. Qed.

Lemma atSigns_part (s : jsstring) : addressPart s -> atSigns s = 0%nat.
Proof.
  intros [_ H]. unfold atSigns.
  induction s as [|c s IH]; [reflexivity|]. cbn [List.filter].
  destruct (N.eqb_spec 64 c) as [E|_].
  - destruct (H c (or_introl eq_refl)) as [_ Hc]. congruence.
  - apply IH. intros c' Hc'. apply H. right. exact Hc'.
Qed.

(** X20.  [isValidEmail] accepts exactly the strings made of three parts,
    with an at sign after the first and a full stop after the second, each
    part being one or more code units that are neither white space nor the
    at sign.  So an accepted string has exactly one at sign, no white space
    and five code units at least. *)
Theorem isValidEmail_shape (email : jsstring) :
  (Admin.isValidEmail email = true
   <-> exists name domain ending,
         email = name ++ [64%N] ++ domain ++ [46%N] ++ ending
         /\ addressPart name /\ addressPart domain /\ addressPart ending)
  /\ (Admin.isValidEmail email = true ->
      atSigns email = 1%nat
      /\ (forall c, In c email -> is_space c = false)
      /\ (5 <= length email)%nat).
Proof.
  assert (Hshape :
    Admin.isValidEmail email = true
    <-> exists name domain ending,
          email = name ++ [64%N] ++ domain ++ [46%N] ++ ending
          /\ addressPart name /\ addressPart domain /\ addressPart ending).
  { unfold Admin.isValidEmail, Admin.emailPattern.
    rewrite RegExpFacts.test_described. split.
    - intros H.
      apply seq_described in H. destruct H as (a & w1 & -> & Ha & H).
      apply seq_described in H. destruct H as (at_ & w2 & -> & Hat & H).
      apply seq_described in H. destruct H as (b & w3 & -> & Hb & H).
      apply seq_described in H. destruct H as (dot & c & -> & Hdot & Hc).
      apply RegExpFacts.chr_described in Hat, Hdot. subst at_ dot.
      apply addressPart_described in Ha, Hb, Hc.
      exists a, b, c. auto.
    - intros (a & b & c & -> & Ha & Hb & Hc).
      apply addressPart_described in Ha, Hb, Hc.
      apply seq_described. exists a. eexists. split; [reflexivity|].
      split; [exact Ha|].
      apply seq_described. exists [64%N]. eexists. split; [reflexivity|].
      split; [apply RegExpFacts.chr_described; reflexivity|].
      apply seq_described. exists b. eexists. split; [reflexivity|].
      split; [exact Hb|].
      apply seq_described. exists [46%N], c. split; [reflexivity|].
      split; [apply RegExpFacts.chr_described; reflexivity | exact Hc]. }
  split; [exact Hshape|].
  intros H. apply Hshape in H.
  destruct H as (a & b & c & -> & Ha & Hb & Hc).
  split; [|split].
  - rewrite !atSigns_app, (atSigns_part a Ha), (atSigns_part b Hb),
      (atSigns_part c Hc). reflexivity.
  - intros x Hx. rewrite !in_app_iff in Hx.
    destruct Ha as [_ Ha], Hb as [_ Hb], Hc as [_ Hc].
    destruct Hx as [Hx|[[<-|[]]|[Hx|[[<-|[]]|Hx]]]];
      try reflexivity; [apply Ha | apply Hb | apply Hc]; exact Hx.
  - rewrite !length_app. cbn [length].
    destruct Ha as [Ha _], Hb as [Hb _], Hc as [Hc _].
    destruct a, b, c; try contradiction; cbn [length]; lia.
Qed.


(** ** Worked inputs: witnesses, counterexamples, examples *)

(** The calendar on dates whose place is known: the epoch (a Thursday), the
    day before it, the first day of 2000, the leap day of 2024 and the
    instant of the worked inputs (a Monday). *)
Example calendar_known_dates :
  List.map
    (fun t => (YearFromTime t, MonthFromTime t + 1, DateFromTime t, WeekDay t))
    [0; -1; 946684800000; 1709251140000; noon]
  = [(1970, 1, 1, 4); (1969, 12, 31, 3); (2000, 1, 1, 6); (2024, 2, 29, 4);
     (2026, 11, 2, 1)].
Proof. vm_compute. reflexivity. Qed.

(** Formatting and parsing in a zone one hour east of UTC: the local day
    starts an hour before the UTC day. *)
Example format_parse_one_hour_east :
  format_yyyy_MM_dd 3600000 (midnight - 3600000) = str "2026-11-02"
  /\ parseISO_date 3600000 (str "2026-11-02") = Ms (midnight - 3600000)
  /\ parseISO_date 3600000 (str "2026-02-29") = NaN
  /\ parseISO_date 3600000 (str "") = NaN.
Proof. vm_compute. repeat split. Qed.

Example fourTasks_columns :
  Student.overdueTasks 0 noon fourTasks
  = [sampleTask "t1" (Ms (midnight - dayLength)) false 1]
  /\ Student.todayTasks 0 noon fourTasks = [sampleTask "t2" (Ms midnight) false 2]
  /\ Student.upcomingTasks 0 noon fourTasks
     = [sampleTask "t3" (Ms (midnight + dayLength)) false 3]
  /\ Student.completedTasks fourTasks
     = [sampleTask "t4" (Ms (midnight - dayLength)) true 4]
  /\ Student.completionRate fourTasks = 25.
Proof. vm_compute. repeat split. Qed.



(** So is an open task whose due date is a number beyond the last instant
    of [Date], and one due at the first instant of [Date] in a zone east of
    UTC, where the local day begins before that instant. *)
Example buckets_miss_task_out_of_range :
  let late := sampleTask "t5" (Ms 8640000000000001) false 5 in
  let early := sampleTask "t5" (Ms (-8640000000000000)) false 5 in
  Student.overdueTasks 0 noon [late] = []
  /\ Student.todayTasks 0 noon [late] = []
  /\ Student.upcomingTasks 0 noon [late] = []
  /\ Student.upcomingTasks 0 noon [sampleTask "t5" (Ms 8640000000000000) false 5]
     = [sampleTask "t5" (Ms 8640000000000000) false 5]
  /\ Student.overdueTasks 3600000 noon [early] = []
  /\ Student.todayTasks 3600000 noon [early] = []
  /\ Student.upcomingTasks 3600000 noon [early] = []
  /\ Student.overdueTasks 0 noon [early] = [early].
Proof. vm_compute. repeat split. Qed.

(** A task without a date is what saving the edit form with the date
    cleared stores. *)
Example edit_with_cleared_date :
  Student.handleUpdateTask 0 (parseISO_date 0)
    (Some (sampleTask "t5" (Ms midnight) false 5))
    (str "Read chapter 4") (str "") false
    {[ str "t5" := sampleTask "t5" (Ms midnight) false 5 ]}
  = (Done, {[ str "t5" := undatedTask ]}).
Proof.
  unfold Student.handleUpdateTask, updateDoc.
  change (Task.id (sampleTask "t5" (Ms midnight) false 5)) with (str "t5").
  rewrite lookup_singleton_eq, insert_singleton_eq. reflexivity.
Qed.

(** The preview of C2 as first stated, newest first. *)
Lemma completed_preview_not_newest_first :
  Student.completedPreview (Student.onSnapshot twoCompleted)
  <> newestFirstPreview twoCompleted.
Proof. vm_compute. discriminate. Qed.

(** C3 (the code at an input where it departs from the claim).  The global
    statistics on one open task due on the current day, at noon: the task
    is counted as overdue, although it is not due before today and the
    student view shows it under Today, not under Overdue. *)
Theorem globalStats_counts_task_due_today :
  let t := sampleTask "t2" (Ms midnight) false 2 in
  Admin.overdueTasks (Admin.globalStats 0 noon [] [t]) = 1%nat
  /\ overdueBeforeToday 0 noon [t] = 0%nat
  /\ Student.overdueTasks 0 noon [t] = []
  /\ Student.todayTasks 0 noon [t] = [t].
Proof. vm_compute. repeat split. Qed.

(** C8 (the code at an input where it departs from the claim).  Twenty-one
    open tasks due on the current day and none due before it, at noon, with
    one student who joined a second ago: no task is overdue as the claim
    counts them, yet the list holds the warning, for 21 overdue tasks, in
    front of the entry of the student.  The student view shows the same
    tasks under Today and none under Overdue. *)
Theorem notifications_warn_of_tasks_due_today :
  overdueBeforeToday 0 noon dueTodayTasks = 0%nat
  /\ Admin.notifications 0 noon [ann] dueTodayTasks
     = [{| Admin.id := str "od-spike";
           Admin.type := Admin.warning;
           Admin.message :=
             str "High overdue load: 21 overdue tasks system-wide.";
           Admin.timestamp := noon |};
        {| Admin.id := str "join-u1";
           Admin.type := Admin.info;
           Admin.message := str "Ann joined the platform.";
           Admin.timestamp := noon - 1000 |}]
  /\ Student.overdueTasks 0 noon dueTodayTasks = []
  /\ Student.todayTasks 0 noon dueTodayTasks = dueTodayTasks.
Proof. vm_compute. repeat split. Qed.

(** With the same tasks due the day before, the warning is what the claim
    says; and twenty tasks give none. *)
Example notifications_of_tasks_due_yesterday :
  let tasks n := repeat (sampleTask "t1" (Ms (midnight - dayLength)) false 1) n in
  overdueBeforeToday 0 noon (tasks 21%nat) = 21%nat
  /\ List.map Admin.type (Admin.notifications 0 noon [ann] (tasks 21%nat))
     = [Admin.warning; Admin.info]
  /\ List.map Admin.type (Admin.notifications 0 noon [ann] (tasks 20%nat))
     = [Admin.info].
Proof. vm_compute. repeat split. Qed.

(** C6 (the code at an input where it departs from the claim).  Forty tasks
    of which twenty-three are completed: 23 / 40 x 100 is 57.5, which rounds
    to 58.  The dashboards divide first and multiply then, each time
    rounding to a double: the product is the double just below 57.5, and
    both show 57.  Multiplying first gives 57.5 itself, and 58. *)
Theorem completionRate_of_23_out_of_40 :
  length fortyTasks = 40%nat
  /\ Student.completedCount fortyTasks = 23%nat
  /\ exactRate fortyTasks = 58
  /\ Student.completionRate fortyTasks = 57
  /\ Admin.completionRate (Admin.globalStats 0 noon [] fortyTasks) = 57
  /\ JsNumber.mul (JsNumber.div (JsNumber.of_int 23) (JsNumber.of_int 40))
       (JsNumber.of_int 100)
     = JsNumber.Dbl (115 * 2 ^ 46 - 1) (-47)
  /\ JsNumber.div (JsNumber.mul (JsNumber.of_int 23) (JsNumber.of_int 100))
       (JsNumber.of_int 40)
     = JsNumber.Dbl (115 * 2 ^ 46) (-47)
  /\ JsNumber.Math_round (JsNumber.Dbl (115 * 2 ^ 46) (-47)) = 58.
Proof. vm_compute. repeat split. Qed.

(** Toggling the open task due today, in a store that holds it alone: the
    write goes through, and the stored task is completed, at the time of the
    call. *)
Lemma toggleTask_witness :
  Student.toggleTask (sampleTask "t2" (Ms midnight) false 2) noon false
    {[ str "t2" := sampleTask "t2" (Ms midnight) false 2 ]}
  = (Done,
     {[ str "t2" :=
          Task.mk (str "t2") (str "u1") (str "Read chapter 4") None
            (Ms midnight) true (Num noon) 2 ]}).
Proof.
  rewrite (proj1 (proj2 (toggleTask_completedAt_iff_completed
                           (sampleTask "t2" (Ms midnight) false 2) noon false
                           {[ str "t2" := sampleTask "t2" (Ms midnight) false 2 ]}))
             (sampleTask "t2" (Ms midnight) false 2) eq_refl
             (lookup_singleton_eq _ _)).
  change (Task.id (sampleTask "t2" (Ms midnight) false 2)) with (str "t2").
  rewrite insert_singleton_eq. reflexivity.
Defined.

(** Toggling it back stores [null], not the missing field of before. *)
Example toggle_back_stores_null :
  Student.toggleTask
    (Task.mk (str "t2") (str "u1") (str "Read chapter 4") None (Ms midnight)
       true (Num noon) 2)
    (noon + 1) false
    {[ str "t2" :=
         Task.mk (str "t2") (str "u1") (str "Read chapter 4") None
           (Ms midnight) true (Num noon) 2 ]}
  = (Done,
     {[ str "t2" :=
          Task.mk (str "t2") (str "u1") (str "Read chapter 4") None
            (Ms midnight) false Null 2 ]}).
Proof.
  unfold Student.toggleTask, updateDoc. cbn [Task.id Task.completed negb].
  rewrite lookup_singleton_eq, insert_singleton_eq. reflexivity.
Qed.

(** A toggle of a task that is not in the store, and one during which the
    SDK call throws, write nothing. *)
Example toggle_without_write :
  Student.toggleTask (sampleTask "t2" (Ms midnight) false 2) noon false ∅
  = (Logged, ∅)
  /\ Student.toggleTask (sampleTask "t2" (Ms midnight) false 2) noon true
       {[ str "t2" := sampleTask "t2" (Ms midnight) false 2 ]}
     = (Logged, {[ str "t2" := sampleTask "t2" (Ms midnight) false 2 ]}).
Proof. split; reflexivity. Qed.


Example added_task_due_at_midnight :
  startOfDay 0 (parseISO_date 0 (str "2026-11-02")) = Ms midnight.
Proof. vm_compute. reflexivity. Qed.


(** The same edit with a blank title is refused, and one of a task that is
    no longer stored fails; neither writes. *)
Example edits_without_write :
  Student.handleUpdateTask 0 (parseISO_date 0)
    (Some (sampleTask "t3" (Ms (midnight + dayLength)) false 3))
    (str "  ") (str "2020-01-01") false ∅
  = (Alert (str "Task title cannot be empty"), ∅)
  /\ Student.handleUpdateTask 0 (parseISO_date 0)
       (Some (sampleTask "t3" (Ms (midnight + dayLength)) false 3))
       (str "Read chapter 5") (str "2020-01-01") false ∅
     = (Alert (str "Failed to update task."), ∅).
Proof. split; reflexivity. Qed.

Example export_row_Ann :
  Admin.exportRows 0 [ann]
    [sampleTask "t1" (Ms midnight) true 1; sampleTask "t2" (Ms midnight) true 2;
     sampleTask "t3" (Ms midnight) false 3]
  = [str "Ann,a@x.com,STUDENT,2026-11-02,3,2"].
Proof. vm_compute. reflexivity. Qed.

(** A comma in a name goes into the row as it is. *)
Example export_row_with_comma :
  Admin.exportRows 0
    [UserProfile.mk (str "u2") (str "l@x.com") (str "Lee, Ann") (str "")
       STUDENT None (noon - 1000)] []
  = [str "Lee, Ann,l@x.com,STUDENT,2026-11-02,0,0"].
Proof. vm_compute. reflexivity. Qed.

Example chart_lengths_November_2026 :
  option_map (@length _) (Admin.dataPoints 0 noon fourTasks Admin.week)
  = Some 7%nat
  /\ option_map (@length _) (Admin.dataPoints 0 noon fourTasks Admin.month)
     = Some 30%nat.
Proof. vm_compute. split; reflexivity. Qed.

(** The model of double-precision arithmetic and the binary64 operations of
    the Standard Library give the same percentage for every count of
    completed tasks out of every total up to 128. *)
Lemma double_arithmetic_agrees_with_IEEE : percentages_agree 128 = true.
Proof. vm_compute. reflexivity. Qed.

(** *** The handlers, one after the other *)

(** Adding " Read " for 2026-11-02 at noon of that day stores [readTask]. *)
Example addRead_stores_readTask :
  Student.handleAddTask 0 (parseISO_date 0) (Some (str "u1")) (str " Read ")
    (str "2026-11-02") noon (str "t1") false ∅
  = (Done, {[ str "t1" := readTask ]}).
Proof.
  unfold Student.handleAddTask, addDoc.
  change (negb (truthy (trim (str " Read ")))) with false. cbv iota.
  change (js_lt (str "2026-11-02") (format_yyyy_MM_dd 0 noon)) with false.
  cbv iota.
  change (startOfDay 0 (parseISO_date 0 (str "2026-11-02"))) with (Ms midnight).
  change (trim (str " Read ")) with (str "Read").
  rewrite insert_empty. reflexivity.
Qed.

Lemma history_addRead :
  history 0 (parseISO_date 0) [addRead] !! str "t1" = Some readTask.
Proof.
  unfold history, addRead. cbn [fold_left perform].
  rewrite addRead_stores_readTask. cbn [snd]. apply lookup_singleton_eq.
Defined.

Lemma stored_titles_are_trimmed_witness :
  history 0 (parseISO_date 0) [addRead] !! str "t1" = Some readTask
  /\ Task.title readTask <> []
  /\ trim (Task.title readTask) = Task.title readTask.
Proof.
  split; [exact history_addRead|].
  pose proof (stored_titles_are_trimmed 0 (parseISO_date 0) [addRead]
                (str "t1") readTask history_addRead) as H.
  split; [exact (proj1 H) | exact (proj1 (proj2 H))].
Defined.

Lemma stored_due_dates_are_starts_of_days_witness :
  history 0 (parseISO_date 0) [addRead] !! str "t1" = Some readTask
  /\ startOfDay 0 (Task.dueDate readTask) = Task.dueDate readTask.
Proof.
  split; [exact history_addRead|].
  exact (proj1 (stored_due_dates_are_starts_of_days 0 (parseISO_date 0)
                  [addRead] (str "t1") readTask history_addRead)).
Defined.

Lemma delete_undoes_add_witness :
  (∅ : store) !! str "t1" = None
  /\ Student.handleDeleteTask (Student.confirmDeleteTask (str "t1")) None
       (snd (Student.handleAddTask 0 (parseISO_date 0) (Some (str "u1"))
               (str " Read ") (str "2026-11-02") noon (str "t1") false ∅))
     = (Done, ∅, None).
Proof.
  split; [apply lookup_empty|].
  refine (proj2 (delete_undoes_add 0 (parseISO_date 0) (Some (str "u1"))
                   (str " Read ") (str "2026-11-02") noon (str "t1") false ∅
                   (lookup_empty _) _ _)).
  - discriminate.
  - rewrite addRead_stores_readTask. reflexivity.
Defined.

(** A failed deletion tells the user, with the message of the error if it
    has one, and leaves the collection as it is. *)
Example deletion_fails :
  Student.handleDeleteTask (Some (str "t1")) (Some (str "offline"))
    {[ str "t1" := readTask ]}
  = (Alert (str "Failed to delete task. offline"), {[ str "t1" := readTask ]},
     None)
  /\ Student.handleDeleteTask (Some (str "t1")) (Some [])
       {[ str "t1" := readTask ]}
     = (Alert (str "Failed to delete task. Please check your connection."),
        {[ str "t1" := readTask ]}, None).
Proof. split; reflexivity. Qed.

(** *** Date strings *)

Lemma years_of_the_worked_inputs :
  1 <= Date_getFullYear 0 noon <= 9999
  /\ 1 <= Date_getFullYear 0 (noon - dayLength) <= 9999
  /\ 1 <= Date_getFullYear 0 midnight <= 9999.
Proof. vm_compute. repeat split; discriminate. Defined.

Lemma date_strings_order_as_days_witness :
  js_lt (format_yyyy_MM_dd 0 (noon - dayLength)) (format_yyyy_MM_dd 0 noon)
  = (localDay 0 (noon - dayLength) <? localDay 0 noon).
Proof.
  exact (proj1 (date_strings_order_as_days 0 (noon - dayLength) noon
                  (proj1 (proj2 years_of_the_worked_inputs))
                  (proj1 years_of_the_worked_inputs))).
Defined.

(** The first day of the year 10000: outside the years of four digits the
    order of the strings is not the order of the days. *)
Example date_string_of_the_year_10000 :
  format_yyyy_MM_dd 0 253402300800000 = str "10000-01-01"
  /\ js_lt (format_yyyy_MM_dd 0 253402300800000) (format_yyyy_MM_dd 0 noon)
     = true
  /\ localDay 0 noon < localDay 0 253402300800000.
Proof. vm_compute. repeat split. Qed.

Lemma task_added_for_a_picked_day_witness :
  Student.handleAddTask 0 (parseISO_date 0) (Some (str "u1")) (str " Read ")
    (format_yyyy_MM_dd 0 (noon - dayLength)) noon (str "t1") false ∅
  = (Alert (str "You cannot schedule tasks for the past!"), ∅).
Proof.
  refine (proj1 (task_added_for_a_picked_day 0 (noon - dayLength) noon
                   (str "u1") (str " Read ") (str "t1") ∅ eq_refl
                   (proj1 (proj2 years_of_the_worked_inputs))
                   (proj1 years_of_the_worked_inputs) _) _).
  - vm_compute. discriminate.
  - vm_compute. reflexivity.
Defined.

(** The edit form of [readTask], saved at once: the collection stays as
    it is. *)
Lemma saving_an_unchanged_edit_keeps_the_task_witness :
  Student.openEditModal 0 readTask
  = Some (readTask, Task.title readTask, format_yyyy_MM_dd 0 midnight)
  /\ Student.handleUpdateTask 0 (parseISO_date 0) (Some readTask)
       (Task.title readTask) (format_yyyy_MM_dd 0 midnight) false
       {[ str "t1" := readTask ]}
     = (Done, {[ str "t1" := readTask ]}).
Proof.
  destruct (saving_an_unchanged_edit_keeps_the_task 0 readTask midnight
              {[ str "t1" := readTask ]} eq_refl eq_refl
              (proj2 (proj2 years_of_the_worked_inputs))
              ltac:(vm_compute; discriminate)
              (lookup_singleton_eq _ _))
    as (Hopen & _ & Hsave & Hsame).
  split; [exact Hopen|].
  rewrite Hsave, (proj2 Hsame (conj eq_refl eq_refl)). reflexivity.
Defined.

(** The same with a title that has a space in front and a due date at noon:
    the save trims the one and moves the other to midnight. *)
Example saving_an_unchanged_edit_normalises :
  let task :=
    Task.mk (str "t1") (str "u1") (str " Read") None (Ms noon) false Missing
      noon in
  Student.openEditModal 0 task = Some (task, str " Read", str "2026-11-02")
  /\ Student.handleUpdateTask 0 (parseISO_date 0) (Some task) (str " Read")
       (str "2026-11-02") false {[ str "t1" := task ]}
     = (Done, {[ str "t1" := readTask ]}).
Proof.
  split; [vm_compute; reflexivity|].
  unfold Student.handleUpdateTask, updateDoc. cbn [Task.id].
  change (negb (truthy (trim (str " Read")))) with false. cbv iota.
  rewrite lookup_singleton_eq, insert_singleton_eq. reflexivity.
Qed.

(** The date written in the edit form of [readTask]. *)
Example edit_form_of_readTask :
  Student.openEditModal 0 readTask
  = Some (readTask, str "Read", str "2026-11-02").
Proof. vm_compute. reflexivity. Qed.

(** *** The task explorer *)

Lemma pages_cover_the_filtered_tasks_witness :
  Admin.totalTaskPages fourTasks = 1
  /\ Admin.paginatedTasks fourTasks 1 = fourTasks.
Proof.
  assert (H : Z.of_nat (length fourTasks) < 2 ^ 32) by (vm_compute; reflexivity).
  destruct (pages_cover_the_filtered_tasks fourTasks H) as (Ht & Hc & _).
  assert (E : Admin.totalTaskPages fourTasks = 1)
    by (rewrite Ht; vm_compute; reflexivity).
  split; [exact E|].
  rewrite E in Hc. change (zseq 1 (Z.to_nat 1)) with [1] in Hc.
  cbn [List.map concat] in Hc. rewrite app_nil_r in Hc. exact Hc.
Defined.

(** Twenty-three tasks fill three pages, the last one with three tasks. *)
Example pages_of_23_tasks :
  let l := firstn 23 fortyTasks in
  Admin.totalTaskPages l = 3
  /\ List.map (fun p => length (Admin.paginatedTasks l p)) [1; 2; 3; 4]
     = [10; 10; 3; 0]%nat
  /\ (Admin.showingFrom l 3, Admin.showingTo l 3) = (21, 23).
Proof. vm_compute. repeat split. Qed.

Lemma page_buttons_stay_within_pages_witness :
  1 <= Admin.previousPage 2 <= 3 /\ 1 <= Admin.nextPage 3 2 <= 3.
Proof.
  pose proof (page_buttons_stay_within_pages 3 2 ltac:(lia)) as (H1 & H2 & _).
  exact (conj H1 H2).
Defined.

(** The row of the task due yesterday. *)
Example row_of_an_overdue_task :
  Admin.taskRow 0 noon [ann]
    (sampleTask "t1" (Ms (midnight - dayLength)) false 1)
  = Some {| Admin.rowTitle := str "Read chapter 4";
            Admin.rowPhoto := Some (str "");
            Admin.rowStudent := str "Ann";
            Admin.rowDueDate := str "Nov 1, 2026";
            Admin.rowStatus := str "Overdue" |}.
Proof. vm_compute. reflexivity. Qed.

(** A task without a date is listed as pending in the task explorer, and a
    page with it has no table. *)
Example undated_task_is_pending :
  Admin.filteredGlobalTasks 0 noon (fun s => s) (undatedTask :: fourTasks)
    [] Admin.TaskFilterStatus.pending
  = [undatedTask; sampleTask "t3" (Ms (midnight + dayLength)) false 3]
  /\ Admin.taskRow 0 noon [ann] undatedTask = None
  /\ Admin.taskRows 0 noon [ann] (undatedTask :: fourTasks) = None
  /\ option_map (List.map Admin.rowStatus) (Admin.taskRows 0 noon [ann] fourTasks)
     = Some [str "Overdue"; str "Overdue"; str "Pending"; str "Completed"].
Proof. vm_compute. repeat split. Qed.

(** *** New users *)

Example addresses :
  List.map Admin.isValidEmail
    [str "a@b.c"; str "ann@school.example.org"; str "a@b..c"; str "a@b";
     str "a@.c"; str "a@@b.c"; str "a b@c.d"; str "@b.c"; str ""]
  = [true; true; true; false; false; false; false; false; false].
Proof. vm_compute. reflexivity. Qed.

(** An error that names two causes is shown as the first one. *)
Example error_texts :
  Admin.createUserErrorText
    (str "Firebase: Error (auth/email-already-in-use).")
  = str "That email is already registered."
  /\ Admin.createUserErrorText (str "email-already-in-use, weak-password")
     = str "That email is already registered."
  /\ Admin.createUserErrorText (str "quota exceeded") = str "quota exceeded".
Proof. vm_compute. repeat split. Qed.

(** *** The chart *)

(** One task completed on 2026-11-02, at noon: the last point of the week
    and the second point of the month count it. *)
Example chart_of_one_completion :
  let tasks := [Student.set_completion true (Num noon)
                  (sampleTask "t2" (Ms midnight) false 2)] in
  option_map (List.map (fun d => (Admin.day d, Admin.count d)))
    (Admin.dataPoints 0 noon tasks Admin.week)
  = Some [(str "Tue", 0%nat); (str "Wed", 0%nat); (str "Thu", 0%nat);
          (str "Fri", 0%nat); (str "Sat", 0%nat); (str "Sun", 0%nat);
          (str "Mon", 1%nat)]
  /\ option_map (fun l => List.map Admin.count (firstn 3 l))
       (Admin.dataPoints 0 noon tasks Admin.month)
     = Some [0; 1; 0]%nat.
Proof. vm_compute. split; reflexivity. Qed.

(** *** Rates and toggles *)

Lemma completionRate_at_the_ends_witness :
  twoCompleted <> [] /\ Student.completionRate twoCompleted = 100.
Proof.
  assert (H : twoCompleted <> []) by discriminate.
  split; [exact H|].
  refine (proj1 (proj1 (completionRate_at_the_ends 0 noon [] twoCompleted H)
                   _)).
  intros t [<-|[<-|[]]]; reflexivity.
Defined.

(** 199 tasks completed out of 200: the rate shown is 100 as well. *)
Example rate_of_199_out_of_200 :
  Student.completionRate
    (repeat (sampleTask "t8" (Ms midnight) true 8) 199
     ++ [sampleTask "t9" (Ms midnight) false 9])
  = 100.
Proof. vm_compute. reflexivity. Qed.

(** [readTask], as [handleAddTask] stored it, toggled twice: the stored
    task is open again, and holds [null] where it had no field. *)
Lemma toggling_twice_witness :
  Student.toggleTask
    (Task.mk (str "t1") (str "u1") (str "Read") None (Ms midnight) true
       (Num noon) noon)
    (noon + 1) false
    (<[str "t1" :=
         Task.mk (str "t1") (str "u1") (str "Read") None (Ms midnight) true
           (Num noon) noon]> {[ str "t1" := readTask ]})
  = (Done,
     <[str "t1" :=
         Task.mk (str "t1") (str "u1") (str "Read") None (Ms midnight) false
           Null noon]> {[ str "t1" := readTask ]})
  /\ <[str "t1" :=
         Task.mk (str "t1") (str "u1") (str "Read") None (Ms midnight) false
           Null noon]> ({[ str "t1" := readTask ]} : store)
     <> {[ str "t1" := readTask ]}.
Proof.
  pose proof (toggling_twice readTask noon (noon + 1)
                {[ str "t1" := readTask ]} (lookup_singleton_eq _ _))
    as (_ & Htwice & Hsame).
  split; [exact Htwice|].
  intros E. apply Hsame in E. discriminate E.
Defined.
